(** * Portals 4 message-transfer engine: a shallow embedding

    The development follows the sources file by file:
    - [Wire]    byte-order helpers of [ptl_loc.h] and the wire header;
    - [Move]    argument checks and submission of [ptl_move.c];
    - [Nemesis] the ordered shared-memory queue of
                [ptl_internal_orderednemesis.h];
    - [Recv]    the receive sub-FSM of [ptl_recv.c];
    - [Ppe]     [ni_init_impl] and [ni_fini_impl] of [ppe/ni.c];
    - [Consumer] the dequeue side of the ordered queue;
    - [Ident]   the conversions between identifiers and socket addresses
                of [ptl_loc.h];
    - [Submit], [Triggered], [CtOps] the other submissions of
                [ptl_move.c], their triggered forms and the triggered
                counter operations;
    - [Init]    [PtlInit] and [PtlFini] of [init.c];
    - [Conn]    the connection state machine of [ptl_conn.c] and the
                disconnect handshake;
    - [Poll]    the polling of the completion queue in [ptl_recv.c];
    - [PpePid]  the reservation of a pid in [ni_init_impl].

    C integers are values of [Z]; the width of a type is written out with
    [Z.land] and [Z.ones] where the source converts or wraps.  Pointers that
    may be NULL are [option]s. *)

From stdpp Require Import base list numbers gmap.
From Stdlib Require Import ZArith Lia Bool.
Open Scope Z_scope.

(** ** Shared arithmetic helpers *)

Definition u16 (x : Z) : Z := Z.land x (Z.ones 16).
Definition u32 (x : Z) : Z := Z.land x (Z.ones 32).
Definition u64 (x : Z) : Z := Z.land x (Z.ones 64).

Definition in_u8 (x : Z) : Prop := 0 <= x < 2 ^ 8.
Definition in_u16 (x : Z) : Prop := 0 <= x < 2 ^ 16.
Definition in_u32 (x : Z) : Prop := 0 <= x < 2 ^ 32.
Definition in_u64 (x : Z) : Prop := 0 <= x < 2 ^ 64.

(** ** Return codes *)

(** Modelled from the spec: the return codes of the API, which [portals4.h]
    declares and which is not among the sources.  They are the codes of the
    error surface of the specification that a call can return; C's
    [if (err)] tests for anything but [PTL_OK]. *)
Inductive ptl_ret :=
| PTL_OK | PTL_NO_INIT | PTL_NO_SPACE | PTL_PID_IN_USE | PTL_ARG_INVALID
| PTL_FAIL | PTL_IN_USE | PTL_INTERRUPTED.

Definition is_err (r : ptl_ret) : bool :=
  match r with PTL_OK => false | _ => true end.

(** ** Arrays *)

(** Reading [a[i]]; outside the array the C program has no defined meaning. *)
Definition index {A} (a : list A) (i : Z) : option A :=
  if i <? 0 then None else a !! Z.to_nat i.

(** ** ptl_loc.h: byte order *)

Module Wire.

(** [htons] and [htonl] come from the C library.  [ptl_loc.h] refuses to
    compile on anything but a little-endian host ([#error Not defined yet]),
    where they reverse the bytes of their argument. *)
Definition htons (x : Z) : Z :=
  Z.lor (Z.shiftl (Z.land x 255) 8) (Z.land (Z.shiftr x 8) 255).

Definition htonl (x : Z) : Z :=
  Z.lor (Z.lor (Z.shiftl (Z.land x 255) 24)
               (Z.shiftl (Z.land (Z.shiftr x 8) 255) 16))
        (Z.lor (Z.shiftl (Z.land (Z.shiftr x 16) 255) 8)
               (Z.land (Z.shiftr x 24) 255)).

Definition cpu_to_be16 (x : Z) : Z := htons x.
Definition be16_to_cpu (x : Z) : Z := htons x.
Definition cpu_to_be32 (x : Z) : Z := htonl x.
Definition be32_to_cpu (x : Z) : Z := htonl x.

(** [uint64_t y = htonl((uint32_t)x);
     return (y << 32) | htonl((uint32_t)(x >> 32));] *)
Definition cpu_to_be64 (x : Z) : Z :=
  let y := htonl (u32 x) in
  Z.lor (u64 (Z.shiftl y 32)) (htonl (u32 (Z.shiftr x 32))).

Definition be64_to_cpu (x : Z) : Z := cpu_to_be64 x.

Definition cpu_to_le16 (x : Z) : Z := x.
Definition le16_to_cpu (x : Z) : Z := x.
Definition cpu_to_le32 (x : Z) : Z := x.
Definition le32_to_cpu (x : Z) : Z := x.
Definition cpu_to_le64 (x : Z) : Z := x.
Definition le64_to_cpu (x : Z) : Z := x.

(** Modelled from the spec: the request header of [ptl_hdr.h], which is not
    among the sources.  Fields and order are those of the wire header of the
    specification; every multi-byte field is stored little-endian. *)
Record req_hdr_t := {
  version : Z;        (* u8 *)
  operation : Z;      (* u8 *)
  ni_type : Z;        (* u8 *)
  pkt_fmt : Z;        (* u8 *)
  flags : Z;          (* u8 *)
  hdr_handle : Z;     (* u32 *)
  src_nid : Z;        (* u32 *)
  src_pid : Z;        (* u32 *)
  length : Z;         (* u64 *)
  pt_index : Z;       (* u32 *)
  match_bits : Z;     (* u64 *)
  remote_offset : Z;  (* u64 *)
  hdr_data : Z;       (* u64 *)
  atom_op : Z;        (* u8 *)
  atom_type : Z;      (* u8 *)
  ack_req : Z         (* u8 *)
}.

Definition legal_hdr (h : req_hdr_t) : Prop :=
  in_u8 (version h) /\ in_u8 (operation h) /\ in_u8 (ni_type h) /\
  in_u8 (pkt_fmt h) /\ in_u8 (flags h) /\ in_u32 (hdr_handle h) /\
  in_u32 (src_nid h) /\ in_u32 (src_pid h) /\ in_u64 (length h) /\
  in_u32 (pt_index h) /\ in_u64 (match_bits h) /\
  in_u64 (remote_offset h) /\ in_u64 (hdr_data h) /\
  in_u8 (atom_op h) /\ in_u8 (atom_type h) /\ in_u8 (ack_req h).

(** What the sender stores in the packet, and what the receiver reads back. *)
Definition encode (h : req_hdr_t) : req_hdr_t :=
  {| version := version h; operation := operation h; ni_type := ni_type h;
     pkt_fmt := pkt_fmt h; flags := flags h;
     hdr_handle := cpu_to_le32 (hdr_handle h);
     src_nid := cpu_to_le32 (src_nid h);
     src_pid := cpu_to_le32 (src_pid h);
     length := cpu_to_le64 (length h);
     pt_index := cpu_to_le32 (pt_index h);
     match_bits := cpu_to_le64 (match_bits h);
     remote_offset := cpu_to_le64 (remote_offset h);
     hdr_data := cpu_to_le64 (hdr_data h);
     atom_op := atom_op h; atom_type := atom_type h; ack_req := ack_req h |}.

Definition decode (h : req_hdr_t) : req_hdr_t :=
  {| version := version h; operation := operation h; ni_type := ni_type h;
     pkt_fmt := pkt_fmt h; flags := flags h;
     hdr_handle := le32_to_cpu (hdr_handle h);
     src_nid := le32_to_cpu (src_nid h);
     src_pid := le32_to_cpu (src_pid h);
     length := le64_to_cpu (length h);
     pt_index := le32_to_cpu (pt_index h);
     match_bits := le64_to_cpu (match_bits h);
     remote_offset := le64_to_cpu (remote_offset h);
     hdr_data := le64_to_cpu (hdr_data h);
     atom_op := atom_op h; atom_type := atom_type h; ack_req := ack_req h |}.

(** The older big-endian layout, still read by [buf_dump]: the length
    travels through [cpu_to_be64]. *)
Definition encode_be (h : req_hdr_t) : req_hdr_t :=
  {| version := version h; operation := operation h; ni_type := ni_type h;
     pkt_fmt := pkt_fmt h; flags := flags h;
     hdr_handle := cpu_to_be32 (hdr_handle h);
     src_nid := cpu_to_be32 (src_nid h);
     src_pid := cpu_to_be32 (src_pid h);
     length := cpu_to_be64 (length h);
     pt_index := cpu_to_be32 (pt_index h);
     match_bits := cpu_to_be64 (match_bits h);
     remote_offset := cpu_to_be64 (remote_offset h);
     hdr_data := cpu_to_be64 (hdr_data h);
     atom_op := atom_op h; atom_type := atom_type h; ack_req := ack_req h |}.

Definition decode_be (h : req_hdr_t) : req_hdr_t :=
  {| version := version h; operation := operation h; ni_type := ni_type h;
     pkt_fmt := pkt_fmt h; flags := flags h;
     hdr_handle := be32_to_cpu (hdr_handle h);
     src_nid := be32_to_cpu (src_nid h);
     src_pid := be32_to_cpu (src_pid h);
     length := be64_to_cpu (length h);
     pt_index := be32_to_cpu (pt_index h);
     match_bits := be64_to_cpu (match_bits h);
     remote_offset := be64_to_cpu (remote_offset h);
     hdr_data := be64_to_cpu (hdr_data h);
     atom_op := atom_op h; atom_type := atom_type h; ack_req := ack_req h |}.

(** Sample data. *)
Definition sample_hdr : req_hdr_t :=
  {| version := 1; operation := 1; ni_type := 0; pkt_fmt := 0; flags := 3;
     hdr_handle := 0x01020304; src_nid := 0x0a000001; src_pid := 4660;
     length := 16; pt_index := 3; match_bits := 0x1234; remote_offset := 8;
     hdr_data := 0xdeadbeef00112233; atom_op := 0; atom_type := 0;
     ack_req := 1 |}.

End Wire.

(** ** ptl_move.c: argument checks and submission *)

Module Move.

(** A C pointer tested with [!p]. *)
Definition is_null {A} (p : option A) : bool :=
  match p with None => true | Some _ => false end.

(** An array built from designated initialisers [[i] = v]: as long as the
    largest index plus one, zero everywhere else. *)
Definition designated {A} (zero : A) (inits : list (Z * A)) : list A :=
  let n := foldr (fun iv n => Nat.max (S (Z.to_nat (fst iv))) n) O inits in
  foldl (fun a iv => <[Z.to_nat (fst iv) := snd iv]> a)
    (replicate n zero) inits.

(** Modelled from the spec: the enumerators of [ptl_op_t], which
    [portals4.h] declares and which is not among the sources.  They are
    numbered from zero in the order of the atomic op matrix of the
    specification, which is also the order in which [op_info] lists them;
    [PTL_OP_LAST] closes the enumeration. *)
Definition PTL_MIN : Z := 0.
Definition PTL_MAX : Z := 1.
Definition PTL_SUM : Z := 2.
Definition PTL_PROD : Z := 3.
Definition PTL_LOR : Z := 4.
Definition PTL_LAND : Z := 5.
Definition PTL_BOR : Z := 6.
Definition PTL_BAND : Z := 7.
Definition PTL_LXOR : Z := 8.
Definition PTL_BXOR : Z := 9.
Definition PTL_SWAP : Z := 10.
Definition PTL_CSWAP : Z := 11.
Definition PTL_CSWAP_NE : Z := 12.
Definition PTL_CSWAP_LE : Z := 13.
Definition PTL_CSWAP_LT : Z := 14.
Definition PTL_CSWAP_GE : Z := 15.
Definition PTL_CSWAP_GT : Z := 16.
Definition PTL_MSWAP : Z := 17.
Definition PTL_OP_LAST : Z := 18.

(** The enumerators of [ptl_datatype_t], from the same header, numbered from
    zero in the order in which [atom_type_size] lists them. *)
Definition PTL_CHAR : Z := 0.
Definition PTL_UCHAR : Z := 1.
Definition PTL_SHORT : Z := 2.
Definition PTL_USHORT : Z := 3.
Definition PTL_INT : Z := 4.
Definition PTL_UINT : Z := 5.
Definition PTL_LONG : Z := 6.
Definition PTL_ULONG : Z := 7.
Definition PTL_FLOAT : Z := 8.
Definition PTL_FLOAT_COMPLEX : Z := 9.
Definition PTL_DOUBLE : Z := 10.
Definition PTL_DOUBLE_COMPLEX : Z := 11.
Definition PTL_DATATYPE_LAST : Z := 12.

Record atom_op_info := Info {
  float_ok : Z;
  complex_ok : Z;
  atomic_ok : Z;
  swap_ok : Z;
  use_operand : Z
}.

Definition op_info : list atom_op_info :=
  designated (Info 0 0 0 0 0)
  [ (PTL_MIN,      Info 1 0 1 0 0);
    (PTL_MAX,      Info 1 0 1 0 0);
    (PTL_SUM,      Info 1 1 1 0 0);
    (PTL_PROD,     Info 1 1 1 0 0);
    (PTL_LOR,      Info 0 0 1 0 0);
    (PTL_LAND,     Info 0 0 1 0 0);
    (PTL_BOR,      Info 0 0 1 0 0);
    (PTL_BAND,     Info 0 0 1 0 0);
    (PTL_LXOR,     Info 0 0 1 0 0);
    (PTL_BXOR,     Info 0 0 1 0 0);
    (PTL_SWAP,     Info 1 1 0 1 0);
    (PTL_CSWAP,    Info 1 1 0 1 1);
    (PTL_CSWAP_NE, Info 1 1 0 1 1);
    (PTL_CSWAP_LE, Info 1 0 0 1 1);
    (PTL_CSWAP_LT, Info 1 0 0 1 1);
    (PTL_CSWAP_GE, Info 1 0 0 1 1);
    (PTL_CSWAP_GT, Info 1 0 0 1 1);
    (PTL_MSWAP,    Info 0 0 0 1 1) ].

Definition atom_type_size : list Z :=
  designated 0
  [ (PTL_CHAR, 1); (PTL_UCHAR, 1); (PTL_SHORT, 2); (PTL_USHORT, 2);
    (PTL_INT, 4); (PTL_UINT, 4); (PTL_LONG, 8); (PTL_ULONG, 8);
    (PTL_FLOAT, 4); (PTL_FLOAT_COMPLEX, 8); (PTL_DOUBLE, 8);
    (PTL_DOUBLE_COMPLEX, 16) ].

(** The enumerators of [ptl_ack_req_t], from the same header.  Nothing
    fixes their numbering, so it is left open. *)
Class ack_req_values := {
  PTL_NO_ACK_REQ : Z;
  PTL_ACK_REQ : Z;
  PTL_CT_ACK_REQ : Z;
  PTL_OC_ACK_REQ : Z
}.

(** The fields of [ni_t] and [md_t] that this file reads.  [ni_addr] is the
    address of the object: it is what a comparison of two [ni_t *] looks
    at. *)
Record ptl_ni_limits_t := {
  max_msg_size : Z;
  max_atomic_size : Z
}.

Record ni_t := {
  ni_addr : Z;
  limits : ptl_ni_limits_t;
  uid : Z;
  rt_jid : Z
}.

Record md_t := {
  md_length : Z;
  md_eq : option Z;
  md_ct : option Z;
  md_ni : ni_t
}.

(** [to_ni(md)]: the NI that owns the object. *)
Definition to_ni (md : option md_t) : option ni_t := md_ni <$> md.

Inductive op_kind := OP_PUT | OP_GET | OP_ATOMIC | OP_FETCH | OP_SWAP.

Inductive init_state :=
| STATE_INIT_START | STATE_INIT_PREP_REQ | STATE_INIT_WAIT_CONN
| STATE_INIT_SEND_REQ | STATE_INIT_WAIT_COMP | STATE_INIT_SEND_ERROR
| STATE_INIT_EARLY_SEND_EVENT | STATE_INIT_WAIT_RECV | STATE_INIT_DATA_IN
| STATE_INIT_LATE_SEND_EVENT | STATE_INIT_ACK_EVENT | STATE_INIT_REPLY_EVENT
| STATE_INIT_CLEANUP | STATE_INIT_ERROR | STATE_INIT_DONE | STATE_INIT_LAST.

Record xi_t := {
  xi_operation : option op_kind;
  xi_target : Z;
  xi_uid : Z;
  xi_jid : Z;
  xi_pt_index : Z;
  xi_match_bits : Z;
  xi_ack_req : Z;
  xi_put_md : option md_t;
  xi_get_md : option md_t;
  xi_hdr_data : Z;
  xi_operand : Z;
  xi_user_ptr : Z;
  xi_threshold : Z;
  xi_atom_op : Z;
  xi_atom_type : Z;
  xi_rlength : Z;
  xi_put_offset : Z;
  xi_put_resid : Z;
  xi_get_offset : Z;
  xi_get_resid : Z;
  xi_roffset : Z;
  xi_pkt_len : Z;
  xi_state : option init_state
}.

(** What a submission does to the rest of the library, in program order. *)
Inductive event :=
| Ev_gbl_put
| Ev_md_put (md : option md_t)
| Ev_xi_alloc (ni : ni_t)
| Ev_process_init (xi : xi_t).

(** A call either returns a code after a sequence of events, or runs into
    undefined behaviour (a NULL or out-of-bounds access). *)
Inductive outcome :=
| Returns (r : ptl_ret) (tr : list event)
| Undefined.

(** The collaborators of [ptl_move.c] that are not among the sources, and the
    compile-time switch [PTL_CHECK_BUILD]. *)
Record env := {
  PTL_CHECK_BUILD : bool;
  get_gbl : ptl_ret;
  md_get : Z -> ptl_ret * option md_t;
  xi_alloc : ni_t -> ptl_ret * xi_t;
  sizeof_req_hdr_t : Z
}.

Definition ret_of (o : outcome) : option ptl_ret :=
  match o with Returns r _ => Some r | Undefined => None end.

(** No XI was allocated and none was handed to the initiator state machine
    (the only place that generates events for an operation). *)
Definition no_xi (o : outcome) : Prop :=
  match o with
  | Returns _ tr =>
      forall e, e ∈ tr ->
        match e with Ev_xi_alloc _ | Ev_process_init _ => False | _ => True end
  | Undefined => False
  end.

Section Checks.
Context {ack : ack_req_values}.

Definition check_put (md : option md_t) (local_offset length ack_req : Z)
    (ni : option ni_t) : option ptl_ret :=
  match md with
  | None => Some PTL_ARG_INVALID
  | Some m =>
    if u64 (local_offset + length) >? md_length m then Some PTL_ARG_INVALID
    else if (ack_req <? PTL_NO_ACK_REQ) || (ack_req >? PTL_OC_ACK_REQ)
    then Some PTL_ARG_INVALID
    else if (ack_req =? PTL_ACK_REQ) && is_null (md_eq m)
    then Some PTL_ARG_INVALID
    else if (ack_req =? PTL_CT_ACK_REQ) && is_null (md_ct m)
    then Some PTL_ARG_INVALID
    else
      n ← ni;
      if length >? max_msg_size (limits n) then Some PTL_ARG_INVALID
      else Some PTL_OK
  end.

Definition check_get (md : option md_t) (local_offset length : Z)
    (ni : option ni_t) : option ptl_ret :=
  match md with
  | None => Some PTL_ARG_INVALID
  | Some m =>
    if u64 (local_offset + length) >? md_length m then Some PTL_ARG_INVALID
    else
      n ← ni;
      if length >? max_msg_size (limits n) then Some PTL_ARG_INVALID
      else Some PTL_OK
  end.

Definition check_atomic (md : option md_t) (local_offset length : Z)
    (ni : option ni_t) (ack_req atom_op atom_type : Z) : option ptl_ret :=
  match md with
  | None => Some PTL_ARG_INVALID
  | Some m =>
    if u64 (local_offset + length) >? md_length m then Some PTL_ARG_INVALID
    else
      n ← ni;
      if length >? max_atomic_size (limits n) then Some PTL_ARG_INVALID
      else if (ack_req <? PTL_NO_ACK_REQ) || (ack_req >? PTL_OC_ACK_REQ)
      then Some PTL_ARG_INVALID
      else if (ack_req =? PTL_ACK_REQ) && is_null (md_eq m)
      then Some PTL_ARG_INVALID
      else if (ack_req =? PTL_CT_ACK_REQ) && is_null (md_ct m)
      then Some PTL_ARG_INVALID
      else if (atom_op <? PTL_MIN) || (atom_op >=? PTL_OP_LAST)
      then Some PTL_ARG_INVALID
      else
        info ← index op_info atom_op;
        if atomic_ok info =? 0 then Some PTL_ARG_INVALID
        else if (atom_type <? PTL_CHAR) || (atom_type >=? PTL_DATATYPE_LAST)
        then Some PTL_ARG_INVALID
        else if ((atom_type =? PTL_FLOAT) || (atom_type =? PTL_DOUBLE))
                && (float_ok info =? 0)
        then Some PTL_ARG_INVALID
        else if ((atom_type =? PTL_FLOAT_COMPLEX)
                 || (atom_type =? PTL_DOUBLE_COMPLEX))
                && (complex_ok info =? 0)
        then Some PTL_ARG_INVALID
        else Some PTL_OK
  end.

Definition check_swap (md : option md_t) (local_offset length : Z)
    (ni : option ni_t) (atom_op atom_type : Z) : option ptl_ret :=
  match md with
  | None => Some PTL_ARG_INVALID
  | Some m =>
    if u64 (local_offset + length) >? md_length m then Some PTL_ARG_INVALID
    else
      n ← ni;
      if length >? max_atomic_size (limits n) then Some PTL_ARG_INVALID
      else if (atom_op <? PTL_MIN) || (atom_op >=? PTL_OP_LAST)
      then Some PTL_ARG_INVALID
      else
        info ← index op_info atom_op;
        if swap_ok info =? 0 then Some PTL_ARG_INVALID
        else if (atom_type <? PTL_CHAR) || (atom_type >=? PTL_DATATYPE_LAST)
        then Some PTL_ARG_INVALID
        else if ((atom_type =? PTL_FLOAT) || (atom_type =? PTL_DOUBLE))
                && (float_ok info =? 0)
        then Some PTL_ARG_INVALID
        else if ((atom_type =? PTL_FLOAT_COMPLEX)
                 || (atom_type =? PTL_DOUBLE_COMPLEX))
                && (complex_ok info =? 0)
        then Some PTL_ARG_INVALID
        else if use_operand info =? 0 then Some PTL_OK
        else
          size ← index atom_type_size atom_type;
          if length >? size then Some PTL_ARG_INVALID else Some PTL_OK
  end.

(** [get_operand]: the operand is read at the width of the datatype.
    [operand] stands for the eight bytes behind the pointer, taken as a
    little-endian number; [-1ULL] is [Z.ones 64]. *)
Definition get_operand (type operand : Z) : option (ptl_ret * Z) :=
  len ← index atom_type_size type;
  let val :=
    if len =? 1 then Z.land operand (Z.ones 8)
    else if len =? 2 then Z.land operand (Z.ones 16)
    else if len =? 4 then Z.land operand (Z.ones 32)
    else if len =? 8 then Z.land operand (Z.ones 64)
    else Z.ones 64 in
  Some (PTL_OK, val).

Variable E : env.

Definition PtlPut (md_handle local_offset length ack_req target_id pt_index
    match_bits remote_offset user_ptr hdr_data : Z) : outcome :=
  if is_err (get_gbl E) then Returns (get_gbl E) []
  else
    let '(err, md) := md_get E md_handle in
    if is_err err then Returns err [Ev_gbl_put]
    else
      let ni := to_ni md in
      match (if PTL_CHECK_BUILD E
             then check_put md local_offset length ack_req ni
             else Some PTL_OK) with
      | None => Undefined
      | Some err =>
        if is_err err then Returns err [Ev_md_put md; Ev_gbl_put]
        else
          match ni with
          | None => Undefined
          | Some n =>
            let '(err, xi) := xi_alloc E n in
            if is_err err then Returns err [Ev_md_put md; Ev_gbl_put]
            else
              let xi :=
                {| xi_operation := Some OP_PUT;
                   xi_target := target_id;
                   xi_uid := uid n;
                   xi_jid := rt_jid n;
                   xi_pt_index := pt_index;
                   xi_match_bits := match_bits;
                   xi_ack_req := ack_req;
                   xi_put_md := md;
                   xi_get_md := xi_get_md xi;
                   xi_hdr_data := hdr_data;
                   xi_operand := xi_operand xi;
                   xi_user_ptr := user_ptr;
                   xi_threshold := 0;
                   xi_atom_op := xi_atom_op xi;
                   xi_atom_type := xi_atom_type xi;
                   xi_rlength := length;
                   xi_put_offset := local_offset;
                   xi_put_resid := length;
                   xi_get_offset := xi_get_offset xi;
                   xi_get_resid := xi_get_resid xi;
                   xi_roffset := remote_offset;
                   xi_pkt_len := sizeof_req_hdr_t E;
                   xi_state := Some STATE_INIT_START |} in
              Returns PTL_OK [Ev_xi_alloc n; Ev_process_init xi; Ev_gbl_put]
          end
      end.

Definition PtlAtomic (md_handle local_offset length ack_req target_id pt_index
    match_bits remote_offset user_ptr hdr_data atom_op atom_type : Z)
    : outcome :=
  if is_err (get_gbl E) then Returns (get_gbl E) []
  else
    let '(err, md) := md_get E md_handle in
    if is_err err then Returns err [Ev_gbl_put]
    else
      let ni := to_ni md in
      match (if PTL_CHECK_BUILD E
             then check_atomic md local_offset length ni ack_req
                    atom_op atom_type
             else Some PTL_OK) with
      | None => Undefined
      | Some err =>
        if is_err err then Returns err [Ev_md_put md; Ev_gbl_put]
        else
          match ni with
          | None => Undefined
          | Some n =>
            let '(err, xi) := xi_alloc E n in
            if is_err err then Returns err [Ev_md_put md; Ev_gbl_put]
            else
              let xi :=
                {| xi_operation := Some OP_ATOMIC;
                   xi_target := target_id;
                   xi_uid := uid n;
                   xi_jid := rt_jid n;
                   xi_pt_index := pt_index;
                   xi_match_bits := match_bits;
                   xi_ack_req := ack_req;
                   xi_put_md := md;
                   xi_get_md := xi_get_md xi;
                   xi_hdr_data := hdr_data;
                   xi_operand := xi_operand xi;
                   xi_user_ptr := user_ptr;
                   xi_threshold := xi_threshold xi;
                   xi_atom_op := atom_op;
                   xi_atom_type := atom_type;
                   xi_rlength := length;
                   xi_put_offset := local_offset;
                   xi_put_resid := length;
                   xi_get_offset := xi_get_offset xi;
                   xi_get_resid := xi_get_resid xi;
                   xi_roffset := remote_offset;
                   xi_pkt_len := sizeof_req_hdr_t E;
                   xi_state := Some STATE_INIT_START |} in
              Returns PTL_OK [Ev_xi_alloc n; Ev_process_init xi; Ev_gbl_put]
          end
      end.

(** The checks of [PtlSwap] under [PTL_CHECK_BUILD]: [check_get] on the get
    MD, [check_swap] on the put MD, then both MDs on the same NI. *)
Definition swap_checks (get_md put_md : option md_t)
    (local_get_offset local_put_offset length : Z) (ni : option ni_t)
    (atom_op atom_type : Z) : option ptl_ret :=
  err ← check_get get_md local_get_offset length ni;
  if is_err err then Some err
  else
    err ← check_swap put_md local_put_offset length ni atom_op atom_type;
    if is_err err then Some err
    else
      match to_ni put_md, ni with
      | Some pn, Some n =>
          if negb (ni_addr pn =? ni_addr n) then Some PTL_ARG_INVALID
          else Some PTL_OK
      | _, _ => None
      end.

Definition PtlSwap (get_md_handle local_get_offset put_md_handle
    local_put_offset length target_id pt_index match_bits remote_offset
    user_ptr hdr_data operand atom_op atom_type : Z) : outcome :=
  if is_err (get_gbl E) then Returns (get_gbl E) []
  else
    let '(err, get_md) := md_get E get_md_handle in
    if is_err err then Returns err [Ev_gbl_put]
    else
      let '(err, put_md) := md_get E put_md_handle in
      if is_err err then Returns err [Ev_md_put get_md; Ev_gbl_put]
      else
        let ni := to_ni get_md in
        let fail err :=
          Returns err [Ev_md_put put_md; Ev_md_put get_md; Ev_gbl_put] in
        match (if PTL_CHECK_BUILD E
               then swap_checks get_md put_md local_get_offset
                      local_put_offset length ni atom_op atom_type
               else Some PTL_OK) with
        | None => Undefined
        | Some err =>
          if is_err err then fail err
          else
            match index op_info atom_op with
            | None => Undefined
            | Some info =>
              match (if use_operand info =? 0 then Some (PTL_OK, 0)
                     else get_operand atom_type operand) with
              | None => Undefined
              | Some (err, opval) =>
                if is_err err then fail err
                else
                  match ni with
                  | None => Undefined
                  | Some n =>
                    let '(err, xi) := xi_alloc E n in
                    if is_err err then fail err
                    else
                      let xi :=
                        {| xi_operation := Some OP_SWAP;
                           xi_target := target_id;
                           xi_uid := uid n;
                           xi_jid := rt_jid n;
                           xi_pt_index := pt_index;
                           xi_match_bits := match_bits;
                           xi_ack_req := xi_ack_req xi;
                           xi_put_md := put_md;
                           xi_get_md := get_md;
                           xi_hdr_data := hdr_data;
                           xi_operand := opval;
                           xi_user_ptr := user_ptr;
                           xi_threshold := xi_threshold xi;
                           xi_atom_op := atom_op;
                           xi_atom_type := atom_type;
                           xi_rlength := length;
                           xi_put_offset := local_put_offset;
                           xi_put_resid := length;
                           xi_get_offset := local_get_offset;
                           xi_get_resid := length;
                           xi_roffset := remote_offset;
                           xi_pkt_len := sizeof_req_hdr_t E;
                           xi_state := Some STATE_INIT_START |} in
                      Returns PTL_OK
                        [Ev_xi_alloc n; Ev_process_init xi; Ev_gbl_put]
                  end
              end
            end
        end.

End Checks.

(** The families of operations, in the words of the atomic op matrix. *)
Definition minmax_family : list Z := [PTL_MIN; PTL_MAX].
Definition sum_family : list Z := [PTL_SUM; PTL_PROD].
Definition logical_family : list Z :=
  [PTL_LOR; PTL_LAND; PTL_BOR; PTL_BAND; PTL_LXOR; PTL_BXOR].
Definition swap_family : list Z :=
  [PTL_SWAP; PTL_CSWAP; PTL_CSWAP_NE; PTL_CSWAP_LE; PTL_CSWAP_LT;
   PTL_CSWAP_GE; PTL_CSWAP_GT; PTL_MSWAP].
Definition operand_family : list Z :=
  [PTL_CSWAP; PTL_CSWAP_NE; PTL_CSWAP_LE; PTL_CSWAP_LT; PTL_CSWAP_GE;
   PTL_CSWAP_GT; PTL_MSWAP].

Definition is_float_type (t : Z) : Prop := t = PTL_FLOAT \/ t = PTL_DOUBLE.
Definition is_complex_type (t : Z) : Prop :=
  t = PTL_FLOAT_COMPLEX \/ t = PTL_DOUBLE_COMPLEX.

(** The other checks of [check_swap] on the datatype pass: the row of the
    operation admits the datatype. *)
Definition type_admitted (atom_op atom_type : Z) : Prop :=
  forall info, index op_info atom_op = Some info ->
    (is_float_type atom_type -> float_ok info <> 0) /\
    (is_complex_type atom_type -> complex_ok info <> 0).

(** The four reasons for which a Put is refused, as the claim lists them,
    and the fifth one of [check_put]. *)
Definition put_refused_as_claimed `{ack_req_values} (m : md_t)
    (local_offset length ack_req : Z) : Prop :=
  (ack_req = PTL_ACK_REQ /\ md_eq m = None) \/
  (ack_req = PTL_CT_ACK_REQ /\ md_ct m = None) \/
  length > max_msg_size (limits (md_ni m)) \/
  local_offset + length > md_length m.

Definition put_refused `{ack_req_values} (m : md_t)
    (local_offset length ack_req : Z) : Prop :=
  put_refused_as_claimed m local_offset length ack_req \/
  ack_req < PTL_NO_ACK_REQ \/ ack_req > PTL_OC_ACK_REQ.

(** Sample data: one numbering of [ptl_ack_req_t], an NI, an MD with an EQ
    and a CT, a fresh XI, and two builds of the library. *)
Definition sample_ack : ack_req_values :=
  {| PTL_NO_ACK_REQ := 0; PTL_ACK_REQ := 1; PTL_CT_ACK_REQ := 2;
     PTL_OC_ACK_REQ := 3 |}.

Definition sample_ni : ni_t :=
  {| ni_addr := 4096;
     limits := {| max_msg_size := 1048576; max_atomic_size := 512 |};
     uid := 1000; rt_jid := 7 |}.

Definition sample_md : md_t :=
  {| md_length := 64; md_eq := Some 1; md_ct := Some 2; md_ni := sample_ni |}.

Definition fresh_xi : xi_t :=
  {| xi_operation := None; xi_target := 0; xi_uid := 0; xi_jid := 0;
     xi_pt_index := 0; xi_match_bits := 0; xi_ack_req := 0;
     xi_put_md := None; xi_get_md := None; xi_hdr_data := 0;
     xi_operand := 0; xi_user_ptr := 0; xi_threshold := 0; xi_atom_op := 0;
     xi_atom_type := 0; xi_rlength := 0; xi_put_offset := 0;
     xi_put_resid := 0; xi_get_offset := 0; xi_get_resid := 0;
     xi_roffset := 0; xi_pkt_len := 0; xi_state := None |}.

Definition sample_env (check_build : bool) : env :=
  {| PTL_CHECK_BUILD := check_build;
     get_gbl := PTL_OK;
     md_get := fun _ => (PTL_OK, Some sample_md);
     xi_alloc := fun _ => (PTL_OK, fresh_xi);
     sizeof_req_hdr_t := 80 |}.

(** The submissions that the atomic op matrix forbids for [PtlAtomic]. *)
Definition atomic_forbidden (atom_op atom_type : Z) : Prop :=
  atom_op < PTL_MIN \/ atom_op >= PTL_OP_LAST \/
  atom_op ∈ swap_family \/
  (is_float_type atom_type /\ atom_op ∈ logical_family) \/
  (is_complex_type atom_type /\
   (atom_op ∈ minmax_family \/ atom_op ∈ logical_family)).

End Move.

(** ** ptl_internal_orderednemesis.h: the ordered queue *)

Module Nemesis.

(** A pointer to an entry is the address of the entry, [None] for NULL.  The
    shared segment is a map from the address of an entry to its [next]
    field; the payload [data[]] plays no part in the queue discipline. *)
Record ordered_NEMESIS_ptr := {
  ptr : option Z;
  val : Z
}.

Record ordered_NEMESIS_queue := {
  head : ordered_NEMESIS_ptr;
  tail : ordered_NEMESIS_ptr;
  shadow_head : ordered_NEMESIS_ptr
}.

Record shmem := {
  queue : ordered_NEMESIS_queue;
  next_of : gmap Z ordered_NEMESIS_ptr
}.

(** [tmp.ptr != oldval.ptr || tmp.val != oldval.val] is the negation of
    this. *)
Definition same (a b : ordered_NEMESIS_ptr) : bool :=
  bool_decide (ptr a = ptr b) && (val a =? val b).

(** [lock cmpxchg16b]: the cell takes [newval] if it holds [oldval]; its
    former content is returned either way.  The result is the pair of the
    new content of the cell and the returned value. *)
Definition PtlInternalAtomicCas128 (cell oldval newval : ordered_NEMESIS_ptr)
    : ordered_NEMESIS_ptr * ordered_NEMESIS_ptr :=
  if same cell oldval then (newval, cell) else (cell, cell).

(** Other producers share the tail.  What they do to it while a call runs
    is a schedule: one item for each CAS of the call, saying what they have
    left in the tail since the call last looked ([None]: nothing); once the
    schedule is used up the call runs alone.  [[]] is a call that runs alone
    throughout. *)
Definition schedule := list (option ordered_NEMESIS_ptr).

Definition interfere (sched : schedule) (cell : ordered_NEMESIS_ptr)
    : ordered_NEMESIS_ptr :=
  match sched with
  | Some t :: _ => t
  | _ => cell
  end.

(** The [while] loop of [PtlInternalAtomicSwap128], entered with the result
    [tmp] of the previous CAS; [None] when the fuel runs out. *)
Fixpoint swap128_loop (fuel : nat) (sched : schedule)
    (cell oldval newval tmp : ordered_NEMESIS_ptr)
    : option (ordered_NEMESIS_ptr * ordered_NEMESIS_ptr) :=
  if same tmp oldval then Some (cell, oldval)
  else
    match fuel with
    | O => None
    | S fuel' =>
        let oldval := tmp in
        if val tmp >? val newval then Some (cell, oldval)
        else
          let '(cell', tmp') :=
            PtlInternalAtomicCas128 (interfere sched cell) oldval newval in
          swap128_loop fuel' (drop 1 sched) cell' oldval newval tmp'
    end.

(** The result is the pair of what the call leaves in the cell and the value
    it returns. *)
Definition PtlInternalAtomicSwap128 (fuel : nat) (sched : schedule)
    (cell newval : ordered_NEMESIS_ptr)
    : option (ordered_NEMESIS_ptr * ordered_NEMESIS_ptr) :=
  let oldval := cell in
  if val oldval >? val newval then Some (cell, oldval)
  else
    let '(cell', tmp) :=
      PtlInternalAtomicCas128 (interfere sched cell) oldval newval in
    swap128_loop fuel (drop 1 sched) cell' oldval newval tmp.

Definition nil : ordered_NEMESIS_ptr := {| ptr := None; val := 0 |}.

Definition PtlInternalOrderedNEMESISInit (q : ordered_NEMESIS_queue)
    : ordered_NEMESIS_queue :=
  {| head := nil; tail := nil; shadow_head := nil |}.

(** A call returns a value and leaves a segment behind, or it stops: on a
    failed [assert], on an access through a pointer that is NULL or not an
    entry of the segment, or for lack of fuel. *)
Inductive result :=
| Done (ret : Z) (s : shmem)
| Stopped.

Definition set_tail (q : ordered_NEMESIS_queue) (t : ordered_NEMESIS_ptr) :=
  {| head := head q; tail := t; shadow_head := shadow_head q |}.

Definition set_head (q : ordered_NEMESIS_queue) (h : ordered_NEMESIS_ptr) :=
  {| head := h; tail := tail q; shadow_head := shadow_head q |}.

Definition PtlInternalOrderedNEMESISEnqueue (fuel : nat) (sched : schedule)
    (s : shmem) (e : option Z) (v : Z) : result :=
  let f := {| ptr := e; val := v |} in
  match e with
  | None => Stopped
  | Some a =>
    match next_of s !! a with
    | None => Stopped
    | Some nx =>
      if bool_decide (ptr nx <> None) then Stopped
      else
        match PtlInternalAtomicSwap128 fuel sched (tail (queue s)) f with
        | None => Stopped
        | Some (tail', prev) =>
          let q := set_tail (queue s) tail' in
          if val prev >? val f then
            Done 0 {| queue := q; next_of := next_of s |}
          else
            match ptr prev with
            | None =>
                Done 1 {| queue := set_head q f; next_of := next_of s |}
            | Some p =>
                match next_of s !! p with
                | None => Stopped
                | Some _ =>
                    Done 1 {| queue := q; next_of := <[p := f]> (next_of s) |}
                end
            end
        end
    end
  end.

(** A run of enqueues, one after another, each running alone; it ends
    where a call stops. *)
Fixpoint enqueue_all (fuel : nat) (s : shmem) (reqs : list (option Z * Z))
    : option shmem :=
  match reqs with
  | [] => Some s
  | (e, v) :: rest =>
      match PtlInternalOrderedNEMESISEnqueue fuel [] s e v with
      | Done _ s' => enqueue_all fuel s' rest
      | Stopped => None
      end
  end.

(** A run of enqueues among other producers: each call comes with the
    schedule of what the others do to the tail while it runs. *)
Fixpoint enqueue_run (fuel : nat) (s : shmem)
    (reqs : list (option Z * Z * schedule)) : option shmem :=
  match reqs with
  | [] => Some s
  | (e, v, sched) :: rest =>
      match PtlInternalOrderedNEMESISEnqueue fuel sched s e v with
      | Done _ s' => enqueue_run fuel s' rest
      | Stopped => None
      end
  end.



(** The other producers never lower the tail: from the content [c], each
    content they leave has a sequence value that is not below the one
    before. *)
Fixpoint raises (c : ordered_NEMESIS_ptr) (sched : schedule) : Prop :=
  match sched with
  | [] => True
  | None :: rest => raises c rest
  | Some t :: rest => val c <= val t /\ raises t rest
  end.

(** The same of every call of a run. *)
Fixpoint run_raises (fuel : nat) (s : shmem)
    (reqs : list (option Z * Z * schedule)) : Prop :=
  match reqs with
  | [] => True
  | (e, v, sched) :: rest =>
      raises (tail (queue s)) sched /\
      match PtlInternalOrderedNEMESISEnqueue fuel sched s e v with
      | Done _ s' => run_raises fuel s' rest
      | Stopped => True
      end
  end.


(** The contents of the queue: the entries met from [head] along the [next]
    fields, each with the sequence value it was enqueued with. *)
Fixpoint chain (h : gmap Z ordered_NEMESIS_ptr) (p : ordered_NEMESIS_ptr)
    (l : list (Z * Z)) : Prop :=
  match l with
  | [] => ptr p = None
  | (a, v) :: l' =>
      p = {| ptr := Some a; val := v |} /\
      exists nx, h !! a = Some nx /\ chain h nx l'
  end.

(** [s] holds the entries [l]: they hang off [head], no entry occurs twice,
    and [tail] is the last of them (NULL when there is none). *)
Definition repr (s : shmem) (l : list (Z * Z)) : Prop :=
  chain (next_of s) (head (queue s)) l /\
  NoDup (l.*1) /\
  match last l with
  | None => ptr (tail (queue s)) = None
  | Some (a, v) => tail (queue s) = {| ptr := Some a; val := v |}
  end.

(** Sample data: an empty queue over a segment with three free entries. *)
Definition sample_shmem : shmem :=
  {| queue := PtlInternalOrderedNEMESISInit
                {| head := nil; tail := nil; shadow_head := nil |};
     next_of := <[64 := nil]> (<[128 := nil]> (<[192 := nil]> ∅)) |}.


End Nemesis.

(** ** ptl_recv.c: the receive sub-FSM *)

Module Recv.

Inductive recv_state :=
| STATE_RECV_SEND_COMP
| STATE_RECV_RDMA_COMP
| STATE_RECV_PACKET_RDMA
| STATE_RECV_PACKET
| STATE_RECV_DROP_BUF
| STATE_RECV_REQ
| STATE_RECV_INIT
| STATE_RECV_REPOST
| STATE_RECV_ERROR
| STATE_RECV_DONE.

Inductive tgt_state :=
| STATE_TGT_START | STATE_TGT_DROP | STATE_TGT_GET_MATCH
| STATE_TGT_GET_LENGTH | STATE_TGT_WAIT_CONN | STATE_TGT_DATA
| STATE_TGT_DATA_IN | STATE_TGT_RDMA | STATE_TGT_ATOMIC_DATA_IN
| STATE_TGT_SWAP_DATA_IN | STATE_TGT_DATA_OUT | STATE_TGT_WAIT_RDMA_DESC
| STATE_TGT_SHMEM_DESC | STATE_TGT_SEND_ACK | STATE_TGT_SEND_REPLY
| STATE_TGT_COMM_EVENT | STATE_TGT_WAIT_APPEND | STATE_TGT_OVERFLOW_EVENT
| STATE_TGT_CLEANUP | STATE_TGT_CLEANUP_2 | STATE_TGT_ERROR | STATE_TGT_DONE.

(** Modelled from the spec: the type tags of a buffer ([ptl_buf.h] is not
    among the sources). *)
Inductive buf_type :=
| BUF_FREE | BUF_SEND | BUF_RECV | BUF_RDMA | BUF_TGT | BUF_INIT
| BUF_SHMEM_SEND | BUF_SHMEM_RETURN.

(** Modelled from the spec: the header version, which [ptl_hdr.h] defines
    and which is not among the sources ("version is currently 1"). *)
Definition PTL_HDR_VER_1 : Z := 1.

(** The other constants of that header.  The numbering of the operations is
    left open, but for the requests coming before the responses. *)

Class hdr_values := {
  OP_SWAP : Z;
  OP_REPLY : Z;
  sizeof_req_hdr_t : Z;
  sizeof_ack_hdr_t : Z;
  requests_before_responses : OP_SWAP < OP_REPLY
}.

(** The fields of a buffer that the receive path reads or writes: the common
    header at the start of [data], the length received, and the segment
    pointers (offsets into [data], [None] for NULL). *)
Record buf_t := {
  buf_addr : Z;
  type : buf_type;
  length : Z;
  hdr_version : Z;
  hdr_operation : Z;
  hdr_handle : Z;
  hdr_data_in : Z;
  hdr_data_out : Z;
  hdr_src_nid : Z;
  hdr_src_pid : Z;
  data_in : option Z;
  data_out : option Z;
  tgt_state_of : option tgt_state;
  recv_buf : option Z
}.

(** The counters of the NI that the receive path maintains.  Their C type is
    declared in [ptl_ni.h], which is not among the sources; they are counted
    in [Z]. *)
Record ni_t := {
  num_recv_drops : Z;
  num_recv_errs : Z;
  num_posted_recv : Z
}.

(** Calls out of the receive path, in program order. *)
Inductive event :=
| Ev_process_tgt (buf : buf_t)
| Ev_process_init (init_buf : buf_t)
| Ev_buf_put (buf_addr : Z)
| Ev_remote_disc (nid pid : Z)
| Ev_list_del (buf_addr : Z)
| Ev_post_recv (count : Z).

Record world := {
  ni : ni_t;
  trace : list event
}.

Definition emit (e : event) (w : world) : world :=
  {| ni := ni w; trace := trace w ++ [e] |}.

(** The collaborators that are not among the sources, the transport the
    library is built for, and the two completion handlers for the NI's own
    work requests, which no received packet reaches. *)
Record env := {
  WITH_TRANSPORT_IB : bool;
  to_buf : Z -> option buf_t;
  data_size : option Z -> Z;
  max_srq_wr : Z;
  PTL_SRQ_REPOST_SIZE : Z;
  send_comp : buf_t -> world -> recv_state * buf_t * world;
  rdma_comp : buf_t -> world -> recv_state * buf_t * world
}.

Inductive outcome :=
| Finished (w : world)
| Aborted
| Out_of_fuel.

Section Fsm.
Context {H : hdr_values}.
Variable E : env.

(** [recv_packet_rdma]; the source asserts that the buffer is on the list
    of pending receives. *)
Definition recv_packet_rdma (buf : buf_t) (w : world)
    : recv_state * buf_t * world :=
  let n := ni w in
  let w := {| ni := {| num_recv_drops := num_recv_drops n;
                       num_recv_errs := num_recv_errs n;
                       num_posted_recv := num_posted_recv n - 1 |};
              trace := trace w |} in
  (STATE_RECV_PACKET, buf, emit (Ev_list_del (buf_addr buf)) w).

Definition recv_packet (buf : buf_t) (w : world)
    : recv_state * buf_t * world :=
  if negb (hdr_version buf =? PTL_HDR_VER_1) then (STATE_RECV_DROP_BUF, buf, w)
  else if hdr_operation buf <=? OP_SWAP then
    if length buf <? sizeof_req_hdr_t then (STATE_RECV_DROP_BUF, buf, w)
    else (STATE_RECV_REQ, buf, w)
  else if hdr_operation buf >=? OP_REPLY then (STATE_RECV_INIT, buf, w)
  else
    let w :=
      if WITH_TRANSPORT_IB E
      then emit (Ev_remote_disc (Wire.le32_to_cpu (hdr_src_nid buf))
                                (Wire.le32_to_cpu (hdr_src_pid buf))) w
      else w in
    (STATE_RECV_DROP_BUF, buf, w).

Definition recv_req (buf : buf_t) (w : world)
    : recv_state * buf_t * world :=
  let d_out :=
    if negb (hdr_data_in buf =? 0) then Some sizeof_req_hdr_t else None in
  let d_in :=
    if negb (hdr_data_out buf =? 0)
    then Some (sizeof_req_hdr_t + data_size E d_out) else None in
  let buf :=
    {| buf_addr := buf_addr buf; type := BUF_TGT; length := length buf;
       hdr_version := hdr_version buf; hdr_operation := hdr_operation buf;
       hdr_handle := hdr_handle buf; hdr_data_in := hdr_data_in buf;
       hdr_data_out := hdr_data_out buf; hdr_src_nid := hdr_src_nid buf;
       hdr_src_pid := hdr_src_pid buf;
       data_in := d_in; data_out := d_out;
       tgt_state_of := Some STATE_TGT_START; recv_buf := recv_buf buf |} in
  (STATE_RECV_REPOST, buf, emit (Ev_process_tgt buf) w).

Definition recv_init (buf : buf_t) (w : world)
    : recv_state * buf_t * world :=
  match to_buf E (Wire.le32_to_cpu (hdr_handle buf)) with
  | None => (STATE_RECV_DROP_BUF, buf, w)
  | Some init_buf =>
    let d_out :=
      if negb (hdr_data_in buf =? 0) then Some sizeof_ack_hdr_t else None in
    let d_in :=
      if negb (hdr_data_out buf =? 0)
      then Some (sizeof_ack_hdr_t + data_size E d_out) else None in
    let init_buf :=
      {| buf_addr := buf_addr init_buf; type := type init_buf;
         length := length init_buf;
         hdr_version := hdr_version init_buf;
         hdr_operation := hdr_operation init_buf;
         hdr_handle := hdr_handle init_buf;
         hdr_data_in := hdr_data_in init_buf;
         hdr_data_out := hdr_data_out init_buf;
         hdr_src_nid := hdr_src_nid init_buf;
         hdr_src_pid := hdr_src_pid init_buf;
         data_in := d_in; data_out := d_out;
         tgt_state_of := tgt_state_of init_buf;
         recv_buf := Some (buf_addr buf) |} in
    (STATE_RECV_REPOST, buf,
     emit (Ev_buf_put (buf_addr init_buf))
       (emit (Ev_process_init init_buf) w))
  end.

Definition recv_repost (w : world) : recv_state * world :=
  let num_bufs := max_srq_wr E - num_posted_recv (ni w) in
  if num_bufs >? PTL_SRQ_REPOST_SIZE E
  then (STATE_RECV_DONE, emit (Ev_post_recv (PTL_SRQ_REPOST_SIZE E)) w)
  else (STATE_RECV_DONE, w).

Definition recv_drop_buf (buf : buf_t) (w : world)
    : recv_state * buf_t * world :=
  let w := emit (Ev_buf_put (buf_addr buf)) w in
  let n := ni w in
  (STATE_RECV_REPOST, buf,
   {| ni := {| num_recv_drops := num_recv_drops n + 1;
               num_recv_errs := num_recv_errs n;
               num_posted_recv := num_posted_recv n |};
      trace := trace w |}).

(** [case STATE_RECV_ERROR] of both drivers, for a buffer that is not
    NULL. *)
Definition recv_error (buf : buf_t) (w : world) : world :=
  let w := emit (Ev_buf_put (buf_addr buf)) w in
  let n := ni w in
  {| ni := {| num_recv_drops := num_recv_drops n;
              num_recv_errs := num_recv_errs n + 1;
              num_posted_recv := num_posted_recv n |};
     trace := trace w |}.

(** [process_recv_rdma]: the [while (1) switch (state)] loop, one turn per
    unit of fuel. *)
Fixpoint recv_rdma_loop (fuel : nat) (state : recv_state) (buf : buf_t)
    (w : world) : outcome :=
  match fuel with
  | O => Out_of_fuel
  | S fuel =>
    match state with
    | STATE_RECV_SEND_COMP =>
        let '(st, buf, w) := send_comp E buf w in recv_rdma_loop fuel st buf w
    | STATE_RECV_RDMA_COMP =>
        let '(st, buf, w) := rdma_comp E buf w in recv_rdma_loop fuel st buf w
    | STATE_RECV_PACKET_RDMA =>
        let '(st, buf, w) := recv_packet_rdma buf w in
        recv_rdma_loop fuel st buf w
    | STATE_RECV_PACKET =>
        let '(st, buf, w) := recv_packet buf w in recv_rdma_loop fuel st buf w
    | STATE_RECV_REQ =>
        let '(st, buf, w) := recv_req buf w in recv_rdma_loop fuel st buf w
    | STATE_RECV_INIT =>
        let '(st, buf, w) := recv_init buf w in recv_rdma_loop fuel st buf w
    | STATE_RECV_REPOST =>
        let '(st, w) := recv_repost w in recv_rdma_loop fuel st buf w
    | STATE_RECV_DROP_BUF =>
        let '(st, buf, w) := recv_drop_buf buf w in
        recv_rdma_loop fuel st buf w
    | STATE_RECV_ERROR => Finished (recv_error buf w)
    | STATE_RECV_DONE => Finished w
    end
  end.

Definition process_recv_rdma (fuel : nat) (recv_state_of_buf : recv_state)
    (buf : buf_t) (w : world) : outcome :=
  recv_rdma_loop fuel recv_state_of_buf buf w.

(** [process_recv_mem]: the same loop for a packet from shared memory. *)
Fixpoint recv_mem_loop (fuel : nat) (state : recv_state) (buf : buf_t)
    (w : world) : outcome :=
  match fuel with
  | O => Out_of_fuel
  | S fuel =>
    match state with
    | STATE_RECV_PACKET =>
        let '(st, buf, w) := recv_packet buf w in recv_mem_loop fuel st buf w
    | STATE_RECV_REQ =>
        let '(st, buf, w) := recv_req buf w in recv_mem_loop fuel st buf w
    | STATE_RECV_INIT =>
        let '(st, buf, w) := recv_init buf w in recv_mem_loop fuel st buf w
    | STATE_RECV_DROP_BUF =>
        let '(st, buf, w) := recv_drop_buf buf w in
        recv_mem_loop fuel st buf w
    | STATE_RECV_ERROR => Finished (recv_error buf w)
    | STATE_RECV_REPOST | STATE_RECV_DONE => Finished w
    | STATE_RECV_PACKET_RDMA | STATE_RECV_SEND_COMP | STATE_RECV_RDMA_COMP =>
        Aborted
    end
  end.

Definition process_recv_mem (fuel : nat) (buf : buf_t) (w : world)
    : outcome :=
  recv_mem_loop fuel STATE_RECV_PACKET buf w.

(** The world once [recv_packet_rdma] has taken the buffer off the list of
    posted receives, and the world once [recv_repost] has run. *)
Definition rdma_entry (buf : buf_t) (w : world) : world :=
  (recv_packet_rdma buf w).2.

Definition after_repost (w : world) : world := (recv_repost w).2.

End Fsm.

(** What [recv_drop_buf] leaves behind: the buffer released, one more drop
    counted. *)
Definition dropped (buf : buf_t) (w : world) : world :=
  {| ni := {| num_recv_drops := num_recv_drops (ni w) + 1;
              num_recv_errs := num_recv_errs (ni w);
              num_posted_recv := num_posted_recv (ni w) |};
     trace := trace w ++ [Ev_buf_put (buf_addr buf)] |}.

(** Calls into the target or the initiator state machine. *)
Definition is_sm_call (e : event) : bool :=
  match e with
  | Ev_process_tgt _ | Ev_process_init _ => true
  | _ => false
  end.

(** The state machines that a run of the receive path has invoked. *)
Definition invokes_tgt (tr : list event) : Prop :=
  exists b, Ev_process_tgt b ∈ tr.
Definition invokes_init (tr : list event) : Prop :=
  exists b, Ev_process_init b ∈ tr.

(** Sample data. *)
Definition sample_hdr_values : hdr_values :=
  {| OP_SWAP := 5; OP_REPLY := 7; sizeof_req_hdr_t := 80;
     sizeof_ack_hdr_t := 16; requests_before_responses := eq_refl |}.

Definition sample_buf (version operation len : Z) : buf_t :=
  {| buf_addr := 8192; type := BUF_RECV; length := len;
     hdr_version := version; hdr_operation := operation; hdr_handle := 42;
     hdr_data_in := 0; hdr_data_out := 0; hdr_src_nid := 167772161;
     hdr_src_pid := 4660; data_in := None; data_out := None;
     tgt_state_of := None; recv_buf := None |}.

Definition sample_world : world :=
  {| ni := {| num_recv_drops := 0; num_recv_errs := 0;
              num_posted_recv := 10 |};
     trace := [] |}.

(** An environment in which only handle 42 names a live buffer. *)
Definition sample_env : env :=
  {| WITH_TRANSPORT_IB := true;
     to_buf := fun h => if h =? 42 then Some (sample_buf 1 1 80) else None;
     data_size := fun _ => 0;
     max_srq_wr := 64;
     PTL_SRQ_REPOST_SIZE := 16;
     send_comp := fun b w => (STATE_RECV_DONE, b, w);
     rdma_comp := fun b w => (STATE_RECV_DONE, b, w) |}.

End Recv.

(** ** ppe/ni.c: NI set-up and tear-down in the PPE *)

Module Ppe.

(** Constants of [portals4.h], which is not among the sources, and of
    [<limits.h>]. *)
Class pid_values := {
  PTL_PID_ANY : Z;
  PTL_PID_MAX : Z
}.

Definition INT_MAX : Z := 2147483647.

(** The fields of [ptl_ni_limits_t] that [ni.c] touches. *)
Record ptl_ni_limits_t := {
  max_iovecs : Z;
  max_msg_size : Z;
  max_atomic_size : Z;
  max_waw_ordered_size : Z;
  max_war_ordered_size : Z;
  max_volatile_size : Z;
  features : Z;
  max_mds : Z;
  max_list_size : Z;
  max_pt_index : Z;
  max_eqs : Z;
  max_cts : Z
}.

(** An XPMEM attachment: [data] is where the client's memory is mapped. *)
Record ppe_xpmem_ptr_t := {
  data : Z
}.

(** [ptl_ppe_ni_t]; every pointer is [None] when NULL. *)
Record ptl_ppe_ni_t := {
  limits_ptr : option ppe_xpmem_ptr_t;
  client_ptr : option ppe_xpmem_ptr_t;
  limits : option Z;
  client_status_registers : option Z;
  client_le : option Z;
  client_md : option Z;
  client_me : option Z;
  client_ct : option Z;
  client_eq : option Z;
  client_pt : option Z;
  client_triggered : option Z;
  ppe_md : option Z;
  ppe_me : option Z;
  ppe_le : option Z;
  ppe_pt : option Z;
  ppe_eq : option Z;
  ppe_ct : option Z;
  nal_ni : option Z;
  pid : Z
}.

(** What [memset(ni, 0, sizeof(ptl_ppe_ni_t))] leaves. *)
Definition ni_zero : ptl_ppe_ni_t :=
  {| limits_ptr := None; client_ptr := None; limits := None;
     client_status_registers := None; client_le := None; client_md := None;
     client_me := None; client_ct := None; client_eq := None;
     client_pt := None; client_triggered := None;
     ppe_md := None; ppe_me := None; ppe_le := None; ppe_pt := None;
     ppe_eq := None; ppe_ct := None; nal_ni := None; pid := 0 |}.

Record ptl_ppe_client_t := {
  client_pid : Z;
  nis : list ptl_ppe_ni_t
}.

Record ptl_ppe_t := {
  clients : list ptl_ppe_client_t;
  pids : list Z;
  page_size : Z;
  nid : Z;
  ctx_ni : Z
}.

Record ptl_cqe_niinit_t := {
  remote_id : Z;
  ni_handle_ni : Z;
  cmd_pid : Z;
  cmd_limits : Z;
  shared_data : Z;
  shared_data_length : Z;
  phys_addr : Z;
  status_reg : Z;
  les : Z;
  mds : Z;
  mes : Z;
  cts : Z;
  eqs : Z;
  pts : Z;
  triggered : Z;
  retval_ptr : Z
}.

Record ptl_cqe_nifini_t := {
  fini_remote_id : Z;
  fini_ni_handle_ni : Z;
  fini_retval_ptr : Z
}.

Inductive cqe_type := PTLACK.

(** The acknowledgement entry, as [ni.c] fills it. *)
Record ptl_cqe_t := {
  base_type : cqe_type;
  ack_retval_ptr : Z;
  ack_retval : ptl_ret
}.

(** Calls out of [ni.c] and writes to memory that is not the context, in
    program order. *)
Inductive event :=
| Ev_xpmem_detach (p : ppe_xpmem_ptr_t)
| Ev_phys_proc (addr nid pid : Z)
| Ev_pt_status (base i : Z)
| Ev_list_init (base : option Z) (i : Z)
| Ev_list_fini (base : option Z) (i : Z)
| Ev_free (p : option Z)
| Ev_perror
| Ev_cq_entry_send (peer : Z) (entry : ptl_cqe_t).

(** The context of the PPE, the limits structures mapped in from clients (by
    address), and the events so far. *)
Record world := {
  ctx : ptl_ppe_t;
  limits_mem : gmap Z ptl_ni_limits_t;
  trace : list event
}.

(** The collaborators that are not among the sources.  [malloc] is told
    which allocation of the call it serves; the two queue functions are
    given by their return codes; [read_null] is what reading an [int]
    through a NULL structure pointer yields, [None] when the access
    traps. *)
Record env := {
  ppe_xpmem_attach : Z -> Z -> option ppe_xpmem_ptr_t;
  sizeof_ptl_ni_limits_t : Z;
  malloc : nat -> Z -> option Z;
  sizeof_ppe_md : Z;
  sizeof_ppe_me : Z;
  sizeof_ppe_le : Z;
  sizeof_ppe_pt : Z;
  sizeof_ppe_eq : Z;
  sizeof_ppe_ct : Z;
  ptl_cq_entry_alloc : Z;
  ptl_cq_entry_send : Z;
  read_null : option Z
}.

(** Computations over the world: a run ends with a value, or stops at an
    access with no defined meaning (a NULL or unmapped pointer, an index
    outside an array), in the world it had reached. *)
Inductive result (A : Type) :=
| Ok (a : A) (w : world)
| Fault (w : world).
Arguments Ok {A} a w.
Arguments Fault {A} w.

Definition M (A : Type) : Type := world -> result A.

#[export] Instance M_ret : MRet M := fun A a w => Ok a w.
#[export] Instance M_bind : MBind M := fun A B f m w =>
  match m w with
  | Ok a w' => f a w'
  | Fault w' => Fault w'
  end.

Definition fault {A} : M A := fun w => Fault w.

Definition emit (e : event) : M unit := fun w =>
  Ok tt {| ctx := ctx w; limits_mem := limits_mem w;
           trace := trace w ++ [e] |}.

Definition get_ctx : M ptl_ppe_t := fun w => Ok (ctx w) w.

Definition put_ctx (c : ptl_ppe_t) : M unit := fun w =>
  Ok tt {| ctx := c; limits_mem := limits_mem w; trace := trace w |}.

Definition of_option {A} (o : option A) : M A :=
  match o with Some a => mret a | None => fault end.

(** [ctx->clients[peer]] and [client->nis[i]]. *)
Definition get_client (peer : Z) : M ptl_ppe_client_t :=
  c ← get_ctx; of_option (index (clients c) peer).

Definition put_client (peer : Z) (cl : ptl_ppe_client_t) : M unit :=
  c ← get_ctx;
  put_ctx {| clients := <[Z.to_nat peer := cl]> (clients c);
             pids := pids c; page_size := page_size c; nid := nid c;
             ctx_ni := ctx_ni c |}.

Definition get_ni (peer i : Z) : M ptl_ppe_ni_t :=
  cl ← get_client peer; of_option (index (nis cl) i).

Definition put_ni (peer i : Z) (n : ptl_ppe_ni_t) : M unit :=
  cl ← get_client peer;
  put_client peer {| client_pid := client_pid cl;
                     nis := <[Z.to_nat i := n]> (nis cl) |}.

Definition set_client_pid (peer p : Z) : M unit :=
  cl ← get_client peer;
  put_client peer {| client_pid := p; nis := nis cl |}.

(** [ctx->pids[i]], read and written. *)
Definition read_pid (i : Z) : M Z :=
  c ← get_ctx; of_option (index (pids c) i).

Definition write_pid (i v : Z) : M unit :=
  _ ← read_pid i;
  c ← get_ctx;
  put_ctx {| clients := clients c; pids := <[Z.to_nat i := v]> (pids c);
             page_size := page_size c; nid := nid c; ctx_ni := ctx_ni c |}.

Definition set_limits_ptr (n : ptl_ppe_ni_t) (p : option ppe_xpmem_ptr_t) :=
  {| limits_ptr := p; client_ptr := client_ptr n; limits := limits n;
     client_status_registers := client_status_registers n;
     client_le := client_le n; client_md := client_md n;
     client_me := client_me n; client_ct := client_ct n;
     client_eq := client_eq n; client_pt := client_pt n;
     client_triggered := client_triggered n;
     ppe_md := ppe_md n; ppe_me := ppe_me n; ppe_le := ppe_le n;
     ppe_pt := ppe_pt n; ppe_eq := ppe_eq n; ppe_ct := ppe_ct n;
     nal_ni := nal_ni n; pid := pid n |}.

Definition set_client_ptr (n : ptl_ppe_ni_t) (p : option ppe_xpmem_ptr_t) :=
  {| limits_ptr := limits_ptr n; client_ptr := p; limits := limits n;
     client_status_registers := client_status_registers n;
     client_le := client_le n; client_md := client_md n;
     client_me := client_me n; client_ct := client_ct n;
     client_eq := client_eq n; client_pt := client_pt n;
     client_triggered := client_triggered n;
     ppe_md := ppe_md n; ppe_me := ppe_me n; ppe_le := ppe_le n;
     ppe_pt := ppe_pt n; ppe_eq := ppe_eq n; ppe_ct := ppe_ct n;
     nal_ni := nal_ni n; pid := pid n |}.

Definition set_limits (n : ptl_ppe_ni_t) (l : option Z) :=
  {| limits_ptr := limits_ptr n; client_ptr := client_ptr n; limits := l;
     client_status_registers := client_status_registers n;
     client_le := client_le n; client_md := client_md n;
     client_me := client_me n; client_ct := client_ct n;
     client_eq := client_eq n; client_pt := client_pt n;
     client_triggered := client_triggered n;
     ppe_md := ppe_md n; ppe_me := ppe_me n; ppe_le := ppe_le n;
     ppe_pt := ppe_pt n; ppe_eq := ppe_eq n; ppe_ct := ppe_ct n;
     nal_ni := nal_ni n; pid := pid n |}.

(** [ppe_xpmem_detach]: the call, after which the mapping is gone. *)
Definition ppe_xpmem_detach (p : ppe_xpmem_ptr_t) : M unit := fun w =>
  Ok tt {| ctx := ctx w; limits_mem := delete (data p) (limits_mem w);
           trace := trace w ++ [Ev_xpmem_detach p] |}.

(** A run of [body] for [i = 0 .. n - 1]. *)
Fixpoint for_loop (n : nat) (i : Z) (body : Z -> M unit) : M unit :=
  match n with
  | O => mret tt
  | S n' => body i;; for_loop n' (i + 1) body
  end.

Section Impl.
Context {P : pid_values}.
Variable E : env.

(** The [for] loop over [ctx->pids] that looks for a free pid: at the first
    free slot the client takes the pid and the loop breaks. *)
Fixpoint pid_loop (n : nat) (i peer : Z) : M unit :=
  match n with
  | O => mret tt
  | S n' =>
      p ← read_pid i;
      if p =? -1 then set_client_pid peer i;; write_pid i peer
      else pid_loop n' (i + 1) peer
  end.

(** "reserve pid": [Some ret] is a [goto cleanup] with that value of
    [ret]. *)
Definition reserve_pid (cmd : ptl_cqe_niinit_t) (peer : Z)
    : M (option ptl_ret) :=
  client ← get_client peer;
  if PTL_PID_ANY =? cmd_pid cmd then
    if -1 =? client_pid client then
      pid_loop (Z.to_nat PTL_PID_MAX) 0 peer;;
      client ← get_client peer;
      if -1 =? client_pid client then mret (Some PTL_NO_SPACE)
      else mret None
    else mret None
  else
    if -1 =? client_pid client then
      p ← read_pid (cmd_pid cmd);
      if -1 =? p then
        set_client_pid peer (cmd_pid cmd);;
        write_pid (cmd_pid cmd) peer;;
        mret None
      else mret (Some PTL_PID_IN_USE)
    else if negb (cmd_pid cmd =? client_pid client)
    then mret (Some PTL_ARG_INVALID)
    else mret None.

(** The stores into [*ni->limits]. *)
Definition process_limits (a : Z) : M unit := fun w =>
  match limits_mem w !! a with
  | None => Fault w
  | Some l =>
      let l' :=
        {| max_iovecs := 1; max_msg_size := INT_MAX;
           max_atomic_size := page_size (ctx w);
           max_waw_ordered_size := page_size (ctx w);
           max_war_ordered_size := page_size (ctx w);
           max_volatile_size := 0; features := 0;
           max_mds := max_mds l; max_list_size := max_list_size l;
           max_pt_index := max_pt_index l; max_eqs := max_eqs l;
           max_cts := max_cts l |} in
      Ok tt {| ctx := ctx w; limits_mem := <[a := l']> (limits_mem w);
               trace := trace w |}
  end.

Definition read_limits (a : Z) : M ptl_ni_limits_t := fun w =>
  match limits_mem w !! a with
  | None => Fault w
  | Some l => Ok l w
  end.

(** [ni->ppe_pt[i].status = 0] through a pointer that may be NULL. *)
Definition clear_pt_status (base : option Z) (i : Z) : M unit :=
  match base with
  | None => fault
  | Some b => emit (Ev_pt_status b i)
  end.

(** The body of [ni_init_impl] down to its two labels: [Some ret] when it
    leaves by [goto cleanup] with that value in [ret], [None] when it reaches
    [goto send_retval]. *)
Definition ni_init_body (cmd : ptl_cqe_niinit_t) : M (option ptl_ret) :=
  let peer := remote_id cmd in
  let i := ni_handle_ni cmd in
  r ← reserve_pid cmd peer;
  match r with
  | Some ret => mret (Some ret)
  | None =>
    n ← get_ni peer i;
    let lp := ppe_xpmem_attach E (cmd_limits cmd) (sizeof_ptl_ni_limits_t E) in
    let n := set_limits_ptr n lp in
    put_ni peer i n;;
    match lp with
    | None => mret (Some PTL_FAIL)
    | Some xl =>
      let n := set_limits n (Some (data xl)) in
      put_ni peer i n;;
      process_limits (data xl);;
      let cp := ppe_xpmem_attach E (shared_data cmd) (shared_data_length cmd) in
      let n := set_client_ptr n cp in
      put_ni peer i n;;
      match cp with
      | None => mret (Some PTL_FAIL)
      | Some xc =>
        client ← get_client peer;
        c ← get_ctx;
        emit (Ev_phys_proc (data xc + phys_addr cmd) (nid c)
                (client_pid client));;
        l ← read_limits (data xl);
        let n :=
          {| limits_ptr := limits_ptr n; client_ptr := client_ptr n;
             limits := limits n;
             client_status_registers := Some (data xc + status_reg cmd);
             client_le := Some (data xc + les cmd);
             client_md := Some (data xc + mds cmd);
             client_me := Some (data xc + mes cmd);
             client_ct := Some (data xc + cts cmd);
             client_eq := Some (data xc + eqs cmd);
             client_pt := Some (data xc + pts cmd);
             client_triggered := Some (data xc + triggered cmd);
             ppe_md := malloc E 0 (sizeof_ppe_md E * max_mds l);
             ppe_me := malloc E 1 (sizeof_ppe_me E * max_list_size l);
             ppe_le := malloc E 2 (sizeof_ppe_le E * max_list_size l);
             ppe_pt := malloc E 3 (sizeof_ppe_pt E * max_pt_index l);
             ppe_eq := malloc E 4 (sizeof_ppe_eq E * max_eqs l);
             ppe_ct := malloc E 5 (sizeof_ppe_ct E * max_cts l);
             nal_ni := nal_ni n; pid := pid n |} in
        put_ni peer i n;;
        for_loop (Z.to_nat (max_pt_index l)) 0 (clear_pt_status (ppe_pt n));;
        for_loop (Z.to_nat (max_cts l)) 0
          (fun k => emit (Ev_list_init (ppe_ct n) k));;
        put_ni peer i
          {| limits_ptr := limits_ptr n; client_ptr := client_ptr n;
             limits := limits n;
             client_status_registers := client_status_registers n;
             client_le := client_le n; client_md := client_md n;
             client_me := client_me n; client_ct := client_ct n;
             client_eq := client_eq n; client_pt := client_pt n;
             client_triggered := client_triggered n;
             ppe_md := ppe_md n; ppe_me := ppe_me n; ppe_le := ppe_le n;
             ppe_pt := ppe_pt n; ppe_eq := ppe_eq n; ppe_ct := ppe_ct n;
             nal_ni := Some (ctx_ni c); pid := client_pid client |};;
        mret None
      end
    end
  end.

(** The [cleanup:] label. *)
Definition cleanup (peer i : Z) : M unit :=
  n ← get_ni peer i;
  match limits_ptr n with
  | Some xl =>
      ppe_xpmem_detach xl;; put_ni peer i (set_limits_ptr n None)
  | None => mret tt
  end;;
  n ← get_ni peer i;
  match client_ptr n with
  | Some xc =>
      ppe_xpmem_detach xc;; put_ni peer i (set_client_ptr n None)
  | None => mret tt
  end.

(** The [send_retval:] label; the result is the value the function
    returns. *)
Definition send_retval (peer retval_ptr : Z) : M Z :=
  if ptl_cq_entry_alloc E <? 0 then emit Ev_perror;; mret (-1)
  else
    let send_entry :=
      {| base_type := PTLACK; ack_retval_ptr := retval_ptr;
         ack_retval := PTL_OK |} in
    emit (Ev_cq_entry_send peer send_entry);;
    if ptl_cq_entry_send E <? 0 then emit Ev_perror;; mret (-1)
    else mret 0.

Definition ni_init_impl (cmd : ptl_cqe_niinit_t) : M Z :=
  let peer := remote_id cmd in
  r ← ni_init_body cmd;
  match r with
  | Some _ => cleanup peer (ni_handle_ni cmd)
  | None => mret tt
  end;;
  send_retval peer (retval_ptr cmd).

(** [ni->limits->max_cts], read through whatever [ni->limits] holds now. *)
Definition read_max_cts (peer i : Z) : M Z :=
  n ← get_ni peer i;
  match limits n with
  | None => of_option (read_null E)
  | Some a => l ← read_limits a; mret (max_cts l)
  end.

(** The loop over the triggered-operation lists.  Nothing in it changes the
    NI or its limits, so the bound it re-reads at every turn is the one it
    read first. *)
Definition fini_triggered_lists (peer i : Z) : M unit :=
  bound ← read_max_cts peer i;
  for_loop (Z.to_nat bound) 0
    (fun k => n ← get_ni peer i; emit (Ev_list_fini (ppe_ct n) k)).

Definition ni_fini_impl (cmd : ptl_cqe_nifini_t) : M Z :=
  let peer := fini_remote_id cmd in
  let i := fini_ni_handle_ni cmd in
  if ptl_cq_entry_alloc E <? 0 then emit Ev_perror;; mret (-1)
  else
    n ← get_ni peer i;
    match limits_ptr n with
    | Some xl => ppe_xpmem_detach xl
    | None => mret tt
    end;;
    match client_ptr n with
    | Some xc => ppe_xpmem_detach xc
    | None => mret tt
    end;;
    put_ni peer i ni_zero;;
    fini_triggered_lists peer i;;
    n ← get_ni peer i;
    emit (Ev_free (ppe_md n));;
    emit (Ev_free (ppe_me n));;
    emit (Ev_free (ppe_le n));;
    emit (Ev_free (ppe_pt n));;
    emit (Ev_free (ppe_eq n));;
    emit (Ev_free (ppe_ct n));;
    let send_entry :=
      {| base_type := PTLACK; ack_retval_ptr := fini_retval_ptr cmd;
         ack_retval := PTL_OK |} in
    emit (Ev_cq_entry_send peer send_entry);;
    if ptl_cq_entry_send E <? 0 then emit Ev_perror;; mret (-1)
    else mret 0.

End Impl.

(** The indices [i, i + 1, ..] of [n] turns of a loop. *)
Fixpoint upto (n : nat) (i : Z) : list Z :=
  match n with
  | O => []
  | S n' => i :: upto n' (i + 1)
  end.

(** The detachments with which [ni_fini_impl] starts. *)
Definition detach_events (n : ptl_ppe_ni_t) : list event :=
  match limits_ptr n with Some xl => [Ev_xpmem_detach xl] | None => [] end ++
  match client_ptr n with Some xc => [Ev_xpmem_detach xc] | None => [] end.

(** The acknowledgement that both functions send. *)
Definition ack_ok (retval_ptr : Z) : ptl_cqe_t :=
  {| base_type := PTLACK; ack_retval_ptr := retval_ptr;
     ack_retval := PTL_OK |}.

(** Sample data: one client with one NI that is set up, its limits mapped
    at address 1000; a PPE where reading through NULL yields 2, and one
    where it traps. *)
Definition sample_limits : ptl_ni_limits_t :=
  {| max_iovecs := 1; max_msg_size := INT_MAX; max_atomic_size := 4096;
     max_waw_ordered_size := 4096; max_war_ordered_size := 4096;
     max_volatile_size := 0; features := 0; max_mds := 8;
     max_list_size := 8; max_pt_index := 4; max_eqs := 4; max_cts := 3 |}.

Definition sample_ni : ptl_ppe_ni_t :=
  {| limits_ptr := Some {| data := 1000 |};
     client_ptr := Some {| data := 2000 |};
     limits := Some 1000;
     client_status_registers := Some 2010; client_le := Some 2020;
     client_md := Some 2030; client_me := Some 2040; client_ct := Some 2050;
     client_eq := Some 2060; client_pt := Some 2070;
     client_triggered := Some 2080;
     ppe_md := Some 5000; ppe_me := Some 5100; ppe_le := Some 5200;
     ppe_pt := Some 5300; ppe_eq := Some 5400; ppe_ct := Some 5500;
     nal_ni := Some 77; pid := 1 |}.

Definition sample_world : world :=
  {| ctx := {| clients := [ {| client_pid := 1; nis := [sample_ni] |} ];
               pids := [7; 0]; page_size := 4096; nid := 9; ctx_ni := 77 |};
     limits_mem := {[ 1000 := sample_limits ]};
     trace := [] |}.

Definition sample_env (null : option Z) : env :=
  {| ppe_xpmem_attach := fun a _ => Some {| data := a |};
     sizeof_ptl_ni_limits_t := 96;
     malloc := fun k _ => Some (5000 + 100 * Z.of_nat k);
     sizeof_ppe_md := 16; sizeof_ppe_me := 16; sizeof_ppe_le := 16;
     sizeof_ppe_pt := 16; sizeof_ppe_eq := 16; sizeof_ppe_ct := 16;
     ptl_cq_entry_alloc := 0; ptl_cq_entry_send := 0;
     read_null := null |}.

Definition sample_pid_values : pid_values :=
  {| PTL_PID_ANY := 65535; PTL_PID_MAX := 2 |}.


Definition sample_init (p : Z) : ptl_cqe_niinit_t :=
  {| remote_id := 0; ni_handle_ni := 0; cmd_pid := p; cmd_limits := 1000;
     shared_data := 2000; shared_data_length := 4096; phys_addr := 0;
     status_reg := 10; les := 20; mds := 30; mes := 40; cts := 50;
     eqs := 60; pts := 70; triggered := 80; retval_ptr := 640 |}.


Definition sample_fini : ptl_cqe_nifini_t :=
  {| fini_remote_id := 0; fini_ni_handle_ni := 0; fini_retval_ptr := 640 |}.

(** The acknowledgements among a list of events. *)
Definition acks (tr : list event) : list ptl_cqe_t :=
  omap (fun e => match e with
                 | Ev_cq_entry_send _ entry => Some entry
                 | _ => None
                 end) tr.


(** A computation that sends no acknowledgement, whether it ends or
    stops. *)
Definition quiet {A} (m : M A) : Prop :=
  forall w,
    exists tr,
      acks tr = [] /\
      match m w with
      | Ok _ w' | Fault w' => trace w' = trace w ++ tr
      end.





(** The pointers that a list of events finalises or frees. *)
Definition released (tr : list event) : list (option Z) :=
  omap (fun e => match e with
                 | Ev_list_fini base _ => Some base
                 | Ev_free p => Some p
                 | _ => None
                 end) tr.

End Ppe.

(** ** ptl_internal_orderednemesis.h: the consumer side *)

Module Consumer.
Import Nemesis.

(** A dequeue returns an entry (NULL when it takes none) and leaves a
    segment behind, or it halts: on an access through a pointer that is not
    an entry of the segment, or in a wait that never ends. *)
Inductive taken :=
| Taken (e : option Z) (s : shmem)
| Halted.

(** [retval.ptr->next.ptr = NULL]: only the pointer half is cleared. *)
Definition clear_next_ptr (h : gmap Z ordered_NEMESIS_ptr) (a : Z)
    (nx : ordered_NEMESIS_ptr) : gmap Z ordered_NEMESIS_ptr :=
  <[a := {| ptr := None; val := val nx |}]> h.

(** [while (retval.ptr->next.ptr == NULL) ;] for a call that runs alone:
    one look at the field per unit of fuel. *)
Fixpoint wait_next (fuel : nat) (s : shmem) (a : Z)
    : option ordered_NEMESIS_ptr :=
  match next_of s !! a with
  | None => None
  | Some nx =>
      match ptr nx with
      | Some _ => Some nx
      | None =>
          match fuel with
          | O => None
          | S fuel' => wait_next fuel' s a
          end
      end
  end.

Definition PtlInternalOrderedNEMESISDequeue (fuel : nat) (s : shmem)
    (upper_bound : Z) : taken :=
  let q := queue s in
  let retval := head q in
  match ptr retval with
  | None => Taken None s
  | Some a =>
    if val retval >? upper_bound then Taken None s
    else
      match next_of s !! a with
      | None => Halted
      | Some nx =>
        match ptr nx with
        | Some _ =>
            Taken (Some a)
              {| queue := set_head q nx;
                 next_of := clear_next_ptr (next_of s) a nx |}
        | None =>
            let q := set_head q {| ptr := None; val := val (head q) |} in
            let '(tail', old) := PtlInternalAtomicCas128 (tail q) retval nil in
            let q := set_tail q tail' in
            if negb (same old retval) then
              match wait_next fuel s a with
              | None => Halted
              | Some nx' =>
                  Taken (Some a)
                    {| queue := set_head q nx';
                       next_of := clear_next_ptr (next_of s) a nx' |}
              end
            else Taken (Some a) {| queue := q; next_of := next_of s |}
        end
      end
  end.

(** [n] dequeues in a row with the same bound: the entries taken, in the
    order in which they were taken, and the segment left.  [None] when a call
    halts or takes nothing. *)
Fixpoint drain (fuel : nat) (n : nat) (s : shmem) (upper_bound : Z)
    : option (list Z * shmem) :=
  match n with
  | O => Some ([], s)
  | S n' =>
      match PtlInternalOrderedNEMESISDequeue fuel s upper_bound with
      | Taken (Some a) s' =>
          '(l, s'') ← drain fuel n' s' upper_bound; Some (a :: l, s'')
      | _ => None
      end
  end.

(** Sample data: the queue that holds the entries at 64 and 128, enqueued
    with the values 5 and 7, over a segment with one more free entry. *)
Definition sample_pair : shmem :=
  {| queue := {| head := {| ptr := Some 64; val := 5 |};
                 tail := {| ptr := Some 128; val := 7 |};
                 shadow_head := nil |};
     next_of := <[64 := {| ptr := Some 128; val := 7 |}]>
                  (<[128 := nil]> (<[192 := nil]> ∅)) |}.

End Consumer.

(** ** ptl_loc.h: identifiers *)

Module Ident.
Import Wire.

(** [ntohs] and [ntohl] come from the C library like [htons] and [htonl];
    on the little-endian host they are the same byte swaps. *)
Definition ntohs (x : Z) : Z := htons x.
Definition ntohl (x : Z) : Z := htonl x.

Section Ids.
Context {P : Ppe.pid_values}.

(** A NID is an IPv4 address in host order. *)
Definition nid_to_addr (nid : Z) : Z := htonl nid.

(** [sin->sin_addr.s_addr], given by its value. *)
Definition addr_to_nid (s_addr : Z) : Z := ntohl s_addr.

(** A PID is a port in host order. *)
Definition pid_to_port (pid : Z) : Z :=
  if pid =? Ppe.PTL_PID_ANY then 0 else htons pid.

Definition port_to_pid (port : Z) : Z := ntohs port.

End Ids.

End Ident.

(** ** ptl_move.c: the other immediate operations *)

Module Submit.
Import Move.

Section Ops.
Context {ack : ack_req_values}.
Variable E : env.

Definition PtlGet (md_handle local_offset length target_id pt_index
    match_bits remote_offset user_ptr : Z) : outcome :=
  if is_err (get_gbl E) then Returns (get_gbl E) []
  else
    let '(err, md) := md_get E md_handle in
    if is_err err then Returns err [Ev_gbl_put]
    else
      let ni := to_ni md in
      match (if PTL_CHECK_BUILD E
             then check_get md local_offset length ni
             else Some PTL_OK) with
      | None => Undefined
      | Some err =>
        if is_err err then Returns err [Ev_md_put md; Ev_gbl_put]
        else
          match ni with
          | None => Undefined
          | Some n =>
            let '(err, xi) := xi_alloc E n in
            if is_err err then Returns err [Ev_md_put md; Ev_gbl_put]
            else
              let xi :=
                {| xi_operation := Some OP_GET;
                   xi_target := target_id;
                   xi_uid := uid n;
                   xi_jid := rt_jid n;
                   xi_pt_index := pt_index;
                   xi_match_bits := match_bits;
                   xi_ack_req := xi_ack_req xi;
                   xi_put_md := xi_put_md xi;
                   xi_get_md := md;
                   xi_hdr_data := xi_hdr_data xi;
                   xi_operand := xi_operand xi;
                   xi_user_ptr := user_ptr;
                   xi_threshold := xi_threshold xi;
                   xi_atom_op := xi_atom_op xi;
                   xi_atom_type := xi_atom_type xi;
                   xi_rlength := length;
                   xi_put_offset := xi_put_offset xi;
                   xi_put_resid := xi_put_resid xi;
                   xi_get_offset := local_offset;
                   xi_get_resid := length;
                   xi_roffset := remote_offset;
                   xi_pkt_len := sizeof_req_hdr_t E;
                   xi_state := Some STATE_INIT_START |} in
              Returns PTL_OK [Ev_xi_alloc n; Ev_process_init xi; Ev_gbl_put]
          end
      end.

(** The checks of [PtlFetchAtomic] under [PTL_CHECK_BUILD]: [check_get] on
    the get MD, [check_atomic] on the put MD with [PTL_NO_ACK_REQ], then
    both MDs on the same NI. *)
Definition fetch_checks (get_md put_md : option md_t)
    (local_get_offset local_put_offset length : Z) (ni : option ni_t)
    (atom_op atom_type : Z) : option ptl_ret :=
  err ← check_get get_md local_get_offset length ni;
  if is_err err then Some err
  else
    err ← check_atomic put_md local_put_offset length ni PTL_NO_ACK_REQ
            atom_op atom_type;
    if is_err err then Some err
    else
      match to_ni put_md, ni with
      | Some pn, Some n =>
          if negb (ni_addr pn =? ni_addr n) then Some PTL_ARG_INVALID
          else Some PTL_OK
      | _, _ => None
      end.

Definition PtlFetchAtomic (get_md_handle local_get_offset put_md_handle
    local_put_offset length target_id pt_index match_bits remote_offset
    user_ptr hdr_data atom_op atom_type : Z) : outcome :=
  if is_err (get_gbl E) then Returns (get_gbl E) []
  else
    let '(err, get_md) := md_get E get_md_handle in
    if is_err err then Returns err [Ev_gbl_put]
    else
      let '(err, put_md) := md_get E put_md_handle in
      if is_err err then Returns err [Ev_md_put get_md; Ev_gbl_put]
      else
        let ni := to_ni get_md in
        let fail err :=
          Returns err [Ev_md_put put_md; Ev_md_put get_md; Ev_gbl_put] in
        match (if PTL_CHECK_BUILD E
               then fetch_checks get_md put_md local_get_offset
                      local_put_offset length ni atom_op atom_type
               else Some PTL_OK) with
        | None => Undefined
        | Some err =>
          if is_err err then fail err
          else
            match ni with
            | None => Undefined
            | Some n =>
              let '(err, xi) := xi_alloc E n in
              if is_err err then fail err
              else
                let xi :=
                  {| xi_operation := Some OP_FETCH;
                     xi_target := target_id;
                     xi_uid := uid n;
                     xi_jid := rt_jid n;
                     xi_pt_index := pt_index;
                     xi_match_bits := match_bits;
                     xi_ack_req := xi_ack_req xi;
                     xi_put_md := put_md;
                     xi_get_md := get_md;
                     xi_hdr_data := hdr_data;
                     xi_operand := xi_operand xi;
                     xi_user_ptr := user_ptr;
                     xi_threshold := xi_threshold xi;
                     xi_atom_op := atom_op;
                     xi_atom_type := atom_type;
                     xi_rlength := length;
                     xi_put_offset := local_put_offset;
                     xi_put_resid := length;
                     xi_get_offset := local_get_offset;
                     xi_get_resid := length;
                     xi_roffset := remote_offset;
                     xi_pkt_len := sizeof_req_hdr_t E;
                     xi_state := Some STATE_INIT_START |} in
                Returns PTL_OK [Ev_xi_alloc n; Ev_process_init xi; Ev_gbl_put]
            end
        end.

End Ops.

(** The MDs that a list of events releases, in order, and the number of
    times it releases the library. *)
Definition md_puts (tr : list event) : list (option md_t) :=
  omap (fun e => match e with Ev_md_put m => Some m | _ => None end) tr.

Definition gbl_puts (tr : list event) : nat :=
  List.length
    (omap (fun e => match e with Ev_gbl_put => Some tt | _ => None end) tr).

(** The XIs that a list of events hands to the initiator state machine. *)
Definition started (tr : list event) : list xi_t :=
  omap (fun e => match e with Ev_process_init xi => Some xi | _ => None end)
    tr.

(** The MD references that a call holds when it has got as far as it can:
    none before the library and the handle resolve. *)
Definition held1 (E : env) (h : Z) : list (option md_t) :=
  if is_err (get_gbl E) then []
  else if is_err (md_get E h).1 then [] else [(md_get E h).2].

Definition held2 (E : env) (hg hp : Z) : list (option md_t) :=
  if is_err (get_gbl E) then []
  else if is_err (md_get E hg).1 then []
  else if is_err (md_get E hp).1 then [(md_get E hg).2]
  else [(md_get E hp).2; (md_get E hg).2].

(** The discipline of a submission that holds the references [held]: when it
    fails it gives back each of them, last taken first, and the library if it
    had it, and starts nothing; when it succeeds it starts one XI, which
    keeps the MDs, and gives back the library only. *)
Definition disciplined (E : env) (held : list (option md_t)) (o : outcome)
    : Prop :=
  match o with
  | Undefined => True
  | Returns r tr =>
      if is_err r then
        md_puts tr = held /\
        gbl_puts tr = (if is_err (get_gbl E) then 0%nat else 1%nat) /\
        started tr = []
      else
        md_puts tr = [] /\ gbl_puts tr = 1%nat /\
        exists xi, started tr = [xi] /\
          xi_state xi = Some STATE_INIT_START
  end.

(** An MD on another NI than [sample_md]. *)
Definition other_md : md_t :=
  {| md_length := 64; md_eq := Some 1; md_ct := Some 2;
     md_ni := {| ni_addr := 8192;
                 limits := {| max_msg_size := 1048576;
                              max_atomic_size := 512 |};
                 uid := 1000; rt_jid := 7 |} |}.

(** A library in which handle 2 names [other_md] and every other handle
    [sample_md]. *)
Definition two_ni_env : env :=
  {| PTL_CHECK_BUILD := true;
     get_gbl := PTL_OK;
     md_get := fun h => (PTL_OK, Some (if h =? 2 then other_md else sample_md));
     xi_alloc := fun _ => (PTL_OK, fresh_xi);
     sizeof_req_hdr_t := 80 |}.

End Submit.

(** ** ptl_move.c: the triggered operations *)

Module Triggered.
Import Move.

(** A counting event: its two counters, the NI that owns it, and its
    address. *)
Record ptl_ct_event_t := {
  success : Z;
  failure : Z
}.

Record ct_t := {
  ct_addr : Z;
  ct_event : ptl_ct_event_t;
  ct_ni : Z
}.

(** What a triggered operation does to the rest of the library, in program
    order: the events of an immediate operation, and those on counters. *)
Inductive event :=
| Ev (e : Move.event)
| Ev_post_ct (xi : xi_t) (ct : option ct_t)
| Ev_ct_put (ct : option ct_t)
| Ev_cond_broadcast (ni : Z).

Inductive outcome :=
| Returns (r : ptl_ret) (tr : list event)
| Undefined.

(** The collaborators of the immediate operations, and [ct_get]. *)
Record env := {
  base : Move.env;
  ct_get : Z -> ptl_ret * option ct_t
}.

Section Ops.
Context {ack : ack_req_values}.
Variable E : env.

Definition PtlTriggeredPut (md_handle local_offset length ack_req target_id
    pt_index match_bits remote_offset user_ptr hdr_data trig_ct_handle
    threshold : Z) : outcome :=
  if is_err (get_gbl (base E)) then Returns (get_gbl (base E)) []
  else
    let '(err, md) := md_get (base E) md_handle in
    if is_err err then Returns err [Ev Ev_gbl_put]
    else
      let ni := to_ni md in
      let err2 err := Returns err [Ev (Ev_md_put md); Ev Ev_gbl_put] in
      let '(err, ct) := ct_get E trig_ct_handle in
      if is_err err then err2 err
      else
        let err3 err :=
          Returns err [Ev_ct_put ct; Ev (Ev_md_put md); Ev Ev_gbl_put] in
        if PTL_CHECK_BUILD (base E) && is_null ct then err2 PTL_ARG_INVALID
        else
          match (if PTL_CHECK_BUILD (base E)
                 then check_put md local_offset length ack_req ni
                 else Some PTL_OK) with
          | None => Undefined
          | Some err =>
            if is_err err then err3 err
            else
              match ni with
              | None => Undefined
              | Some n =>
                let '(err, xi) := xi_alloc (base E) n in
                if is_err err then err3 err
                else
                  let xi :=
                    {| xi_operation := Some OP_PUT;
                       xi_target := target_id;
                       xi_uid := uid n;
                       xi_jid := rt_jid n;
                       xi_pt_index := pt_index;
                       xi_match_bits := match_bits;
                       xi_ack_req := ack_req;
                       xi_put_md := md;
                       xi_get_md := xi_get_md xi;
                       xi_hdr_data := hdr_data;
                       xi_operand := xi_operand xi;
                       xi_user_ptr := user_ptr;
                       xi_threshold := threshold;
                       xi_atom_op := xi_atom_op xi;
                       xi_atom_type := xi_atom_type xi;
                       xi_rlength := length;
                       xi_put_offset := local_offset;
                       xi_put_resid := length;
                       xi_get_offset := xi_get_offset xi;
                       xi_get_resid := xi_get_resid xi;
                       xi_roffset := remote_offset;
                       xi_pkt_len := sizeof_req_hdr_t (base E);
                       xi_state := Some STATE_INIT_START |} in
                  Returns PTL_OK
                    [Ev (Ev_xi_alloc n); Ev_post_ct xi ct; Ev_ct_put ct;
                     Ev Ev_gbl_put]
              end
          end.

Definition PtlTriggeredSwap (get_md_handle local_get_offset put_md_handle
    local_put_offset length target_id pt_index match_bits remote_offset
    user_ptr hdr_data operand atom_op atom_type trig_ct_handle threshold : Z)
    : outcome :=
  if is_err (get_gbl (base E)) then Returns (get_gbl (base E)) []
  else
    let err1 err := Returns err [Ev Ev_gbl_put] in
    let '(err, get_md) := md_get (base E) get_md_handle in
    if is_err err then err1 err
    else
      let '(err, put_md) := md_get (base E) put_md_handle in
      if is_err err then Returns err [Ev (Ev_md_put get_md); Ev Ev_gbl_put]
      else
        let ni := to_ni get_md in
        let err3 err :=
          Returns err
            [Ev (Ev_md_put put_md); Ev (Ev_md_put get_md); Ev Ev_gbl_put] in
        let '(err, ct) := ct_get E trig_ct_handle in
        if is_err err then err3 err
        else
          let err4 err :=
            Returns err
              [Ev_ct_put ct; Ev (Ev_md_put put_md); Ev (Ev_md_put get_md);
               Ev Ev_gbl_put] in
          if PTL_CHECK_BUILD (base E) && is_null ct
          then err3 PTL_ARG_INVALID
          else
            match (if PTL_CHECK_BUILD (base E)
                   then swap_checks get_md put_md local_get_offset
                          local_put_offset length ni atom_op atom_type
                   else Some PTL_OK) with
            | None => Undefined
            | Some err =>
              if is_err err then err4 err
              else
                match index op_info atom_op with
                | None => Undefined
                | Some info =>
                  match (if use_operand info =? 0 then Some (PTL_OK, 0)
                         else get_operand atom_type operand) with
                  | None => Undefined
                  | Some (err, opval) =>
                    if is_err err then err1 err
                    else
                      match ni with
                      | None => Undefined
                      | Some n =>
                        let '(err, xi) := xi_alloc (base E) n in
                        if is_err err then err4 err
                        else
                          let xi :=
                            {| xi_operation := Some OP_SWAP;
                               xi_target := target_id;
                               xi_uid := uid n;
                               xi_jid := rt_jid n;
                               xi_pt_index := pt_index;
                               xi_match_bits := match_bits;
                               xi_ack_req := xi_ack_req xi;
                               xi_put_md := put_md;
                               xi_get_md := get_md;
                               xi_hdr_data := hdr_data;
                               xi_operand := opval;
                               xi_user_ptr := user_ptr;
                               xi_threshold := threshold;
                               xi_atom_op := atom_op;
                               xi_atom_type := atom_type;
                               xi_rlength := length;
                               xi_put_offset := local_put_offset;
                               xi_put_resid := length;
                               xi_get_offset := local_get_offset;
                               xi_get_resid := length;
                               xi_roffset := remote_offset;
                               xi_pkt_len := sizeof_req_hdr_t (base E);
                               xi_state := Some STATE_INIT_START |} in
                          Returns PTL_OK
                            [Ev (Ev_xi_alloc n); Ev_post_ct xi ct;
                             Ev_ct_put ct; Ev Ev_gbl_put]
                      end
                  end
                end
            end.

End Ops.

(** [xi] with its threshold set. *)
Definition with_threshold (xi : xi_t) (threshold : Z) : xi_t :=
  {| xi_operation := xi_operation xi; xi_target := xi_target xi;
     xi_uid := xi_uid xi; xi_jid := xi_jid xi;
     xi_pt_index := xi_pt_index xi; xi_match_bits := xi_match_bits xi;
     xi_ack_req := xi_ack_req xi; xi_put_md := xi_put_md xi;
     xi_get_md := xi_get_md xi; xi_hdr_data := xi_hdr_data xi;
     xi_operand := xi_operand xi; xi_user_ptr := xi_user_ptr xi;
     xi_threshold := threshold; xi_atom_op := xi_atom_op xi;
     xi_atom_type := xi_atom_type xi; xi_rlength := xi_rlength xi;
     xi_put_offset := xi_put_offset xi; xi_put_resid := xi_put_resid xi;
     xi_get_offset := xi_get_offset xi; xi_get_resid := xi_get_resid xi;
     xi_roffset := xi_roffset xi; xi_pkt_len := xi_pkt_len xi;
     xi_state := xi_state xi |}.

(** What the triggered form of an immediate operation makes of its outcome
    when the trigger counter [ct] has resolved: the same code; on an error
    the counter is given back before the rest; on success the XI is posted
    on the counter with its threshold instead of being started, and the
    counter given back. *)
Definition deferred (ct : ct_t) (threshold : Z) (o : Move.outcome)
    : option outcome :=
  match o with
  | Move.Undefined => Some Undefined
  | Move.Returns r tr =>
      if is_err r then Some (Returns r (Ev_ct_put (Some ct) :: map Ev tr))
      else
        match tr with
        | [Ev_xi_alloc n; Ev_process_init xi; Ev_gbl_put] =>
            Some (Returns PTL_OK
                    [Ev (Ev_xi_alloc n);
                     Ev_post_ct (with_threshold xi threshold) (Some ct);
                     Ev_ct_put (Some ct); Ev Ev_gbl_put])
        | _ => None
        end
  end.

(** The references that a list of events gives back. *)
Definition md_puts (tr : list event) : list (option md_t) :=
  omap (fun e => match e with Ev (Ev_md_put m) => Some m | _ => None end) tr.

Definition ct_puts (tr : list event) : list (option ct_t) :=
  omap (fun e => match e with Ev_ct_put c => Some c | _ => None end) tr.

Definition posted (tr : list event) : list (xi_t * option ct_t) :=
  omap (fun e => match e with Ev_post_ct xi c => Some (xi, c) | _ => None end)
    tr.

(** Sample data: a counter, and a library in which every handle names it. *)
Definition sample_ct : ct_t :=
  {| ct_addr := 12288; ct_event := {| success := 2; failure := 0 |};
     ct_ni := 4096 |}.

Definition sample_env (check_build : bool) : env :=
  {| base := Move.sample_env check_build;
     ct_get := fun _ => (PTL_OK, Some sample_ct) |}.

End Triggered.

(** ** ptl_move.c: the triggered counter operations *)

Module CtOps.
Import Triggered.

Inductive event :=
| Ev_gbl_put
| Ev_ct_put (ct : Z)
| Ev_cond_broadcast (ni : Z).

(** The counters of the library by address, [ni->ct_waiting] by the address
    of the NI, and the events so far. *)
Record world := {
  cts : gmap Z ct_t;
  ct_waiting : Z -> Z;
  trace : list event
}.

Definition emit (e : event) (w : world) : world :=
  {| cts := cts w; ct_waiting := ct_waiting w; trace := trace w ++ [e] |}.

Definition store (a : Z) (c : ct_t) (w : world) : world :=
  {| cts := <[a := c]> (cts w); ct_waiting := ct_waiting w;
     trace := trace w |}.

Inductive outcome :=
| Returns (r : ptl_ret) (w : world)
| Undefined.

(** The collaborators: [ct_get] answers with the address of the counter. *)
Record env := {
  get_gbl : ptl_ret;
  ct_get : Z -> ptl_ret * option Z
}.

(** The wake-up of the waiters of an NI, under the NI's mutex. *)
Definition wake (ni : Z) (w : world) : world :=
  if ct_waiting w ni =? 0 then w else emit (Ev_cond_broadcast ni) w.

Section Ops.
Variable E : env.

Definition PtlTriggeredCTSet (ct_handle : Z) (new_ct : ptl_ct_event_t)
    (trig_ct_handle threshold : Z) (w : world) : outcome :=
  if is_err (get_gbl E) then Returns (get_gbl E) w
  else
    let '(err, ct) := ct_get E ct_handle in
    if is_err err then Returns err (emit Ev_gbl_put w)
    else
      match ct with
      | None => Undefined
      | Some a =>
        match cts w !! a with
        | None => Undefined
        | Some c =>
            let c := {| ct_addr := ct_addr c; ct_event := new_ct;
                        ct_ni := ct_ni c |} in
            let w := store a c w in
            let w := wake (ct_ni c) w in
            Returns PTL_OK (emit Ev_gbl_put (emit (Ev_ct_put a) w))
        end
      end.

Definition PtlTriggeredCTInc (ct_handle : Z) (increment : ptl_ct_event_t)
    (trig_ct_handle threshold : Z) (w : world) : outcome :=
  if is_err (get_gbl E) then Returns (get_gbl E) w
  else
    let '(err, ct) := ct_get E ct_handle in
    if is_err err then Returns err (emit Ev_gbl_put w)
    else
      match ct with
      | None => Undefined
      | Some a =>
        match cts w !! a with
        | None => Undefined
        | Some c =>
            let ev :=
              {| success := u64 (success (ct_event c) + success increment);
                 failure := u64 (failure (ct_event c) + failure increment)
              |} in
            let c := {| ct_addr := ct_addr c; ct_event := ev;
                        ct_ni := ct_ni c |} in
            let w := store a c w in
            let w := wake (ct_ni c) w in
            Returns PTL_OK (emit Ev_gbl_put (emit (Ev_ct_put a) w))
        end
      end.

End Ops.

(** The counters of [ct_handle] after a call. *)
Definition counters (E : env) (ct_handle : Z) (o : outcome)
    : option ptl_ct_event_t :=
  match o with
  | Returns _ w =>
      ct_event <$> ((ct_get E ct_handle).2 ≫= (fun a => cts w !! a))
  | Undefined => None
  end.

(** Sample data: a library with the counter [sample_ct] under handle 7 and
    nobody waiting. *)
Definition sample_env : env :=
  {| get_gbl := PTL_OK;
     ct_get := fun h => if h =? 7 then (PTL_OK, Some 12288)
                        else (PTL_ARG_INVALID, None) |}.

Definition sample_world : world :=
  {| cts := {[ 12288 := sample_ct ]}; ct_waiting := fun _ => 0;
     trace := [] |}.

End CtOps.

(** ** shmem/init.c: the communication pad *)

Module Init.

(** A [void *] that is NULL, [MAP_FAILED], or a mapping. *)
Inductive pad :=
| NULL
| MAP_FAILED
| Mapped (a : Z).

Inductive event :=
| Ev_shm_open
| Ev_ftruncate (fd : Z)
| Ev_mmap (fd : Z)
| Ev_close (fd : Z)
| Ev_shm_unlink
| Ev_munmap (p : pad).

(** The file-scope variables of [init.c] and the [static] locals of
    [PtlInit], and the system calls made so far. *)
Record state := {
  init_ref_count : Z;
  comm_pad : pad;
  done_initializing : Z;
  failure : Z;
  trace : list event
}.

(** What the system answers to the calls of one [PtlInit] or [PtlFini]. *)
Record sys := {
  shm_open : Z;
  ftruncate : Z;
  mmap : pad;
  shm_unlink : Z;
  munmap : Z
}.

(** A call returns (a code for [PtlInit], nothing for [PtlFini]), or fails
    an [assert], or, running alone, waits for ever on
    [done_initializing]. *)
Inductive outcome :=
| Ret (r : option ptl_ret) (s : state)
| Assert_failed (s : state)
| Waits (s : state).

Definition emit (e : event) (s : state) : state :=
  {| init_ref_count := init_ref_count s; comm_pad := comm_pad s;
     done_initializing := done_initializing s; failure := failure s;
     trace := trace s ++ [e] |}.

(** Modelled from the spec: [PtlInternalAtomicInc] of
    [ptl_internal_atomic.h], which is not among the sources.  It is the
    atomic fetch-and-add that the two callers here rely on: it adds to the
    [unsigned int] and returns the value from before the addition (the first
    of the callers of [PtlInit] sees 0, the last one of [PtlFini] sees 1). *)
Definition PtlInternalAtomicInc (s : state) (n : Z) : Z * state :=
  (init_ref_count s,
   {| init_ref_count := u32 (init_ref_count s + n); comm_pad := comm_pad s;
      done_initializing := done_initializing s; failure := failure s;
      trace := trace s |}).

Definition set_comm_pad (p : pad) (s : state) : state :=
  {| init_ref_count := init_ref_count s; comm_pad := p;
     done_initializing := done_initializing s; failure := failure s;
     trace := trace s |}.

Definition set_done (s : state) : state :=
  {| init_ref_count := init_ref_count s; comm_pad := comm_pad s;
     done_initializing := 1; failure := failure s; trace := trace s |}.

Definition set_failure (s : state) : state :=
  {| init_ref_count := init_ref_count s; comm_pad := comm_pad s;
     done_initializing := done_initializing s; failure := 1;
     trace := trace s |}.

Definition is_NULL (p : pad) : bool :=
  match p with NULL => true | _ => false end.

Definition is_MAP_FAILED (p : pad) : bool :=
  match p with MAP_FAILED => true | _ => false end.

Section Calls.
(** [NDEBUG] removes every [assert] with the expression in it. *)
Variable NDEBUG : bool.
Variable Sy : sys.

Definition exit_fail_fast (s : state) : outcome :=
  let '(_, s) := PtlInternalAtomicInc s (-1) in
  Ret (Some PTL_FAIL) s.

Definition exit_fail_shm (s : state) : outcome :=
  exit_fail_fast (set_done (set_failure s)).

(** [assert(shm_unlink(comm_pad_shm_name) == 0);] and what follows. *)
Definition exit_fail_mmap (s : state) : outcome :=
  if NDEBUG then exit_fail_shm s
  else
    let s := emit Ev_shm_unlink s in
    if shm_unlink Sy =? 0 then exit_fail_shm s else Assert_failed s.

Definition PtlInit (s : state) : outcome :=
  let '(race, s) := PtlInternalAtomicInc s 1 in
  if race =? 0 then
    if negb NDEBUG && negb (is_NULL (comm_pad s)) then Assert_failed s
    else
      let s := emit Ev_shm_open s in
      let fd := shm_open Sy in
      if negb NDEBUG && (fd <? 0) then Assert_failed s
      else if fd >=? 0 then
        let s := emit (Ev_ftruncate fd) s in
        if negb (ftruncate Sy =? 0) then exit_fail_mmap s
        else
          let s := set_comm_pad (mmap Sy) (emit (Ev_mmap fd) s) in
          if negb (is_MAP_FAILED (comm_pad s)) then
            Ret (Some PTL_OK) (set_done (emit (Ev_close fd) s))
          else exit_fail_mmap s
      else exit_fail_shm s
  else
    if done_initializing s =? 0 then Waits s
    else if failure s =? 0 then Ret (Some PTL_OK) s
    else exit_fail_fast s.

Definition PtlFini (s : state) : outcome :=
  if negb NDEBUG && negb (init_ref_count s >? 0) then Assert_failed s
  else if init_ref_count s =? 0 then Ret None s
  else
    let '(lastone, s) := PtlInternalAtomicInc s (-1) in
    if lastone =? 1 then
      if NDEBUG then Ret None s
      else
        let s := emit (Ev_munmap (comm_pad s)) s in
        if negb (munmap Sy =? 0) then Assert_failed s
        else
          let s := emit Ev_shm_unlink s in
          if negb (shm_unlink Sy =? 0) then Assert_failed s
          else Ret None s
    else Ret None s.

(** [n] calls in a row, as long as they return: what each of them
    returns, in order, and the state they leave. *)
Fixpoint repeat_call (call : state -> outcome) (n : nat) (s : state)
    : option (list (option ptl_ret) * state) :=
  match n with
  | O => Some ([], s)
  | S n' =>
      match call s with
      | Ret r s' =>
          match repeat_call call n' s' with
          | Some (rs, s'') => Some (r :: rs, s'')
          | None => None
          end
      | _ => None
      end
  end.

End Calls.

(** The state in which the program starts. *)
Definition initial : state :=
  {| init_ref_count := 0; comm_pad := NULL; done_initializing := 0;
     failure := 0; trace := [] |}.

(** A system in which every call succeeds, and one in which the pad cannot
    be sized. *)
Definition sys_ok : sys :=
  {| shm_open := 3; ftruncate := 0; mmap := Mapped 65536; shm_unlink := 0;
     munmap := 0 |}.

Definition sys_no_space : sys :=
  {| shm_open := 3; ftruncate := -1; mmap := MAP_FAILED; shm_unlink := 0;
     munmap := 0 |}.

(** A system in which the pad can be sized and cannot be mapped. *)
Definition sys_no_map : sys :=
  {| shm_open := 3; ftruncate := 0; mmap := MAP_FAILED; shm_unlink := 0;
     munmap := 0 |}.

(** The calls that map and unmap among a list of events. *)
Definition maps (tr : list event) : list Z :=
  omap (fun e => match e with Ev_mmap fd => Some fd | _ => None end) tr.

Definition unmaps (tr : list event) : list pad :=
  omap (fun e => match e with Ev_munmap p => Some p | _ => None end) tr.

End Init.

(** ** ptl_conn.c: connections *)

Module Conn.

(** The states and transports that [ptl_conn.c] names; the version of
    [ptl_conn.h] that declares them is not among the sources.
    [CONN_TYPE_OTHER] stands for every transport that is not
    [CONN_TYPE_RDMA]. *)
Inductive conn_state :=
| CONN_STATE_DISCONNECTED
| CONN_STATE_RESOLVING_ADDR
| CONN_STATE_RESOLVING_ROUTE
| CONN_STATE_CONNECTING
| CONN_STATE_CONNECTED
| CONN_STATE_DISCONNECTING
| CONN_STATE_XRC_CONNECTED.

Inductive conn_type :=
| CONN_TYPE_RDMA
| CONN_TYPE_OTHER.

Inductive reject_reason :=
| REJECT_REASON_NO_NI
| REJECT_REASON_GOOD_SRQ
| REJECT_REASON_BAD_PARAM
| REJECT_REASON_CONNECTED
| REJECT_REASON_ERROR
| REJECT_REASON_CONNECTING.

(** Modelled from the spec: a physical process identifier, which
    [portals4.h] declares and which is not among the sources.  A NID is an
    IPv4 address and a PID a port, both held in 32-bit unsigned fields (the
    wire header carries them as [src_nid:u32] and [src_pid:u32]). *)
Record ptl_process_t := {
  nid : Z;
  pid : Z
}.

(** The conversion of a 32-bit unsigned value to [int]. *)
Definition to_int (x : Z) : Z :=
  let y := u32 x in
  if y <? 2 ^ 31 then y else y - 2 ^ 32.

(** The difference of two [uint32_t] is a [uint32_t]; it becomes an [int]
    when it is returned. *)
Definition compare_id (id1 id2 : ptl_process_t) : Z :=
  if negb (nid id1 =? nid id2) then to_int (nid id1 - nid id2)
  else to_int (pid id1 - pid id2).

(** The fields of [conn_t] that the functions below read or write;
    [buf_list] holds the address and the type of each pending buffer. *)
Record conn_t := {
  id : ptl_process_t;
  transport_type : conn_type;
  state : conn_state;
  cm_id : option Z;
  local_disc : Z;
  remote_disc : Z;
  retry_resolve_addr : Z;
  retry_resolve_route : Z;
  retry_connect : Z;
  max_inline_data : Z;
  max_req_avail : Z;
  buf_list : list (Z * Recv.buf_type)
}.

Record ni_t := {
  ni_id : ptl_process_t;
  options : Z;
  ni_type : Z;
  shutting_down : Z;
  num_conn : Z;
  self_cm_id : option Z
}.

(** What [cm_id->context] holds: nothing, the connection, or the NI with
    the low bit set. *)
Inductive context :=
| Ctx_NULL
| Ctx_conn
| Ctx_ni.

(** The disconnect message, as [send_disconnect_msg] fills it. *)
Record disc_msg := {
  m_type : Recv.buf_type;
  m_length : Z;
  m_event_mask : Z;
  m_operation : Z;
  m_version : Z;
  m_ni_type : Z;
  m_src_nid : Z;
  m_src_pid : Z
}.

(** Calls out of the connection code, in program order. *)
Inductive event :=
| Ev_conn_get
| Ev_conn_put
| Ev_rdma_create_id
| Ev_rdma_resolve_addr (i : Z)
| Ev_rdma_resolve_route (i : Z)
| Ev_rdma_create_qp (i : Z)
| Ev_rdma_connect (i : Z) (src_id : ptl_process_t) (opts : Z)
| Ev_rdma_accept (i : Z) (private_data : bool)
| Ev_rdma_reject (i : Z) (reason : reject_reason)
| Ev_rdma_disconnect (i : Z)
| Ev_rdma_destroy_qp (i : option Z)
| Ev_rdma_destroy_id (i : Z)
| Ev_set_context (i : Z) (c : context)
| Ev_process_tgt (buf : Z)
| Ev_process_init (buf : Z)
| Ev_send_message (m : disc_msg)
| Ev_buf_put
| Ev_rdma_ack_cm_event.

(** One connection, the NI that owns it, and the events so far. *)
Record world := {
  conn : conn_t;
  ni : ni_t;
  trace : list event
}.

(** A call runs to its end, or stops at [abort()] or a failed [assert], or
    goes through a NULL pointer. *)
Inductive outcome (A : Type) :=
| Done (a : A) (w : world)
| Aborted (w : world)
| Fault (w : world).
Arguments Done {A} a w.
Arguments Aborted {A} w.
Arguments Fault {A} w.

Definition emit (e : event) (w : world) : world :=
  {| conn := conn w; ni := ni w; trace := trace w ++ [e] |}.

Definition set_conn (c : conn_t) (w : world) : world :=
  {| conn := c; ni := ni w; trace := trace w |}.

Definition set_state (s : conn_state) (c : conn_t) : conn_t :=
  {| id := id c; transport_type := transport_type c; state := s;
     cm_id := cm_id c; local_disc := local_disc c;
     remote_disc := remote_disc c;
     retry_resolve_addr := retry_resolve_addr c;
     retry_resolve_route := retry_resolve_route c;
     retry_connect := retry_connect c;
     max_inline_data := max_inline_data c;
     max_req_avail := max_req_avail c; buf_list := buf_list c |}.

Definition set_cm_id (i : option Z) (c : conn_t) : conn_t :=
  {| id := id c; transport_type := transport_type c; state := state c;
     cm_id := i; local_disc := local_disc c; remote_disc := remote_disc c;
     retry_resolve_addr := retry_resolve_addr c;
     retry_resolve_route := retry_resolve_route c;
     retry_connect := retry_connect c;
     max_inline_data := max_inline_data c;
     max_req_avail := max_req_avail c; buf_list := buf_list c |}.

Definition set_local_disc (v : Z) (c : conn_t) : conn_t :=
  {| id := id c; transport_type := transport_type c; state := state c;
     cm_id := cm_id c; local_disc := v; remote_disc := remote_disc c;
     retry_resolve_addr := retry_resolve_addr c;
     retry_resolve_route := retry_resolve_route c;
     retry_connect := retry_connect c;
     max_inline_data := max_inline_data c;
     max_req_avail := max_req_avail c; buf_list := buf_list c |}.


Definition set_retries (v : Z) (c : conn_t) : conn_t :=
  {| id := id c; transport_type := transport_type c; state := state c;
     cm_id := cm_id c; local_disc := local_disc c;
     remote_disc := remote_disc c;
     retry_resolve_addr := v; retry_resolve_route := v; retry_connect := v;
     max_inline_data := max_inline_data c;
     max_req_avail := max_req_avail c; buf_list := buf_list c |}.

Definition set_qp_param (inline avail : Z) (c : conn_t) : conn_t :=
  {| id := id c; transport_type := transport_type c; state := state c;
     cm_id := cm_id c; local_disc := local_disc c;
     remote_disc := remote_disc c;
     retry_resolve_addr := retry_resolve_addr c;
     retry_resolve_route := retry_resolve_route c;
     retry_connect := retry_connect c;
     max_inline_data := inline; max_req_avail := avail;
     buf_list := buf_list c |}.

Definition set_buf_list (l : list (Z * Recv.buf_type)) (c : conn_t) : conn_t :=
  {| id := id c; transport_type := transport_type c; state := state c;
     cm_id := cm_id c; local_disc := local_disc c;
     remote_disc := remote_disc c;
     retry_resolve_addr := retry_resolve_addr c;
     retry_resolve_route := retry_resolve_route c;
     retry_connect := retry_connect c;
     max_inline_data := max_inline_data c;
     max_req_avail := max_req_avail c; buf_list := l |}.

Definition upd_conn (f : conn_t -> conn_t) (w : world) : world :=
  set_conn (f (conn w)) w.

Definition set_num_conn (v : Z) (w : world) : world :=
  {| conn := conn w;
     ni := {| ni_id := ni_id (ni w); options := options (ni w);
              ni_type := ni_type (ni w);
              shutting_down := shutting_down (ni w); num_conn := v;
              self_cm_id := self_cm_id (ni w) |};
     trace := trace w |}.

Definition set_self_cm_id (i : option Z) (w : world) : world :=
  {| conn := conn w;
     ni := {| ni_id := ni_id (ni w); options := options (ni w);
              ni_type := ni_type (ni w);
              shutting_down := shutting_down (ni w);
              num_conn := num_conn (ni w); self_cm_id := i |};
     trace := trace w |}.

(** Constants of headers that are not among the sources; their values are
    left open. *)
Class conn_values := {
  OP_RDMA_DISC : Z;
  XX_SIGNALED : Z;
  XX_INLINE : Z;
  PTL_NI_UNDELIVERABLE : Z;
  PTL_NI_LOGICAL : Z;
  PTL_NI_PHYSICAL : Z;
  sizeof_cm_priv_request : Z
}.

(** The collaborators that are not among the sources, given by what they
    return, and the switches the file is compiled with. *)
Record env := {
  WITH_TRANSPORT_IB : bool;
  WITH_TRANSPORT_SHMEM : bool;
  NDEBUG : bool;
  rdma_create_id : Z * Z;
  rdma_resolve_addr : Z;
  rdma_resolve_route : Z;
  rdma_create_qp : Z;
  rdma_connect : Z;
  rdma_accept : Z;
  ibv_query_qp : Z * (Z * Z);
  max_send_wr : Z;
  buf_alloc : ptl_ret * Recv.buf_type;
  send_message : ptl_ret
}.

(** The connection request that a CM event carries in its private data. *)
Record cm_priv_request := {
  priv_options : Z;
  src_id : ptl_process_t
}.

(** The event types that [process_cm_event] has a case for;
    [RDMA_CM_EVENT_OTHER] stands for every other one, which goes to
    [default:]. *)
Inductive cm_event_type :=
| RDMA_CM_EVENT_ADDR_RESOLVED
| RDMA_CM_EVENT_ROUTE_RESOLVED
| RDMA_CM_EVENT_ESTABLISHED
| RDMA_CM_EVENT_CONNECT_REQUEST
| RDMA_CM_EVENT_REJECTED
| RDMA_CM_EVENT_DISCONNECTED
| RDMA_CM_EVENT_CONNECT_ERROR
| RDMA_CM_EVENT_TIMEWAIT_EXIT
| RDMA_CM_EVENT_OTHER.

(** A CM event: its identifier with the context stored in it, its status,
    and its private data ([None] for a NULL pointer) with their length. *)
Record rdma_cm_event := {
  ev_event : cm_event_type;
  ev_id : Z;
  ev_context : context;
  ev_status : Z;
  ev_request : option cm_priv_request;
  ev_reject : option reject_reason;
  ev_private_data_len : Z
}.

Section Code.
Context {V : conn_values} {H : Recv.hdr_values}.
Variable E : env.

Definition disconnect_conn_locked (w : world) : outcome unit :=
  let c := conn w in
  match transport_type c with
  | CONN_TYPE_RDMA =>
    match state c with
    | CONN_STATE_CONNECTING | CONN_STATE_CONNECTED
    | CONN_STATE_RESOLVING_ROUTE =>
        let w := upd_conn (set_state CONN_STATE_DISCONNECTING) w in
        Done tt
          (if WITH_TRANSPORT_IB E
           then match cm_id c with
                | Some i => emit (Ev_rdma_disconnect i) w
                | None => w
                end
           else w)
    | CONN_STATE_RESOLVING_ADDR =>
        Done tt (upd_conn (set_state CONN_STATE_DISCONNECTING) w)
    | CONN_STATE_DISCONNECTING => Aborted w
    | CONN_STATE_DISCONNECTED => Done tt w
    | CONN_STATE_XRC_CONNECTED => Done tt w
    end
  | CONN_TYPE_OTHER => Done tt w
  end.




Definition init_connect (w : world) : outcome ptl_ret :=
  if WITH_TRANSPORT_IB E then
    if negb (NDEBUG E)
       && negb (match transport_type (conn w) with
                | CONN_TYPE_RDMA => true
                | CONN_TYPE_OTHER => false
                end)
    then Aborted w
    else if negb (shutting_down (ni w) =? 0) then Done PTL_FAIL w
    else
      let w := emit Ev_conn_get w in
      if negb (NDEBUG E)
         && negb (match state (conn w), cm_id (conn w) with
                  | CONN_STATE_DISCONNECTED, None => true
                  | _, _ => false
                  end)
      then Aborted w
      else
        let w := upd_conn (set_retries 3) w in
        let w := emit Ev_rdma_create_id w in
        let '(rc, new_id) := rdma_create_id E in
        if negb (rc =? 0) then Done PTL_FAIL (emit Ev_conn_put w)
        else
          let w := upd_conn (fun c => set_cm_id (Some new_id)
                               (set_state CONN_STATE_RESOLVING_ADDR c)) w in
          let w := emit (Ev_rdma_resolve_addr new_id) w in
          if negb (rdma_resolve_addr E =? 0) then
            let w := upd_conn (fun c => set_cm_id None
                                 (set_state CONN_STATE_DISCONNECTED c)) w in
            Done PTL_FAIL (emit Ev_conn_put (emit (Ev_rdma_destroy_id new_id) w))
          else Done PTL_OK w
  else if WITH_TRANSPORT_SHMEM E then
    if negb (NDEBUG E) && (Z.land (options (ni w)) PTL_NI_PHYSICAL =? 0)
    then Aborted w
    else Done PTL_OK w
  else Done PTL_OK w.

(** [get_qp_param]; [cm_id] is the identifier of the connection. *)
Definition get_qp_param (w : world) : outcome unit :=
  match cm_id (conn w) with
  | None => Fault w
  | Some _ =>
      let '(rc, (inline, send_wr)) := ibv_query_qp E in
      if negb (NDEBUG E) && negb (rc =? 0) then Aborted w
      else if rc =? 0
      then Done tt (upd_conn (set_qp_param inline (send_wr / 4)) w)
      else Done tt w
  end.

(** [accept_connection_request]; the context of the identifier that the
    connection gives up is taken to be the connection, as the source
    asserts. *)
Definition accept_connection_request (event : rdma_cm_event) (w : world)
    : outcome ptl_ret :=
  let w := upd_conn (set_state CONN_STATE_CONNECTING) w in
  let w := emit (Ev_rdma_create_qp (ev_id event)) w in
  if negb (rdma_create_qp E =? 0) then
    Done PTL_FAIL (upd_conn (set_state CONN_STATE_DISCONNECTED) w)
  else
    let w := match cm_id (conn w) with
             | Some old => emit (Ev_set_context old Ctx_NULL) w
             | None => w
             end in
    let w := emit (Ev_set_context (ev_id event) Ctx_conn) w in
    let w := upd_conn (set_cm_id (Some (ev_id event))) w in
    let private := negb (Z.land (options (ni w)) PTL_NI_LOGICAL =? 0) in
    let w := emit (Ev_rdma_accept (ev_id event) private) w in
    if negb (rdma_accept E =? 0) then
      let w := emit (Ev_rdma_destroy_qp (Some (ev_id event))) w in
      Done PTL_FAIL
        (upd_conn (fun c => set_state CONN_STATE_DISCONNECTED
                              (set_cm_id None c)) w)
    else Done PTL_OK w.

Definition accept_connection_self (event : rdma_cm_event) (w : world)
    : outcome ptl_ret :=
  let w := upd_conn (set_state CONN_STATE_CONNECTING) w in
  let w := emit (Ev_rdma_create_qp (ev_id event)) w in
  if negb (rdma_create_qp E =? 0) then
    Done PTL_FAIL (upd_conn (set_state CONN_STATE_DISCONNECTED) w)
  else
    let w := set_self_cm_id (Some (ev_id event)) w in
    let w := emit (Ev_set_context (ev_id event) Ctx_ni) w in
    let w := emit (Ev_rdma_accept (ev_id event) false) w in
    if negb (rdma_accept E =? 0) then
      let w := emit (Ev_rdma_destroy_qp (Some (ev_id event))) w in
      Done PTL_FAIL (upd_conn (set_state CONN_STATE_DISCONNECTED) w)
    else Done PTL_OK w.

(** [flush_pending_xi_xt]: one turn of the [while] loop per pending
    buffer.  The state machines it calls are taken not to touch the
    list. *)
Fixpoint flush_loop (l : list (Z * Recv.buf_type)) (w : world)
    : outcome unit :=
  match l with
  | [] => Done tt (upd_conn (set_buf_list []) w)
  | (b, ty) :: l' =>
      let w := upd_conn (set_buf_list l') w in
      match ty with
      | Recv.BUF_TGT => flush_loop l' (emit (Ev_process_tgt b) w)
      | Recv.BUF_INIT => flush_loop l' (emit (Ev_process_init b) w)
      | _ =>
          if NDEBUG E then flush_loop l' (emit (Ev_process_init b) w)
          else Aborted w
      end
  end.

Definition flush_pending_xi_xt (w : world) : outcome unit :=
  flush_loop (buf_list (conn w)) w.

(** [process_connect_request] without [USE_XRC].  [ni] is what
    [iface->ni[ni_options_to_type(priv->options)]] holds and [found] what
    [get_conn] returns, the connection of the world with a reference taken
    or NULL. *)
Definition process_connect_request (event : rdma_cm_event)
    (ni_found conn_found : bool) (w : world) : outcome unit :=
  let reject reason w := Done tt (emit (Ev_rdma_reject (ev_id event) reason) w) in
  match ev_request event with
  | None => reject REJECT_REASON_BAD_PARAM w
  | Some priv =>
    if ev_private_data_len event <? sizeof_cm_priv_request
    then reject REJECT_REASON_BAD_PARAM w
    else if negb ni_found then reject REJECT_REASON_NO_NI w
    else if negb conn_found then reject REJECT_REASON_ERROR w
    else
      let w := emit Ev_conn_get w in
      let finish (o : outcome ptl_ret) : outcome unit :=
        match o with
        | Done _ w => Done tt w
        | Aborted w => Aborted w
        | Fault w => Fault w
        end in
      match state (conn w) with
      | CONN_STATE_CONNECTED =>
          reject REJECT_REASON_CONNECTED (emit Ev_conn_put w)
      | CONN_STATE_DISCONNECTED => finish (accept_connection_request event w)
      | CONN_STATE_DISCONNECTING => Aborted w
      | CONN_STATE_RESOLVING_ADDR | CONN_STATE_RESOLVING_ROUTE
      | CONN_STATE_CONNECTING =>
          let c := compare_id (src_id priv) (ni_id (ni w)) in
          if c >? 0 then finish (accept_connection_request event w)
          else if c <? 0
          then reject REJECT_REASON_CONNECTING (emit Ev_conn_put w)
          else finish (accept_connection_self event w)
      | CONN_STATE_XRC_CONNECTED => Done tt w
      end
  end.

(** [process_connect_reject] without [USE_XRC]. *)
Definition process_connect_reject (event : rdma_cm_event) (w : world)
    : outcome unit :=
  let bad w :=
    let w := upd_conn (set_state CONN_STATE_DISCONNECTED) w in
    Done tt (emit Ev_conn_put (emit (Ev_rdma_destroy_qp (cm_id (conn w))) w)) in
  if ev_status event =? 28 then
    match ev_reject event with
    | None => Fault w
    | Some REJECT_REASON_CONNECTED | Some REJECT_REASON_CONNECTING => Done tt w
    | Some _ => bad w
    end
  else bad w.

(** [assert(conn->rdma.cm_id == event->id)]. *)
Definition same_id (event : rdma_cm_event) (w : world) : bool :=
  match cm_id (conn w) with
  | Some i => i =? ev_id event
  | None => false
  end.

(** [process_cm_event] without [USE_XRC], from the event that
    [rdma_get_cm_event] has delivered.  [conn] is NULL unless the context of
    the identifier is the connection. *)
Definition process_cm_event (event : rdma_cm_event)
    (ni_found conn_found : bool) (w : world) : outcome unit :=
  let has_conn := match ev_context event with Ctx_conn => true | _ => false end in
  let ack (o : outcome unit) : outcome unit :=
    match o with
    | Done _ w => Done tt (emit Ev_rdma_ack_cm_event w)
    | o => o
    end in
  match ev_event event with
  | RDMA_CM_EVENT_ADDR_RESOLVED =>
      if negb has_conn then ack (Done tt w)
      else
        match state (conn w) with
        | CONN_STATE_RESOLVING_ADDR =>
            if negb (NDEBUG E) && negb (same_id event w) then Aborted w
            else
              let w := upd_conn (set_state CONN_STATE_RESOLVING_ROUTE) w in
              let w := emit (Ev_rdma_resolve_route (ev_id event)) w in
              if negb (rdma_resolve_route E =? 0) then
                let w := upd_conn (fun c => set_cm_id None
                                     (set_state CONN_STATE_DISCONNECTED c)) w in
                ack (Done tt (emit Ev_conn_put w))
              else ack (Done tt w)
        | _ => ack (Done tt (emit Ev_conn_put w))
        end
  | RDMA_CM_EVENT_ROUTE_RESOLVED =>
      if negb has_conn then ack (Done tt w)
      else
        match state (conn w) with
        | CONN_STATE_RESOLVING_ROUTE =>
            if negb (NDEBUG E) && negb (same_id event w) then Aborted w
            else
              let w := emit (Ev_rdma_create_qp (ev_id event)) w in
              if negb (rdma_create_qp E =? 0) then
                let w := upd_conn (fun c => set_cm_id None
                                     (set_state CONN_STATE_DISCONNECTED c)) w in
                ack (Done tt (emit Ev_conn_put w))
              else
                let w := emit (Ev_rdma_connect (ev_id event) (ni_id (ni w))
                                 (options (ni w))) w in
                if negb (rdma_connect E =? 0) then
                  let w := upd_conn (set_state CONN_STATE_DISCONNECTED) w in
                  let w := emit (Ev_rdma_destroy_qp (cm_id (conn w))) w in
                  let w := upd_conn (set_cm_id None) w in
                  ack (Done tt (emit Ev_conn_put w))
                else
                  ack (Done tt (upd_conn (set_state CONN_STATE_CONNECTING) w))
        | _ => ack (Done tt (emit Ev_conn_put w))
        end
  | RDMA_CM_EVENT_ESTABLISHED =>
      if negb has_conn then ack (Done tt w)
      else
        let w := set_num_conn (num_conn (ni w) + 1) w in
        match state (conn w) with
        | CONN_STATE_CONNECTING =>
            if negb (NDEBUG E) && negb (same_id event w) then Aborted w
            else
              match get_qp_param w with
              | Done _ w =>
                  let w := upd_conn (set_state CONN_STATE_CONNECTED) w in
                  ack (flush_pending_xi_xt w)
              | o => o
              end
        | _ => ack (Done tt w)
        end
  | RDMA_CM_EVENT_CONNECT_REQUEST =>
      ack (process_connect_request event ni_found conn_found w)
  | RDMA_CM_EVENT_REJECTED =>
      if negb has_conn then ack (Done tt w)
      else ack (process_connect_reject event w)
  | RDMA_CM_EVENT_DISCONNECTED =>
      if negb has_conn then
        match ev_context event with
        | Ctx_ni =>
            if negb (NDEBUG E)
               && negb (match self_cm_id (ni w) with
                        | Some i => i =? ev_id event
                        | None => false
                        end)
            then Aborted w
            else
              match self_cm_id (ni w) with
              | Some i =>
                  ack (Done tt (emit (Ev_rdma_destroy_qp (Some i))
                                  (emit (Ev_rdma_disconnect i) w)))
              | None => Fault w
              end
        | _ => Fault w
        end
      else
        match state (conn w) with
        | CONN_STATE_DISCONNECTED =>
            if NDEBUG E then
              match cm_id (conn w) with
              | Some i =>
                  let w := emit (Ev_rdma_destroy_qp (Some i))
                             (emit (Ev_rdma_disconnect i) w) in
                  ack (Done tt (set_num_conn (num_conn (ni w) - 1) w))
              | None => Fault w
              end
            else Aborted w
        | CONN_STATE_DISCONNECTING =>
            let w := upd_conn (set_state CONN_STATE_DISCONNECTED) w in
            ack (Done tt (set_num_conn (num_conn (ni w) - 1) w))
        | _ =>
            match cm_id (conn w) with
            | Some i =>
                let w := emit (Ev_rdma_destroy_qp (Some i))
                           (emit (Ev_rdma_disconnect i) w) in
                let w := upd_conn (set_state CONN_STATE_DISCONNECTED) w in
                ack (Done tt (set_num_conn (num_conn (ni w) - 1) w))
            | None => Fault w
            end
        end
  | RDMA_CM_EVENT_CONNECT_ERROR =>
      if negb has_conn then ack (Done tt w)
      else
        match state (conn w) with
        | CONN_STATE_DISCONNECTED => ack (Done tt w)
        | _ =>
            let w := upd_conn (set_state CONN_STATE_DISCONNECTED) w in
            match cm_id (conn w) with
            | None => Fault w
            | Some i =>
                let w := emit (Ev_set_context i Ctx_NULL) w in
                let w := emit (Ev_rdma_destroy_qp (Some i)) w in
                ack (Done tt (emit Ev_conn_put w))
            end
        end
  | RDMA_CM_EVENT_TIMEWAIT_EXIT => ack (Done tt w)
  | RDMA_CM_EVENT_OTHER => ack (Done tt w)
  end.

(** ** ptl_recv.c: the two places that drive the disconnect handshake *)

(** The fields of a send buffer that [send_comp] reads. *)
Record send_buf := {
  event_mask : Z;
  ni_fail : Z;
  operation : Z;
  buf_addr : Z
}.

(** [send_comp], for a buffer whose connection is the one of the world.
    The state it returns is always [STATE_RECV_DONE]. *)
Definition send_comp (buf : send_buf) (w : world)
    : outcome Recv.recv_state :=
  let finish w := Done Recv.STATE_RECV_DONE (emit Ev_buf_put w) in
  if negb (Z.land (event_mask buf) XX_SIGNALED =? 0)
     || (ni_fail buf =? PTL_NI_UNDELIVERABLE)
  then
    if operation buf <=? Recv.OP_SWAP
    then finish (emit (Ev_process_init (buf_addr buf)) w)
    else if operation buf =? OP_RDMA_DISC then
      if negb (NDEBUG E) && negb (local_disc (conn w) =? 1) then Aborted w
      else
        let w := upd_conn (set_local_disc 2) w in
        if negb (remote_disc (conn w) =? 0) then
          match disconnect_conn_locked w with
          | Done _ w => finish w
          | Aborted w => Aborted w
          | Fault w => Fault w
          end
        else finish w
    else finish w
  else finish w.





End Code.


Definition rejections (tr : list event) : list reject_reason :=
  omap (fun e => match e with Ev_rdma_reject _ r => Some r | _ => None end) tr.

(** The difference that [compare_id] looks at, as an integer. *)
Definition deciding (a b : ptl_process_t) : Z :=
  if nid a =? nid b then pid a - pid b else nid a - nid b.

(** A connection on which a connect of its own is under way. *)
Definition connecting (c : conn_t) : Prop :=
  state c = CONN_STATE_RESOLVING_ADDR \/
  state c = CONN_STATE_RESOLVING_ROUTE \/
  state c = CONN_STATE_CONNECTING.

(** What [process_connect_request] makes of a request: the connection is
    refused because a connect is under way, and left as it was; or the
    request goes to [accept_connection_request]. *)
Definition refused_connecting (i : Z) (w : world) (o : outcome unit) : Prop :=
  o = Done tt
        {| conn := conn w; ni := ni w;
           trace := trace w ++ [Ev_conn_get; Ev_conn_put;
                                Ev_rdma_reject i REJECT_REASON_CONNECTING] |}.

(** The calls of [rdma_accept] and the messages sent, among a list of
    events. *)
Definition accepts (tr : list event) : list Z :=
  omap (fun e => match e with Ev_rdma_accept i _ => Some i | _ => None end)
    tr.


(** The request is taken up, that is, it goes to
    [accept_connection_request]: nothing is rejected and the reference that
    [get_conn] took is kept.  The connection is then accepted on the
    identifier of the request, and left connecting, when [rdma_create_qp]
    and [rdma_accept] succeed; when one of them fails nothing is accepted
    and the connection is left disconnected. *)
Definition taken_up (E : env) (i : Z) (w : world) (o : outcome unit)
    : Prop :=
  exists w' tr,
    o = Done tt w' /\
    trace w' = trace w ++ Ev_conn_get :: Ev_rdma_create_qp i :: tr /\
    rejections tr = [] /\
    omap (fun e => match e with Ev_conn_put => Some tt | _ => None end) tr
      = [] /\
    if (rdma_create_qp E =? 0) && (rdma_accept E =? 0)
    then state (conn w') = CONN_STATE_CONNECTING /\
         cm_id (conn w') = Some i /\ accepts tr = [i]
    else state (conn w') = CONN_STATE_DISCONNECTED.


Definition gets (tr : list event) : nat :=
  List.length
    (omap (fun e => match e with Ev_conn_get => Some tt | _ => None end) tr).

Definition puts (tr : list event) : nat :=
  List.length
    (omap (fun e => match e with Ev_conn_put => Some tt | _ => None end) tr).

(** The buffers handed to the state machines, in order, with [true] for
    the target. *)
Definition flushed (tr : list event) : list (Z * bool) :=
  omap (fun e => match e with
                 | Ev_process_tgt b => Some (b, true)
                 | Ev_process_init b => Some (b, false)
                 | _ => None
                 end) tr.

(** The call that [flush_pending_xi_xt] makes for a pending buffer. *)
Definition flush_event (b : Z * Recv.buf_type) : event :=
  match b.2 with
  | Recv.BUF_TGT => Ev_process_tgt b.1
  | _ => Ev_process_init b.1
  end.

(** An event of the CM on the identifier [i] of a connection. *)
Definition cm_event (k : cm_event_type) (i : Z) : rdma_cm_event :=
  {| ev_event := k; ev_id := i; ev_context := Ctx_conn; ev_status := 0;
     ev_request := None; ev_reject := None; ev_private_data_len := 0 |}.

(** Sample data. *)
Definition sample_values : conn_values :=
  {| OP_RDMA_DISC := 6; XX_SIGNALED := 4; XX_INLINE := 8;
     PTL_NI_UNDELIVERABLE := 1; PTL_NI_LOGICAL := 4; PTL_NI_PHYSICAL := 8;
     sizeof_cm_priv_request := 12 |}.

Definition sample_env : env :=
  {| WITH_TRANSPORT_IB := true; WITH_TRANSPORT_SHMEM := false;
     NDEBUG := false;
     rdma_create_id := (0, 501); rdma_resolve_addr := 0;
     rdma_resolve_route := 0; rdma_create_qp := 0; rdma_connect := 0;
     rdma_accept := 0; ibv_query_qp := (0, (64, 128)); max_send_wr := 128;
     buf_alloc := (PTL_OK, Recv.BUF_FREE); send_message := PTL_OK |}.

Definition sample_conn (s : conn_state) (i : option Z) : conn_t :=
  {| id := {| nid := 0x0a000002; pid := 4661 |};
     transport_type := CONN_TYPE_RDMA; state := s; cm_id := i;
     local_disc := 0; remote_disc := 0; retry_resolve_addr := 0;
     retry_resolve_route := 0; retry_connect := 0; max_inline_data := 0;
     max_req_avail := 0;
     buf_list := [(8192, Recv.BUF_TGT); (12288, Recv.BUF_INIT)] |}.

Definition sample_world (s : conn_state) (i : option Z) : world :=
  {| conn := sample_conn s i;
     ni := {| ni_id := {| nid := 0x0a000001; pid := 4660 |}; options := 0;
              ni_type := 0; shutting_down := 0; num_conn := 0;
              self_cm_id := None |};
     trace := [] |}.

(** The node at the other end of [sample_world]. *)
Definition sample_peer (s : conn_state) (i : option Z) : world :=
  {| conn := {| id := {| nid := 0x0a000001; pid := 4660 |};
                transport_type := CONN_TYPE_RDMA; state := s; cm_id := i;
                local_disc := 0; remote_disc := 0; retry_resolve_addr := 0;
                retry_resolve_route := 0; retry_connect := 0;
                max_inline_data := 0; max_req_avail := 0; buf_list := [] |};
     ni := {| ni_id := {| nid := 0x0a000002; pid := 4661 |}; options := 0;
              ni_type := 0; shutting_down := 0; num_conn := 0;
              self_cm_id := None |};
     trace := [] |}.

(** A connect request from [src] on the identifier [i]. *)
Definition sample_request (i : Z) (src : ptl_process_t) : rdma_cm_event :=
  {| ev_event := RDMA_CM_EVENT_CONNECT_REQUEST; ev_id := i;
     ev_context := Ctx_NULL; ev_status := 0;
     ev_request := Some {| priv_options := 0; src_id := src |};
     ev_reject := None; ev_private_data_len := 12 |}.

(** An environment in which every call to the CM fails. *)
Definition sample_env_failing : env :=
  {| WITH_TRANSPORT_IB := true; WITH_TRANSPORT_SHMEM := false;
     NDEBUG := false;
     rdma_create_id := (0, 501); rdma_resolve_addr := 1;
     rdma_resolve_route := 1; rdma_create_qp := 1; rdma_connect := 1;
     rdma_accept := 1; ibv_query_qp := (1, (0, 0)); max_send_wr := 128;
     buf_alloc := (PTL_OK, Recv.BUF_FREE); send_message := PTL_OK |}.

End Conn.

(** ** ptl_recv.c: polling the completion queue *)

Module Poll.
Import Recv.

(** A work completion: the buffer that its [wr_id] names ([None] for
    NULL), its status (0 is success) and the number of bytes. *)
Record ibv_wc := {
  wr_id : option buf_t;
  status : Z;
  byte_len : Z
}.

(** [buf->length = wc->byte_len]. *)
Definition set_length (buf : buf_t) (len : Z) : buf_t :=
  {| buf_addr := buf_addr buf; type := type buf; length := len;
     hdr_version := hdr_version buf; hdr_operation := hdr_operation buf;
     hdr_handle := hdr_handle buf; hdr_data_in := hdr_data_in buf;
     hdr_data_out := hdr_data_out buf; hdr_src_nid := hdr_src_nid buf;
     hdr_src_pid := hdr_src_pid buf;
     data_in := data_in buf; data_out := data_out buf;
     tgt_state_of := tgt_state_of buf; recv_buf := recv_buf buf |}.

(** What [comp_poll] leaves of a completion: the buffer, whether its
    [ni_fail] has been set to [PTL_NI_UNDELIVERABLE], and its
    [recv_state]. *)
Record polled := {
  p_buf : buf_t;
  ni_fail_set : bool;
  p_state : recv_state
}.

(** One turn of the [for] loop of [comp_poll]: the entry it stores in
    [buf_list]. *)
Definition comp_poll_one (wc : ibv_wc) : option polled :=
  match wr_id wc with
  | None => None
  | Some buf =>
      let buf := set_length buf (byte_len wc) in
      Some
        (if negb (status wc =? 0) then
           match type buf with
           | BUF_SEND =>
               {| p_buf := buf; ni_fail_set := true;
                  p_state := STATE_RECV_SEND_COMP |}
           | BUF_RDMA =>
               {| p_buf := buf; ni_fail_set := false;
                  p_state := STATE_RECV_ERROR |}
           | _ =>
               {| p_buf := buf; ni_fail_set := false;
                  p_state := STATE_RECV_DROP_BUF |}
           end
         else
           {| p_buf := buf; ni_fail_set := false;
              p_state := match type buf with
                         | BUF_SEND => STATE_RECV_SEND_COMP
                         | BUF_RDMA => STATE_RECV_RDMA_COMP
                         | BUF_RECV => STATE_RECV_PACKET_RDMA
                         | _ => STATE_RECV_ERROR
                         end |})
  end.

(** [comp_poll], from what [ibv_poll_cq] has returned: [ret], and the
    array [wc_list], of which it has filled the first [ret] entries. *)
Definition comp_poll (ret : Z) (wc_list : list ibv_wc)
    : Z * list (option polled) :=
  if ret <=? 0 then (0, [])
  else (ret, map comp_poll_one (take (Z.to_nat ret) wc_list)).

Section Progress.
Context {H : hdr_values}.
Variable E : env.

(** The [for] loop of [progress_thread_ib]. *)
Fixpoint process_all (fuel : nat) (buf_list : list (option polled))
    (w : world) : outcome :=
  match buf_list with
  | [] => Finished w
  | None :: rest => process_all fuel rest w
  | Some p :: rest =>
      match process_recv_rdma E fuel (p_state p) (p_buf p) w with
      | Finished w' => process_all fuel rest w'
      | o => o
      end
  end.

Definition progress_thread_ib (fuel : nat) (ret : Z) (wc_list : list ibv_wc)
    (w : world) : outcome :=
  let '(_, buf_list) := comp_poll ret wc_list in
  process_all fuel buf_list w.

End Progress.

(** A completion in error of a buffer that is neither a send nor an RDMA
    buffer, or of no buffer at all. *)
Definition failed_receive (wc : ibv_wc) : Prop :=
  match wr_id wc with
  | None => True
  | Some buf =>
      status wc <> 0 /\ type buf <> BUF_SEND /\ type buf <> BUF_RDMA
  end.

(** The buffers that a list of completions names. *)
Definition named (wcs : list ibv_wc) : list buf_t := omap wr_id wcs.

(** The buffers released and the buffers taken off the list of posted
    receives, among a list of events. *)
Definition released (tr : list event) : list Z :=
  omap (fun e => match e with Ev_buf_put a => Some a | _ => None end) tr.

Definition list_dels (tr : list event) : list Z :=
  omap (fun e => match e with Ev_list_del a => Some a | _ => None end) tr.

(** Sample data: a receive that failed, a send completed without a buffer,
    and a receive of a request. *)
Definition sample_wcs : list ibv_wc :=
  [ {| wr_id := Some (sample_buf 1 1 0); status := 5; byte_len := 0 |};
    {| wr_id := None; status := 12; byte_len := 0 |};
    {| wr_id := Some (sample_buf 1 1 0); status := 0; byte_len := 80 |} ].

End Poll.

(** ** ni.c: the reservation of a pid *)

Module PpePid.
Import Ppe.

(** The world once the client [peer] has taken the pid [k]. *)
Definition took_pid (peer k : Z) (cl : ptl_ppe_client_t) (w : world)
    : world :=
  {| ctx := {| clients := <[Z.to_nat peer := {| client_pid := k;
                                                  nis := nis cl |}]>
                            (clients (ctx w));
               pids := <[Z.to_nat k := peer]> (pids (ctx w));
               page_size := page_size (ctx w); nid := nid (ctx w);
               ctx_ni := ctx_ni (ctx w) |};
     limits_mem := limits_mem w;
     trace := trace w |}.

(** [k] is the first free slot of [ctx->pids]. *)
Definition lowest_free (c : ptl_ppe_t) (k : Z) : Prop :=
  index (pids c) k = Some (-1) /\
  forall j, 0 <= j < k -> exists p, index (pids c) j = Some p /\ p <> -1.

(** The two ways in which [ni_init_impl] reserves a pid for a client that
    has none: the lowest free one for [PTL_PID_ANY]; the one asked for, when
    it is free. *)
Definition reserves `{pid_values} (cmd : ptl_cqe_niinit_t) (c : ptl_ppe_t)
    (k : Z) : Prop :=
  (cmd_pid cmd = PTL_PID_ANY /\ 0 <= k < PTL_PID_MAX /\ lowest_free c k) \/
  (cmd_pid cmd <> PTL_PID_ANY /\ k = cmd_pid cmd /\
   index (pids c) k = Some (-1)).

(** The pid [k] is reserved by the client [peer], and is the pid of that
    client. *)
Definition holds_pid (peer k : Z) (c : ptl_ppe_t) : Prop :=
  index (pids c) k = Some peer /\
  exists cl, index (clients c) peer = Some cl /\ client_pid cl = k.

(** From [c] to [c'] no reservation is given up: a slot that is taken is
    taken by the same client, and a client that has a pid has the same. *)
Definition pid_kept (c c' : ptl_ppe_t) : Prop :=
  (forall j p, index (pids c) j = Some p -> p <> -1 ->
               index (pids c') j = Some p) /\
  (forall peer cl, index (clients c) peer = Some cl ->
                   client_pid cl <> -1 ->
                   exists cl', index (clients c') peer = Some cl' /\
                               client_pid cl' = client_pid cl).

Definition keeps {A} (m : M A) : Prop :=
  forall w,
    match m w with
    | Ok _ w' | Fault w' => pid_kept (ctx w) (ctx w')
    end.

(** Sample data: a context with one pid taken, seen from a client that has
    none, and a PPE in which no attachment succeeds. *)
Definition fresh_world : world :=
  {| ctx := {| clients := [ {| client_pid := -1; nis := [ni_zero] |} ];
               pids := [7; -1]; page_size := 4096; nid := 9; ctx_ni := 77 |};
     limits_mem := ∅;
     trace := [] |}.

Definition no_attach_env : env :=
  {| ppe_xpmem_attach := fun _ _ => None;
     sizeof_ptl_ni_limits_t := 96;
     malloc := fun k _ => Some (5000 + 100 * Z.of_nat k);
     sizeof_ppe_md := 16; sizeof_ppe_me := 16; sizeof_ppe_le := 16;
     sizeof_ppe_pt := 16; sizeof_ppe_eq := 16; sizeof_ppe_ct := 16;
     ptl_cq_entry_alloc := 0; ptl_cq_entry_send := 0;
     read_null := None |}.

End PpePid.

(** * Properties *)

(** ** Arithmetic helpers *)

Lemma testbit_255 n : Z.testbit 255 n = (0 <=? n) && (n <? 8).
Proof. change 255 with (Z.ones 8). apply Z.testbit_ones. lia. Qed.

Lemma land_ones_small w x : 0 <= w -> 0 <= x < 2 ^ w -> Z.land x (Z.ones w) = x.
Proof. intros Hw Hx. rewrite Z.land_ones by lia. apply Z.mod_small. lia. Qed.

Lemma u16_small x : in_u16 x -> u16 x = x.
Proof. apply land_ones_small. lia. Qed.

Lemma u32_small x : in_u32 x -> u32 x = x.
Proof. apply land_ones_small. lia. Qed.

Lemma u64_small x : in_u64 x -> u64 x = x.
Proof. apply land_ones_small. lia. Qed.

Lemma u64_range x : in_u64 (u64 x).
Proof.
  unfold u64, in_u64. rewrite Z.land_ones by lia.
  apply Z.mod_pos_bound. lia.
Qed.

(** Decide every [<?] and [<=?] of the goal from the linear facts at hand. *)
Ltac cmp_tac :=
  repeat match goal with
  | |- context [(?a <? ?b)] =>
      first [ rewrite (proj2 (Z.ltb_lt a b)) by lia
            | rewrite (proj2 (Z.ltb_ge a b)) by lia ]
  | |- context [(?a <=? ?b)] =>
      first [ rewrite (proj2 (Z.leb_le a b)) by lia
            | rewrite (proj2 (Z.leb_gt a b)) by lia ]
  end.

(** Push [Z.testbit] through the bit operations at a non-negative index. *)
Ltac bits_tac :=
  repeat first
    [ rewrite Z.lor_spec
    | rewrite Z.land_spec
    | rewrite Z.shiftl_spec by lia
    | rewrite Z.shiftr_spec by lia
    | rewrite testbit_255
    | rewrite Z.testbit_ones by lia ].

Ltac bool_tac :=
  rewrite ?andb_false_r, ?andb_true_r, ?orb_false_r, ?orb_false_l,
          ?andb_false_l, ?andb_true_l, ?orb_true_r, ?orb_true_l.

(** ** Wire encoding *)

Section WireFacts.
Import Wire.

Lemma htons_testbit x n : 0 <= n ->
  Z.testbit (htons x) n =
    if n <? 8 then Z.testbit x (n + 8)
    else if n <? 16 then Z.testbit x (n - 8)
    else false.
Proof.
  intros Hn. unfold htons.
  destruct (Z.ltb_spec n 8); [|destruct (Z.ltb_spec n 16)].
  all: bits_tac.
  all: rewrite ?(Z.testbit_neg_r _ (n - 8)) by lia.
  all: cmp_tac; bool_tac; simpl; bits_tac.
  all: try reflexivity; f_equal; lia.
Qed.

Lemma htonl_testbit x n : 0 <= n ->
  Z.testbit (htonl x) n =
    if n <? 8 then Z.testbit x (n + 24)
    else if n <? 16 then Z.testbit x (n + 8)
    else if n <? 24 then Z.testbit x (n - 8)
    else if n <? 32 then Z.testbit x (n - 24)
    else false.
Proof.
  intros Hn. unfold htonl.
  destruct (Z.ltb_spec n 8);
    [|destruct (Z.ltb_spec n 16);
      [|destruct (Z.ltb_spec n 24); [|destruct (Z.ltb_spec n 32)]]].
  all: bits_tac.
  all: rewrite ?(Z.testbit_neg_r _ (n - 24)), ?(Z.testbit_neg_r _ (n - 16)),
         ?(Z.testbit_neg_r _ (n - 8)) by lia.
  all: cmp_tac; bool_tac; simpl; bits_tac.
  all: try reflexivity; f_equal; lia.
Qed.

(** Swapping twice keeps the low 16 (32) bits and drops the rest. *)
Lemma htons_htons x : htons (htons x) = u16 x.
Proof.
  apply Z.bits_inj'. intros n Hn. unfold u16.
  rewrite htons_testbit, Z.land_spec, Z.testbit_ones by lia.
  destruct (Z.ltb_spec n 8); [|destruct (Z.ltb_spec n 16)].
  all: rewrite ?htons_testbit by lia; cmp_tac; bool_tac.
  all: try reflexivity; f_equal; lia.
Qed.

Lemma htonl_htonl x : htonl (htonl x) = u32 x.
Proof.
  apply Z.bits_inj'. intros n Hn. unfold u32.
  rewrite htonl_testbit, Z.land_spec, Z.testbit_ones by lia.
  destruct (Z.ltb_spec n 8);
    [|destruct (Z.ltb_spec n 16);
      [|destruct (Z.ltb_spec n 24); [|destruct (Z.ltb_spec n 32)]]].
  all: rewrite ?htonl_testbit by lia; cmp_tac; bool_tac.
  all: try reflexivity; f_equal; lia.
Qed.

Lemma u32_testbit x n : 0 <= n ->
  Z.testbit (u32 x) n = Z.testbit x n && (n <? 32).
Proof.
  intros Hn. unfold u32. rewrite Z.land_spec, Z.testbit_ones by lia.
  cmp_tac. reflexivity.
Qed.

Lemma u64_testbit x n : 0 <= n ->
  Z.testbit (u64 x) n = Z.testbit x n && (n <? 64).
Proof.
  intros Hn. unfold u64. rewrite Z.land_spec, Z.testbit_ones by lia.
  cmp_tac. reflexivity.
Qed.

(** Bit [n] of [cpu_to_be64 x]: the two byte-swapped halves change places. *)
Lemma cpu_to_be64_testbit x n : 0 <= n ->
  Z.testbit (cpu_to_be64 x) n =
    if n <? 32 then Z.testbit (htonl (u32 (Z.shiftr x 32))) n
    else if n <? 64 then Z.testbit (htonl (u32 x)) (n - 32)
    else false.
Proof.
  intros Hn. unfold cpu_to_be64. cbv zeta.
  rewrite Z.lor_spec, u64_testbit by lia.
  destruct (Z.ltb_spec n 32); [|destruct (Z.ltb_spec n 64)].
  - rewrite Z.shiftl_spec, Z.testbit_neg_r by lia. reflexivity.
  - rewrite Z.shiftl_spec by lia.
    rewrite (htonl_testbit _ n) by lia. cmp_tac. bool_tac. reflexivity.
  - rewrite (htonl_testbit _ n) by lia. cmp_tac. bool_tac. reflexivity.
Qed.

Lemma cpu_to_be64_invol x : cpu_to_be64 (cpu_to_be64 x) = u64 x.
Proof.
  apply Z.bits_inj'. intros n Hn.
  rewrite cpu_to_be64_testbit, u64_testbit by lia.
  destruct (Z.ltb_spec n 32); [|destruct (Z.ltb_spec n 64)].
  - (* low half: the former high half of the inner result, swapped back *)
    assert (E : u32 (Z.shiftr (cpu_to_be64 x) 32) = htonl (u32 x)).
    { apply Z.bits_inj'. intros m Hm.
      rewrite u32_testbit, Z.shiftr_spec, cpu_to_be64_testbit by lia.
      destruct (Z.ltb_spec m 32).
      - cmp_tac. bool_tac. f_equal. lia.
      - rewrite (htonl_testbit _ m) by lia. cmp_tac. bool_tac. reflexivity. }
    rewrite E, htonl_htonl, !u32_testbit by lia. cmp_tac. bool_tac. reflexivity.
  - assert (E : u32 (cpu_to_be64 x) = htonl (u32 (Z.shiftr x 32))).
    { apply Z.bits_inj'. intros m Hm.
      rewrite u32_testbit, cpu_to_be64_testbit by lia.
      destruct (Z.ltb_spec m 32).
      - cmp_tac. bool_tac. reflexivity.
      - rewrite (htonl_testbit _ m) by lia. cmp_tac. bool_tac. reflexivity. }
    rewrite E, htonl_htonl, !u32_testbit, Z.shiftr_spec by lia.
    cmp_tac. bool_tac. f_equal. lia.
  - bool_tac. reflexivity.
Qed.

Lemma be16_roundtrip x : in_u16 x -> be16_to_cpu (cpu_to_be16 x) = x.
Proof.
  intros Hx. unfold be16_to_cpu, cpu_to_be16.
  rewrite htons_htons. apply u16_small, Hx.
Qed.

Lemma be32_roundtrip x : in_u32 x -> be32_to_cpu (cpu_to_be32 x) = x.
Proof.
  intros Hx. unfold be32_to_cpu, cpu_to_be32.
  rewrite htonl_htonl. apply u32_small, Hx.
Qed.

Lemma be64_roundtrip x : in_u64 x -> be64_to_cpu (cpu_to_be64 x) = x.
Proof.
  intros Hx. unfold be64_to_cpu.
  rewrite cpu_to_be64_invol. apply u64_small, Hx.
Qed.

Lemma decode_encode h : decode (encode h) = h.
Proof. destruct h. reflexivity. Qed.

Lemma decode_encode_be h : legal_hdr h -> decode_be (encode_be h) = h.
Proof.
  unfold legal_hdr. destruct h. simpl. intros H.
  repeat match type of H with _ /\ _ => destruct H as [? H] end.
  unfold decode_be, encode_be. simpl.
  rewrite !be32_roundtrip, !be64_roundtrip by assumption. reflexivity.
Qed.

(** C7.  Wire encoding round-trips: for a header field [x] of each width,
    converting to the wire byte order and back yields [x], for the
    little-endian helpers ([le16], [le32], [le64]) and for the big-endian ones
    ([be16], [be32], [be64]); hence decoding the encoding of a legal header
    [h] gives back [h], in the little-endian layout and in the big-endian
    one. *)
Theorem wire_roundtrip (x16 x32 x64 : Z) (h : req_hdr_t) :
  in_u16 x16 -> in_u32 x32 -> in_u64 x64 -> legal_hdr h ->
  le16_to_cpu (cpu_to_le16 x16) = x16 /\
  le32_to_cpu (cpu_to_le32 x32) = x32 /\
  le64_to_cpu (cpu_to_le64 x64) = x64 /\
  be16_to_cpu (cpu_to_be16 x16) = x16 /\
  be32_to_cpu (cpu_to_be32 x32) = x32 /\
  be64_to_cpu (cpu_to_be64 x64) = x64 /\
  decode (encode h) = h /\
  decode_be (encode_be h) = h.
Proof.
  intros H16 H32 H64 Hh.
  repeat split; try reflexivity.
  - apply be16_roundtrip, H16.
  - apply be32_roundtrip, H32.
  - apply be64_roundtrip, H64.
  - apply decode_encode.
  - apply decode_encode_be, Hh.
Qed.

Lemma wire_roundtrip_witness :
  be64_to_cpu (cpu_to_be64 0x0102030405060708) = 0x0102030405060708 /\
  decode (encode sample_hdr) = sample_hdr /\
  decode_be (encode_be sample_hdr) = sample_hdr.
Proof.
  assert (H16 : in_u16 0xbeef) by (unfold in_u16; lia).
  assert (H32 : in_u32 0xdeadbeef) by (unfold in_u32; lia).
  assert (H64 : in_u64 0x0102030405060708) by (unfold in_u64; lia).
  assert (Hh : legal_hdr sample_hdr)
    by (unfold legal_hdr, in_u8, in_u32, in_u64; simpl; lia).
  destruct (wire_roundtrip 0xbeef 0xdeadbeef 0x0102030405060708 sample_hdr
              H16 H32 H64 Hh) as (_ & _ & _ & _ & _ & H & Hd & Hb).
  exact (conj H (conj Hd Hb)).
Defined.

Example htonl_bytes : htonl 0x01020304 = 0x04030201.
Proof. reflexivity. Qed.

Example cpu_to_be64_bytes : cpu_to_be64 0x0102030405060708 = 0x0807060504030201.
Proof. reflexivity. Qed.

End WireFacts.

(** ** Submission checks *)

Section MoveFacts.
Import Move.
Context {ack : ack_req_values}.

Lemma op_info_table :
  op_info =
  [ Info 1 0 1 0 0; Info 1 0 1 0 0; Info 1 1 1 0 0; Info 1 1 1 0 0;
    Info 0 0 1 0 0; Info 0 0 1 0 0; Info 0 0 1 0 0; Info 0 0 1 0 0;
    Info 0 0 1 0 0; Info 0 0 1 0 0; Info 1 1 0 1 0; Info 1 1 0 1 1;
    Info 1 1 0 1 1; Info 1 0 0 1 1; Info 1 0 0 1 1; Info 1 0 0 1 1;
    Info 1 0 0 1 1; Info 0 0 0 1 1 ].
Proof. reflexivity. Qed.

Lemma atom_type_size_table :
  atom_type_size = [1; 1; 2; 2; 4; 4; 8; 8; 4; 8; 8; 16].
Proof. reflexivity. Qed.

(** Case analysis on an integer known to lie in a short interval. *)
Ltac enum_Z x lo hi :=
  let rec go k n :=
    lazymatch n with
    | O => exfalso; lia
    | S ?n' =>
        let H := fresh "E" in
        destruct (Z.eq_dec x k) as [H|H];
        [ subst x | let k' := eval compute in (k + 1) in go k' n' ]
    end in
  let n := eval compute in (Z.to_nat (hi - lo)) in
  go lo n.

Lemma is_null_true {A} (p : option A) : is_null p = true <-> p = None.
Proof. destruct p; simpl; split; congruence. Qed.

Lemma is_null_false {A} (p : option A) : is_null p = false <-> p <> None.
Proof. destruct p; simpl; split; congruence. Qed.

(** Turn the boolean tests recorded by [destruct ... eqn] into facts for
    [lia]. *)
Ltac bool_hyps :=
  repeat match goal with
  | H : (_ || _) = true |- _ => apply orb_true_iff in H; destruct H
  | H : (_ || _) = false |- _ => apply orb_false_iff in H; destruct H
  | H : (_ && _) = true |- _ => apply andb_true_iff in H; destruct H
  | H : (_ && _) = false |- _ => apply andb_false_iff in H; destruct H
  | H : negb _ = true |- _ => apply negb_true_iff in H
  | H : negb _ = false |- _ => apply negb_false_iff in H
  | H : (_ <? _) = true |- _ => apply Z.ltb_lt in H
  | H : (_ <? _) = false |- _ => apply Z.ltb_ge in H
  | H : (_ <=? _) = true |- _ => apply Z.leb_le in H
  | H : (_ <=? _) = false |- _ => apply Z.leb_gt in H
  | H : (_ >? _) = true |- _ => rewrite Z.gtb_ltb in H
  | H : (_ >? _) = false |- _ => rewrite Z.gtb_ltb in H
  | H : (_ >=? _) = true |- _ => rewrite Z.geb_leb in H
  | H : (_ >=? _) = false |- _ => rewrite Z.geb_leb in H
  | H : (_ =? _) = true |- _ => apply Z.eqb_eq in H
  | H : (_ =? _) = false |- _ => apply Z.eqb_neq in H
  | H : is_null _ = true |- _ => apply is_null_true in H
  | H : is_null _ = false |- _ => apply is_null_false in H
  end.

(** Walk down a chain of [if c then r else ...], closing the branch that
    returns at once. *)
Ltac walk :=
  repeat match goal with
  | |- (if ?c then _ else _) = _ => destruct c eqn:?; [reflexivity|]
  end.

Lemma elem_of_family (x : Z) (l : list Z) :
  x ∈ l <-> existsb (Z.eqb x) l = true.
Proof.
  rewrite existsb_exists. split.
  - intros Hx. exists x. split; [apply list_elem_of_In, Hx|apply Z.eqb_refl].
  - intros (y & Hy & E). apply Z.eqb_eq in E. subst y.
    apply list_elem_of_In, Hy.
Qed.

Lemma atomic_forbidden_arith atom_op atom_type :
  atomic_forbidden atom_op atom_type <->
  atom_op < 0 \/ atom_op >= 18 \/ 10 <= atom_op <= 17 \/
  ((atom_type = 8 \/ atom_type = 10) /\ 4 <= atom_op <= 9) \/
  ((atom_type = 9 \/ atom_type = 11) /\ (0 <= atom_op <= 1 \/ 4 <= atom_op <= 9)).
Proof.
  unfold atomic_forbidden, is_float_type, is_complex_type.
  rewrite !elem_of_family. simpl.
  unfold PTL_MIN, PTL_MAX, PTL_OP_LAST, PTL_FLOAT, PTL_DOUBLE,
    PTL_FLOAT_COMPLEX, PTL_DOUBLE_COMPLEX, PTL_LOR, PTL_LAND, PTL_BOR,
    PTL_BAND, PTL_LXOR, PTL_BXOR, PTL_SWAP, PTL_CSWAP, PTL_CSWAP_NE,
    PTL_CSWAP_LE, PTL_CSWAP_LT, PTL_CSWAP_GE, PTL_CSWAP_GT, PTL_MSWAP.
  rewrite !orb_false_r, !orb_true_iff, !Z.eqb_eq. lia.
Qed.

(** [check_atomic] rejects everything the matrix forbids, whatever the other
    arguments are. *)
Lemma check_atomic_forbidden md local_offset length ack_req atom_op atom_type :
  atomic_forbidden atom_op atom_type ->
  check_atomic md local_offset length (to_ni md) ack_req atom_op atom_type
    = Some PTL_ARG_INVALID.
Proof.
  intros F. apply atomic_forbidden_arith in F.
  unfold check_atomic. destruct md as [m|]; [|reflexivity]. simpl.
  walk.
  match goal with H : (atom_op <? _) || _ = false |- _ =>
    unfold PTL_MIN, PTL_OP_LAST in H; apply orb_false_iff in H;
    destruct H as [Hlo Hhi]; apply Z.ltb_ge in Hlo;
    rewrite Z.geb_leb in Hhi; apply Z.leb_gt in Hhi
  end.
  clear - F Hlo Hhi.
  enum_Z atom_op 0 18; rewrite op_info_table; simpl; try reflexivity; walk;
    unfold PTL_FLOAT, PTL_DOUBLE, PTL_FLOAT_COMPLEX, PTL_DOUBLE_COMPLEX in *;
    bool_hyps; try discriminate; exfalso; lia.
Qed.

Lemma no_xi_fail r (tr : list event) :
  Forall (fun e => match e with
                   | Ev_xi_alloc _ | Ev_process_init _ => False
                   | _ => True end) tr ->
  no_xi (Returns r tr).
Proof. intros H e He. rewrite list.Forall_forall in H. apply H, He. Qed.

(** C1 (amended).  [check_atomic] enforces the atomic op matrix: it answers
    [PTL_ARG_INVALID] whenever [atom_op] is outside [[PTL_MIN, PTL_OP_LAST)],
    or belongs to the SWAP/CSWAP/MSWAP family, or [atom_type] is FLOAT/DOUBLE
    and the operation is logical or bitwise, or [atom_type] is complex and
    the operation is MIN, MAX, logical or bitwise.  In a build with
    [PTL_CHECK_BUILD], once the library is initialised and [md_get] has
    resolved the handle, [PtlAtomic] then returns [PTL_ARG_INVALID] at
    submission, after releasing the MD and the library and without
    allocating or starting an XI. *)
Theorem PtlAtomic_enforces_matrix (E : env)
    (md_handle local_offset length ack_req target_id pt_index match_bits
     remote_offset user_ptr hdr_data atom_op atom_type : Z)
    (md : option md_t) :
  atomic_forbidden atom_op atom_type ->
  check_atomic md local_offset length (to_ni md) ack_req atom_op atom_type
    = Some PTL_ARG_INVALID /\
  (PTL_CHECK_BUILD E = true ->
   get_gbl E = PTL_OK ->
   md_get E md_handle = (PTL_OK, md) ->
   PtlAtomic E md_handle local_offset length ack_req target_id pt_index
     match_bits remote_offset user_ptr hdr_data atom_op atom_type
     = Returns PTL_ARG_INVALID [Ev_md_put md; Ev_gbl_put] /\
   no_xi (PtlAtomic E md_handle local_offset length ack_req target_id
            pt_index match_bits remote_offset user_ptr hdr_data atom_op
            atom_type)).
Proof.
  intros F. split; [apply check_atomic_forbidden, F|].
  intros Hb Hg Hm.
  assert (R : PtlAtomic E md_handle local_offset length ack_req target_id
                pt_index match_bits remote_offset user_ptr hdr_data atom_op
                atom_type
              = Returns PTL_ARG_INVALID [Ev_md_put md; Ev_gbl_put]).
  { unfold PtlAtomic. rewrite Hg, Hm, Hb. simpl.
    rewrite check_atomic_forbidden by exact F. reflexivity. }
  split; [exact R|]. rewrite R. apply no_xi_fail.
  repeat constructor.
Qed.

(** The matrix is not only necessary: a submission that the matrix admits and
    whose other arguments are in order passes [check_atomic]. *)
Lemma check_atomic_admitted m n local_offset length ack_req atom_op atom_type :
  u64 (local_offset + length) <= md_length m ->
  length <= max_atomic_size (limits n) ->
  PTL_NO_ACK_REQ <= ack_req <= PTL_OC_ACK_REQ ->
  (ack_req = PTL_ACK_REQ -> md_eq m <> None) ->
  (ack_req = PTL_CT_ACK_REQ -> md_ct m <> None) ->
  PTL_CHAR <= atom_type < PTL_DATATYPE_LAST ->
  ~ atomic_forbidden atom_op atom_type ->
  check_atomic (Some m) local_offset length (Some n) ack_req atom_op atom_type
    = Some PTL_OK.
Proof.
  intros Hlen Hmax Hack Heq Hct Hty NF.
  unfold check_atomic. simpl.
  repeat match goal with
  | |- (if ?c then _ else _) = _ =>
      destruct c eqn:?;
        [ exfalso; bool_hyps;
          solve [lia | apply Heq; assumption | apply Hct; assumption] |]
  end.
  rewrite atomic_forbidden_arith in NF.
  unfold PTL_CHAR, PTL_DATATYPE_LAST in Hty.
  assert (Hop : 0 <= atom_op < 18) by lia.
  clear - NF Hop Hty.
  enum_Z atom_op 0 18; rewrite op_info_table; simpl; try (exfalso; lia);
    enum_Z atom_type 0 12; simpl; try reflexivity; exfalso; lia.
Qed.

Lemma check_put_refused m local_offset length ack_req :
  in_u64 (local_offset + length) ->
  put_refused m local_offset length ack_req ->
  check_put (Some m) local_offset length ack_req (Some (md_ni m))
    = Some PTL_ARG_INVALID.
Proof.
  intros Hsum R. unfold check_put. rewrite (u64_small _ Hsum).
  walk. simpl. walk. exfalso.
  unfold put_refused, put_refused_as_claimed in R.
  bool_hyps; intuition (try lia; try congruence).
Qed.

Lemma check_put_accepted m local_offset length ack_req :
  in_u64 (local_offset + length) ->
  ~ put_refused m local_offset length ack_req ->
  check_put (Some m) local_offset length ack_req (Some (md_ni m))
    = Some PTL_OK.
Proof.
  intros Hsum R. unfold check_put. rewrite (u64_small _ Hsum).
  unfold put_refused, put_refused_as_claimed in R.
  repeat match goal with
  | |- (if ?c then _ else _) = _ =>
      destruct c eqn:?; [exfalso; apply R; bool_hyps; solve [intuition lia]|]
  end.
  simpl.
  repeat match goal with
  | |- (if ?c then _ else _) = _ =>
      destruct c eqn:?; [exfalso; apply R; bool_hyps; solve [intuition lia]|]
  end.
  reflexivity.
Qed.

(** C2 (amended).  In a build with [PTL_CHECK_BUILD], once the library is
    initialised and [md_get] has resolved the handle to an MD, and for
    64-bit [local_offset] and [length] whose sum does not wrap: [PtlPut]
    returns [PTL_ARG_INVALID] synchronously, without allocating or starting
    an XI, whenever [ack_req = ACK] and the MD has no EQ, or
    [ack_req = CT_ACK] and the MD has no CT, or [length] exceeds
    [max_msg_size], or [local_offset + length] exceeds the MD's length, or
    [ack_req] lies outside [[PTL_NO_ACK_REQ, PTL_OC_ACK_REQ]].  Otherwise it
    returns [PTL_OK] and starts exactly one XI when [xi_alloc] succeeds, and
    returns the error of [xi_alloc], with no XI, when it does not. *)
Theorem PtlPut_checks (E : env)
    (md_handle local_offset length ack_req target_id pt_index match_bits
     remote_offset user_ptr hdr_data : Z) (m : md_t) :
  PTL_CHECK_BUILD E = true ->
  get_gbl E = PTL_OK ->
  md_get E md_handle = (PTL_OK, Some m) ->
  in_u64 local_offset -> in_u64 length -> local_offset + length < 2 ^ 64 ->
  let call := PtlPut E md_handle local_offset length ack_req target_id
                pt_index match_bits remote_offset user_ptr hdr_data in
  (put_refused m local_offset length ack_req ->
     call = Returns PTL_ARG_INVALID [Ev_md_put (Some m); Ev_gbl_put] /\
     no_xi call) /\
  (~ put_refused m local_offset length ack_req ->
     forall err xi, xi_alloc E (md_ni m) = (err, xi) ->
       if is_err err
       then call = Returns err [Ev_md_put (Some m); Ev_gbl_put] /\ no_xi call
       else exists xi',
         call = Returns PTL_OK
                  [Ev_xi_alloc (md_ni m); Ev_process_init xi'; Ev_gbl_put] /\
         xi_operation xi' = Some OP_PUT /\ xi_put_md xi' = Some m /\
         xi_ack_req xi' = ack_req /\ xi_rlength xi' = length /\
         xi_put_offset xi' = local_offset /\
         xi_state xi' = Some STATE_INIT_START).
Proof.
  intros Hb Hg Hm Hlo Hlen Hsum call.
  assert (Hs : in_u64 (local_offset + length))
    by (unfold in_u64 in *; lia).
  split.
  - intros R.
    assert (C : call = Returns PTL_ARG_INVALID [Ev_md_put (Some m); Ev_gbl_put]).
    { unfold call, PtlPut. rewrite Hg, Hm, Hb. cbn -[check_put].
      rewrite check_put_refused by assumption. reflexivity. }
    split; [exact C|]. rewrite C. apply no_xi_fail. repeat constructor.
  - intros R err xi Hx.
    assert (C : call =
      if is_err err then Returns err [Ev_md_put (Some m); Ev_gbl_put]
      else Returns PTL_OK
        [Ev_xi_alloc (md_ni m);
         Ev_process_init
           {| xi_operation := Some OP_PUT; xi_target := target_id;
              xi_uid := uid (md_ni m); xi_jid := rt_jid (md_ni m);
              xi_pt_index := pt_index; xi_match_bits := match_bits;
              xi_ack_req := ack_req; xi_put_md := Some m;
              xi_get_md := xi_get_md xi; xi_hdr_data := hdr_data;
              xi_operand := xi_operand xi; xi_user_ptr := user_ptr;
              xi_threshold := 0; xi_atom_op := xi_atom_op xi;
              xi_atom_type := xi_atom_type xi; xi_rlength := length;
              xi_put_offset := local_offset; xi_put_resid := length;
              xi_get_offset := xi_get_offset xi;
              xi_get_resid := xi_get_resid xi; xi_roffset := remote_offset;
              xi_pkt_len := sizeof_req_hdr_t E;
              xi_state := Some STATE_INIT_START |};
         Ev_gbl_put]).
    { unfold call, PtlPut. rewrite Hg, Hm, Hb. cbn -[check_put].
      rewrite check_put_accepted by assumption. cbn. rewrite Hx.
      destruct (is_err err); reflexivity. }
    destruct (is_err err).
    + split; [exact C|]. rewrite C. apply no_xi_fail. repeat constructor.
    + eexists. split; [exact C|]. simpl. repeat split; reflexivity.
Qed.

Lemma operand_family_arith atom_op :
  atom_op ∈ operand_family <-> 11 <= atom_op <= 17.
Proof.
  rewrite elem_of_family. simpl.
  unfold PTL_CSWAP, PTL_CSWAP_NE, PTL_CSWAP_LE, PTL_CSWAP_LT, PTL_CSWAP_GE,
    PTL_CSWAP_GT, PTL_MSWAP.
  rewrite !orb_false_r, !orb_true_iff, !Z.eqb_eq. lia.
Qed.

Lemma index_Some_range {A} (a : list A) i x :
  index a i = Some x -> 0 <= i < Z.of_nat (List.length a).
Proof.
  unfold index. destruct (Z.ltb_spec i 0); [discriminate|].
  intros L. apply lookup_lt_Some in L. lia.
Qed.

Lemma check_get_cases md local_offset length ni r :
  check_get md local_offset length ni = Some r ->
  r = PTL_OK \/ r = PTL_ARG_INVALID.
Proof.
  unfold check_get. destruct md as [m|]; [|intros [= <-]; auto].
  destruct (_ >? _); [intros [= <-]; auto|].
  destruct ni as [n|]; simpl; [|discriminate].
  destruct (_ >? _); intros [= <-]; auto.
Qed.

(** With an operand, a length above the size of the datatype never passes
    [check_swap]. *)
Lemma check_swap_operand_too_long md local_offset length n atom_op atom_type
    size :
  atom_op ∈ operand_family ->
  index atom_type_size atom_type = Some size ->
  length > size ->
  check_swap md local_offset length (Some n) atom_op atom_type
    = Some PTL_ARG_INVALID.
Proof.
  intros Hop Hsz Hlen. apply operand_family_arith in Hop.
  unfold check_swap. destruct md as [m|]; [|reflexivity]. simpl.
  walk. clear - Hop Hsz Hlen.
  enum_Z atom_op 11 18; rewrite op_info_table; simpl; walk;
    rewrite Hsz; simpl; walk; bool_hyps; lia.
Qed.

(** Without exceeding the size of the datatype, the operand check passes:
    [check_swap] accepts once its other checks do. *)
Lemma check_swap_within_size m local_offset length n atom_op atom_type size :
  atom_op ∈ operand_family ->
  index atom_type_size atom_type = Some size ->
  length <= size ->
  u64 (local_offset + length) <= md_length m ->
  length <= max_atomic_size (limits n) ->
  type_admitted atom_op atom_type ->
  check_swap (Some m) local_offset length (Some n) atom_op atom_type
    = Some PTL_OK.
Proof.
  intros Hop Hsz Hlen Hsum Hmax Hty. apply operand_family_arith in Hop.
  pose proof (index_Some_range _ _ _ Hsz) as Hr.
  rewrite atom_type_size_table in Hr. simpl in Hr.
  unfold check_swap. simpl.
  repeat match goal with
  | |- (if ?c then _ else _) = _ =>
      destruct c eqn:?;
        [ exfalso; unfold PTL_MIN, PTL_OP_LAST in *; bool_hyps; lia |]
  end.
  unfold type_admitted, is_float_type, is_complex_type in Hty.
  clear - Hop Hsz Hlen Hty Hr.
  enum_Z atom_op 11 18;
    (edestruct Hty as [Hf Hc]; [rewrite op_info_table; reflexivity|]);
    simpl in Hf, Hc; rewrite op_info_table; simpl;
    unfold PTL_CHAR, PTL_DATATYPE_LAST.
  all: repeat match goal with
  | |- (if ?c then _ else _) = _ =>
      destruct c eqn:?;
        [ exfalso; bool_hyps;
          solve [ lia | apply Hf; auto | apply Hc; auto ] |]
  end.
  all: rewrite Hsz; simpl.
  all: destruct (length >? size) eqn:?; [exfalso; bool_hyps; lia|reflexivity].
Qed.

Lemma swap_checks_operand_too_long get_md put_md local_get_offset
    local_put_offset length atom_op atom_type size :
  atom_op ∈ operand_family ->
  index atom_type_size atom_type = Some size ->
  length > size ->
  swap_checks get_md put_md local_get_offset local_put_offset length
    (to_ni get_md) atom_op atom_type = Some PTL_ARG_INVALID.
Proof.
  intros Hop Hsz Hlen. unfold swap_checks.
  destruct get_md as [g|]; [|reflexivity].
  change (to_ni (Some g)) with (Some (md_ni g)).
  destruct (check_get (Some g) local_get_offset length (Some (md_ni g)))
    as [r|] eqn:G.
  - destruct (check_get_cases _ _ _ _ _ G) as [-> | ->]; cbn -[check_swap].
    + rewrite (check_swap_operand_too_long _ _ _ _ _ _ size) by assumption.
      reflexivity.
    + reflexivity.
  - exfalso. unfold check_get in G. simpl in G.
    repeat match type of G with
    | (if ?c then _ else _) = _ => destruct c
    end; discriminate.
Qed.

(** C3 (amended).  For an [atom_op] that uses an operand (CSWAP, CSWAP_NE,
    CSWAP_LE, CSWAP_LT, CSWAP_GE, CSWAP_GT, MSWAP), [check_swap] answers
    [PTL_ARG_INVALID] whenever [length] is greater than the size of
    [atom_type]; in a build with [PTL_CHECK_BUILD], once the library is
    initialised and [md_get] has resolved both handles, [PtlSwap] then
    returns [PTL_ARG_INVALID] without allocating or starting an XI.  With
    [length] at most that size the operand check passes: [check_swap]
    accepts as soon as its other checks do. *)
Theorem PtlSwap_operand_length (E : env)
    (get_md_handle local_get_offset put_md_handle local_put_offset length
     target_id pt_index match_bits remote_offset user_ptr hdr_data operand
     atom_op atom_type : Z) (get_md put_md : option md_t) (size : Z) :
  atom_op ∈ operand_family ->
  index atom_type_size atom_type = Some size ->
  let call := PtlSwap E get_md_handle local_get_offset put_md_handle
                local_put_offset length target_id pt_index match_bits
                remote_offset user_ptr hdr_data operand atom_op atom_type in
  (length > size ->
     (forall n,
        check_swap put_md local_put_offset length (Some n) atom_op atom_type
          = Some PTL_ARG_INVALID) /\
     (PTL_CHECK_BUILD E = true ->
      get_gbl E = PTL_OK ->
      md_get E get_md_handle = (PTL_OK, get_md) ->
      md_get E put_md_handle = (PTL_OK, put_md) ->
      call = Returns PTL_ARG_INVALID
               [Ev_md_put put_md; Ev_md_put get_md; Ev_gbl_put] /\
      no_xi call)) /\
  (length <= size ->
     forall m n offset,
       u64 (offset + length) <= md_length m ->
       length <= max_atomic_size (limits n) ->
       type_admitted atom_op atom_type ->
       check_swap (Some m) offset length (Some n) atom_op atom_type
         = Some PTL_OK).
Proof.
  intros Hop Hsz call. split.
  - intros Hlen. split.
    { intros n.
      apply (check_swap_operand_too_long _ _ _ _ _ _ size); assumption. }
    intros Hb Hg Hgm Hpm.
    assert (C : call = Returns PTL_ARG_INVALID
                         [Ev_md_put put_md; Ev_md_put get_md; Ev_gbl_put]).
    { unfold call, PtlSwap. rewrite Hg. cbn [is_err]. rewrite Hgm.
      cbn [is_err]. rewrite Hpm. cbn [is_err]. rewrite Hb.
      rewrite (swap_checks_operand_too_long _ _ _ _ _ _ _ size)
        by assumption.
      reflexivity. }
    split; [exact C|]. rewrite C. apply no_xi_fail. repeat constructor.
  - intros Hlen m n offset Hsum Hmax Hty.
    apply (check_swap_within_size _ _ _ _ _ _ size); assumption.
Qed.

End MoveFacts.

Section MoveSamples.
Import Move.
#[local] Existing Instance sample_ack.

Example atom_type_size_double_complex :
  index atom_type_size PTL_DOUBLE_COMPLEX = Some 16.
Proof. reflexivity. Qed.

Example op_info_cswap_lt :
  index op_info PTL_CSWAP_LT = Some (Info 1 0 0 1 1).
Proof. reflexivity. Qed.

Example put_with_ack_runs :
  ret_of (PtlPut (sample_env true) 1 0 16 PTL_ACK_REQ 0 3 0x1234 8 0 0)
    = Some PTL_OK.
Proof. reflexivity. Qed.

(** The bound on [local_offset + length] is computed in 64 bits: a sum
    that wraps slips through [check_put]. *)
Example put_offset_wraps :
  check_put (Some sample_md) (2 ^ 64 - 1) 2 PTL_ACK_REQ (Some sample_ni)
    = Some PTL_OK.
Proof. reflexivity. Qed.

Lemma PtlAtomic_enforces_matrix_witness :
  PtlAtomic (sample_env true) 1 0 8 PTL_ACK_REQ 0 3 0x1234 0 0 0
      PTL_SWAP PTL_INT
    = Returns PTL_ARG_INVALID [Ev_md_put (Some sample_md); Ev_gbl_put] /\
  no_xi (PtlAtomic (sample_env true) 1 0 8 PTL_ACK_REQ 0 3 0x1234 0 0 0
           PTL_SWAP PTL_INT).
Proof.
  assert (F : atomic_forbidden PTL_SWAP PTL_INT)
    by (right; right; left; constructor).
  exact (proj2 (PtlAtomic_enforces_matrix (sample_env true) 1 0 8 PTL_ACK_REQ
                  0 3 0x1234 0 0 0 PTL_SWAP PTL_INT (Some sample_md) F)
           eq_refl eq_refl eq_refl).
Defined.

(** C1 as stated fails in a build without [PTL_CHECK_BUILD]: an atomic
    submission with [PTL_SWAP], which the matrix forbids, returns [PTL_OK]
    and starts an XI. *)
Lemma PtlAtomic_unchecked_counterexample :
  atomic_forbidden PTL_SWAP PTL_INT /\
  ret_of (PtlAtomic (sample_env false) 1 0 8 PTL_ACK_REQ 0 3 0x1234 0 0 0
            PTL_SWAP PTL_INT) = Some PTL_OK /\
  ~ no_xi (PtlAtomic (sample_env false) 1 0 8 PTL_ACK_REQ 0 3 0x1234 0 0 0
             PTL_SWAP PTL_INT).
Proof.
  split; [right; right; left; constructor|].
  split; [reflexivity|].
  intros H. apply (H (Ev_xi_alloc sample_ni)). constructor.
Qed.

Lemma PtlPut_checks_witness :
  PtlPut (sample_env true) 1 60 16 PTL_ACK_REQ 0 3 0x1234 8 0 0
    = Returns PTL_ARG_INVALID [Ev_md_put (Some sample_md); Ev_gbl_put] /\
  ret_of (PtlPut (sample_env true) 1 0 16 PTL_ACK_REQ 0 3 0x1234 8 0 0)
    = Some PTL_OK.
Proof.
  assert (U0 : in_u64 0) by (unfold in_u64; lia).
  assert (U16 : in_u64 16) by (unfold in_u64; lia).
  assert (U60 : in_u64 60) by (unfold in_u64; lia).
  split.
  - refine (proj1 (proj1 (PtlPut_checks (sample_env true) 1 60 16 PTL_ACK_REQ
                     0 3 0x1234 8 0 0 sample_md eq_refl eq_refl eq_refl
                     U60 U16 _) _)).
    + simpl. lia.
    + left. right. right. right. simpl. lia.
  - assert (N : ~ put_refused sample_md 0 16 PTL_ACK_REQ).
    { unfold put_refused, put_refused_as_claimed. simpl.
      intros [[[_ [=]]|[[[=] _]|[H|H]]]|[H|H]]; lia. }
    assert (S : 0 + 16 < 2 ^ 64) by lia.
    destruct (proj2 (PtlPut_checks (sample_env true) 1 0 16 PTL_ACK_REQ
                       0 3 0x1234 8 0 0 sample_md eq_refl eq_refl eq_refl
                       U0 U16 S) N PTL_OK fresh_xi eq_refl) as (xi & C & _).
    rewrite C. reflexivity.
Defined.

(** C2 as stated fails: with [ack_req] outside the range of the
    enumeration, none of the four listed reasons holds and the MD handle is
    valid, yet [PtlPut] returns [PTL_ARG_INVALID] instead of [PTL_OK]. *)
Lemma PtlPut_ack_range_counterexample :
  ~ put_refused_as_claimed sample_md 0 16 7 /\
  md_get (sample_env true) 1 = (PTL_OK, Some sample_md) /\
  PtlPut (sample_env true) 1 0 16 7 0 3 0x1234 8 0 0
    = Returns PTL_ARG_INVALID [Ev_md_put (Some sample_md); Ev_gbl_put].
Proof.
  split; [|split; reflexivity].
  unfold put_refused_as_claimed. simpl.
  intros [[[=] _]|[[[=] _]|[H|H]]]; lia.
Qed.

Lemma PtlSwap_operand_length_witness :
  PtlSwap (sample_env true) 1 0 2 0 8 0 3 0x1234 0 0 0 5 PTL_CSWAP PTL_INT
    = Returns PTL_ARG_INVALID
        [Ev_md_put (Some sample_md); Ev_md_put (Some sample_md); Ev_gbl_put] /\
  check_swap (Some sample_md) 0 4 (Some sample_ni) PTL_CSWAP PTL_INT
    = Some PTL_OK.
Proof.
  assert (O : PTL_CSWAP ∈ operand_family) by constructor.
  split.
  - refine (proj1 (proj2 (proj1 (PtlSwap_operand_length (sample_env true)
                     1 0 2 0 8 0 3 0x1234 0 0 0 5 PTL_CSWAP PTL_INT
                     (Some sample_md) (Some sample_md) 4 O eq_refl) _)
                     eq_refl eq_refl eq_refl eq_refl)).
    lia.
  - refine (proj2 (PtlSwap_operand_length (sample_env true) 1 0 2 0 4
                     0 3 0x1234 0 0 0 5 PTL_CSWAP PTL_INT (Some sample_md)
                     (Some sample_md) 4 O eq_refl) _ sample_md sample_ni 0
                     _ _ _).
    + lia.
    + vm_compute. discriminate.
    + simpl. lia.
    + intros info [= <-]. split; intros [H|H]; discriminate H.
Defined.

(** C3 as stated fails in a build without [PTL_CHECK_BUILD]: a compare-and-
    swap of 100 bytes on a 4-byte datatype returns [PTL_OK] and starts an
    XI. *)
Lemma PtlSwap_unchecked_counterexample :
  PTL_CSWAP ∈ operand_family /\
  index atom_type_size PTL_INT = Some 4 /\
  ret_of (PtlSwap (sample_env false) 1 0 2 0 100 0 3 0x1234 0 0 0 5
            PTL_CSWAP PTL_INT) = Some PTL_OK /\
  ~ no_xi (PtlSwap (sample_env false) 1 0 2 0 100 0 3 0x1234 0 0 0 5
             PTL_CSWAP PTL_INT).
Proof.
  split; [constructor|]. split; [reflexivity|]. split; [reflexivity|].
  intros H. apply (H (Ev_xi_alloc sample_ni)). constructor.
Qed.

End MoveSamples.

(** ** The ordered queue *)

Section NemesisFacts.
Import Nemesis.

Lemma same_refl a : same a a = true.
Proof.
  unfold same. rewrite bool_decide_eq_true_2 by reflexivity.
  apply Z.eqb_refl.
Qed.


(** Run alone, the swap needs no turn of its loop: it terminates for every
    amount of fuel, rejects iff the tail is ahead of the new value, and
    returns the former tail. *)
Lemma swap128_alone fuel cell newval :
  PtlInternalAtomicSwap128 fuel [] cell newval =
    Some (if val cell >? val newval then (cell, cell) else (newval, cell)).
Proof.
  unfold PtlInternalAtomicSwap128, PtlInternalAtomicCas128.
  destruct (val cell >? val newval); [reflexivity|]. simpl.
  rewrite same_refl. destruct fuel; simpl; rewrite same_refl; reflexivity.
Qed.






Lemma chain_last h p l a v :
  chain h p (l ++ [(a, v)]) -> exists nx, h !! a = Some nx /\ ptr nx = None.
Proof.
  revert p. induction l as [|[a' v'] l IH]; simpl; intros p.
  - intros (_ & nx & Hn & Hp). eauto.
  - intros (_ & nx & _ & Hc). eapply IH, Hc.
Qed.

(** Linking a fresh entry behind the last one extends the chain by it. *)
Lemma chain_snoc h p l a0 v0 a v nx :
  NoDup ((l ++ [(a0, v0)]).*1) ->
  a ∉ (l ++ [(a0, v0)]).*1 ->
  chain h p (l ++ [(a0, v0)]) ->
  h !! a = Some nx -> ptr nx = None ->
  chain (<[a0 := {| ptr := Some a; val := v |}]> h) p
    ((l ++ [(a0, v0)]) ++ [(a, v)]).
Proof.
  intros Hnd Hfresh Hc Ha Hnx. revert p Hnd Hfresh Hc.
  induction l as [|[a' v'] l IH]; simpl; intros p Hnd Hfresh Hc.
  - destruct Hc as (-> & _). split; [reflexivity|].
    exists {| ptr := Some a; val := v |}. rewrite lookup_insert_eq.
    split; [reflexivity|]. split; [reflexivity|].
    exists nx. split; [|exact Hnx].
    rewrite lookup_insert_ne; [exact Ha|].
    intros ->. apply Hfresh. simpl. left.
  - destruct Hc as (-> & nx' & Hn' & Hc). split; [reflexivity|].
    apply NoDup_cons in Hnd as [Hni Hnd].
    exists nx'. split.
    + rewrite lookup_insert_ne; [exact Hn'|].
      intros ->. apply Hni. rewrite fmap_app. simpl.
      apply elem_of_app. right. left.
    + apply IH; [exact Hnd| |exact Hc].
      intros Hin. apply Hfresh. right. exact Hin.
Qed.











Example enqueue_three :
  option_map (fun s => tail (queue s))
    (enqueue_all 0 sample_shmem
       [(Some 64, 5); (Some 128, 3); (Some 192, 7)])
  = Some {| ptr := Some 192; val := 7 |}.
Proof. vm_compute. reflexivity. Qed.

(** Another producer gets in first with sequence value 9: the enqueue of
    value 5 sees it at its second look and gives up, leaving the tail of
    the other. *)
Example enqueue_overtaken :
  PtlInternalOrderedNEMESISEnqueue 1
    [Some {| ptr := Some 128; val := 9 |}] sample_shmem (Some 64) 5
  = Done 0
      {| queue := {| head := nil;
                     tail := {| ptr := Some 128; val := 9 |};
                     shadow_head := nil |};
         next_of := next_of sample_shmem |}.
Proof. vm_compute. reflexivity. Qed.

(** Another producer gets in first with sequence value 3: the enqueue of
    value 5 sees it at its second look, swaps again and links its entry
    behind the entry of the other. *)
Example enqueue_behind_other :
  PtlInternalOrderedNEMESISEnqueue 1
    [Some {| ptr := Some 128; val := 3 |}] sample_shmem (Some 64) 5
  = Done 1
      {| queue := {| head := nil;
                     tail := {| ptr := Some 64; val := 5 |};
                     shadow_head := nil |};
         next_of := <[128 := {| ptr := Some 64; val := 5 |}]>
                      (next_of sample_shmem) |}.
Proof. vm_compute. reflexivity. Qed.

(** A run of two enqueues, the first of them with another producer in its
    way: the entry with value 4 comes too late and the tail stays at 5. *)
Example enqueue_run_among :
  option_map (fun s => tail (queue s))
    (enqueue_run 1 sample_shmem
       [(Some 64, 5, [Some {| ptr := Some 128; val := 3 |}]);
        (Some 192, 4, [])])
  = Some {| ptr := Some 64; val := 5 |} /\
  run_raises 1 sample_shmem
    [(Some 64, 5, [Some {| ptr := Some 128; val := 3 |}]);
     (Some 192, 4, [])].
Proof.
  split; [vm_compute; reflexivity|].
  simpl. repeat split; lia.
Qed.


End NemesisFacts.

(** ** The receive sub-FSM *)

Section RecvFacts.
Import Recv.
Context {H : hdr_values}.
Variable E : env.

(** Events that are not calls to a state machine add no such call. *)
Lemma sm_call_app (e : event) (tr l : list event) :
  is_sm_call e = true ->
  forallb (fun x => negb (is_sm_call x)) l = true ->
  e ∈ tr ++ l -> e ∈ tr.
Proof.
  intros He Hl Hin. apply elem_of_app in Hin as [Hin|Hin]; [exact Hin|].
  exfalso. rewrite forallb_forall in Hl.
  apply list_elem_of_In, Hl in Hin. rewrite He in Hin. discriminate Hin.
Qed.

Lemma recv_drop_buf_eq buf w :
  recv_drop_buf buf w = (STATE_RECV_REPOST, buf, dropped buf w).
Proof. reflexivity. Qed.

(** From [STATE_RECV_DROP_BUF] the shared-memory driver finishes in two
    turns. *)
Lemma mem_loop_drop fuel buf w :
  recv_mem_loop E (S (S fuel)) STATE_RECV_DROP_BUF buf w
    = Finished (dropped buf w).
Proof. reflexivity. Qed.

Lemma rdma_loop_drop fuel buf w :
  recv_rdma_loop E (S (S (S fuel))) STATE_RECV_DROP_BUF buf w
    = Finished (after_repost E (dropped buf w)).
Proof.
  unfold after_repost. simpl. destruct (recv_repost E _) as [st w'] eqn:R.
  unfold recv_repost in R. destruct (_ >? _); injection R as <- <-;
    reflexivity.
Qed.

(** A packet that [recv_packet] sends to [STATE_RECV_DROP_BUF] is dropped by
    both drivers. *)
Lemma packet_dropped fuel buf w w1 :
  recv_packet E buf w = (STATE_RECV_DROP_BUF, buf, w1) ->
  process_recv_mem E (S (S (S fuel))) buf w = Finished (dropped buf w1).
Proof.
  intros P. unfold process_recv_mem.
  change (recv_mem_loop E (S (S (S fuel))) STATE_RECV_PACKET buf w)
    with (let '(st, b, w') := recv_packet E buf w in
          recv_mem_loop E (S (S fuel)) st b w').
  rewrite P. apply mem_loop_drop.
Qed.

Lemma rdma_loop_packet fuel buf w :
  process_recv_rdma E (S fuel) STATE_RECV_PACKET_RDMA buf w
    = recv_rdma_loop E fuel STATE_RECV_PACKET buf (rdma_entry buf w).
Proof. reflexivity. Qed.

Lemma packet_dropped_rdma fuel buf w w1 :
  recv_packet E buf (rdma_entry buf w) = (STATE_RECV_DROP_BUF, buf, w1) ->
  process_recv_rdma E (S (S (S (S (S fuel))))) STATE_RECV_PACKET_RDMA buf w
    = Finished (after_repost E (dropped buf w1)).
Proof.
  intros P. rewrite rdma_loop_packet.
  change (recv_rdma_loop E (S (S (S (S fuel)))) STATE_RECV_PACKET buf
            (rdma_entry buf w))
    with (let '(st, b, w') := recv_packet E buf (rdma_entry buf w) in
          recv_rdma_loop E (S (S (S fuel))) st b w').
  rewrite P. apply rdma_loop_drop.
Qed.

Lemma after_repost_ni w : ni (after_repost E w) = ni w.
Proof.
  unfold after_repost, recv_repost. destruct (_ >? _); reflexivity.
Qed.

(** [recv_repost] adds at most a call to [ptl_post_recv]. *)
Lemma after_repost_trace w :
  trace (after_repost E w) = trace w \/
  trace (after_repost E w)
    = trace w ++ [Ev_post_recv (PTL_SRQ_REPOST_SIZE E)].
Proof.
  unfold after_repost, recv_repost. destruct (_ >? _); simpl; auto.
Qed.

Lemma rdma_entry_drops buf w :
  num_recv_drops (ni (rdma_entry buf w)) = num_recv_drops (ni w).
Proof. reflexivity. Qed.

Lemma rdma_entry_trace buf w :
  trace (rdma_entry buf w) = trace w ++ [Ev_list_del (buf_addr buf)].
Proof. reflexivity. Qed.

(** [recv_packet] on a protocol error. *)
Lemma recv_packet_protocol_error buf w :
  hdr_version buf <> PTL_HDR_VER_1 \/
  (hdr_operation buf <= OP_SWAP /\ length buf < sizeof_req_hdr_t) ->
  recv_packet E buf w = (STATE_RECV_DROP_BUF, buf, w).
Proof.
  intros P. unfold recv_packet.
  destruct (Z.eqb_spec (hdr_version buf) PTL_HDR_VER_1) as [V|V]; simpl;
    [|reflexivity].
  destruct P as [P|[Pop Plen]]; [contradiction|].
  rewrite (proj2 (Z.leb_le _ _) Pop), (proj2 (Z.ltb_lt _ _) Plen).
  reflexivity.
Qed.

(** C6.  A received packet whose header version differs from 1, and a
    request packet (operation at most SWAP) shorter than the request header,
    is silently dropped by the receive sub-FSM, from shared memory and from
    the RDMA completion queue alike: the run finishes, the buffer is released,
    [num_recv_drops] grows by exactly one, and nothing else happens, neither
    state machine being invoked (the RDMA driver also takes the buffer off
    the posted list and may repost receives). *)
Theorem protocol_error_dropped (buf : buf_t) (w : world) (fuel : nat) :
  hdr_version buf <> PTL_HDR_VER_1 \/
  (hdr_operation buf <= OP_SWAP /\ length buf < sizeof_req_hdr_t) ->
  (5 <= fuel)%nat ->
  (exists w',
     process_recv_mem E fuel buf w = Finished w' /\
     num_recv_drops (ni w') = num_recv_drops (ni w) + 1 /\
     trace w' = trace w ++ [Ev_buf_put (buf_addr buf)]) /\
  (exists w',
     process_recv_rdma E fuel STATE_RECV_PACKET_RDMA buf w = Finished w' /\
     num_recv_drops (ni w') = num_recv_drops (ni w) + 1 /\
     (trace w' = trace w ++ [Ev_list_del (buf_addr buf);
                             Ev_buf_put (buf_addr buf)] \/
      trace w' = trace w ++ [Ev_list_del (buf_addr buf);
                             Ev_buf_put (buf_addr buf);
                             Ev_post_recv (PTL_SRQ_REPOST_SIZE E)])).
Proof.
  intros P Hf.
  destruct fuel as [|[|[|[|[|fuel]]]]]; try lia.
  split.
  - exists (dropped buf w). split; [|split; reflexivity].
    apply packet_dropped, recv_packet_protocol_error, P.
  - exists (after_repost E (dropped buf (rdma_entry buf w))).
    split; [|split].
    + apply packet_dropped_rdma, recv_packet_protocol_error, P.
    + rewrite after_repost_ni. reflexivity.
    + destruct (after_repost_trace (dropped buf (rdma_entry buf w)))
        as [-> | ->]; simpl; rewrite <- ?app_assoc; simpl; auto.
Qed.

Lemma recv_packet_response buf w :
  hdr_version buf = PTL_HDR_VER_1 ->
  hdr_operation buf >= OP_REPLY ->
  recv_packet E buf w = (STATE_RECV_INIT, buf, w).
Proof.
  intros V R. unfold recv_packet.
  rewrite (proj2 (Z.eqb_eq _ _) V). simpl.
  pose proof requests_before_responses.
  rewrite (proj2 (Z.leb_gt _ _)) by lia.
  rewrite Z.geb_leb, (proj2 (Z.leb_le _ _)) by lia. reflexivity.
Qed.



Lemma recv_init_stale buf w :
  to_buf E (Wire.le32_to_cpu (hdr_handle buf)) = None ->
  recv_init E buf w = (STATE_RECV_DROP_BUF, buf, w).
Proof. intros T. unfold recv_init. rewrite T. reflexivity. Qed.

Lemma mem_loop_step fuel buf w :
  recv_mem_loop E (S fuel) STATE_RECV_PACKET buf w
    = let '(st, b, w') := recv_packet E buf w in recv_mem_loop E fuel st b w'.
Proof. reflexivity. Qed.

Lemma mem_loop_init fuel buf w :
  recv_mem_loop E (S fuel) STATE_RECV_INIT buf w
    = let '(st, b, w') := recv_init E buf w in recv_mem_loop E fuel st b w'.
Proof. reflexivity. Qed.

Lemma rdma_loop_step fuel buf w :
  recv_rdma_loop E (S fuel) STATE_RECV_PACKET buf w
    = let '(st, b, w') := recv_packet E buf w in
      recv_rdma_loop E fuel st b w'.
Proof. reflexivity. Qed.

Lemma rdma_loop_init fuel buf w :
  recv_rdma_loop E (S fuel) STATE_RECV_INIT buf w
    = let '(st, b, w') := recv_init E buf w in recv_rdma_loop E fuel st b w'.
Proof. reflexivity. Qed.





(** C10.  A response packet (version 1, operation at least REPLY) whose
    header handle does not resolve to a live buffer is dropped rather than
    processed: [recv_init] answers [STATE_RECV_DROP_BUF] without touching
    anything, both drivers then release the buffer and count one more
    receive drop, and the initiator state machine is not invoked for that
    packet. *)
Theorem stale_handle_dropped (buf : buf_t) (w : world) (fuel : nat) :
  to_buf E (Wire.le32_to_cpu (hdr_handle buf)) = None ->
  hdr_version buf = PTL_HDR_VER_1 ->
  hdr_operation buf >= OP_REPLY ->
  (6 <= fuel)%nat ->
  recv_init E buf w = (STATE_RECV_DROP_BUF, buf, w) /\
  (exists w',
     process_recv_mem E fuel buf w = Finished w' /\
     num_recv_drops (ni w') = num_recv_drops (ni w) + 1 /\
     trace w' = trace w ++ [Ev_buf_put (buf_addr buf)] /\
     (invokes_init (trace w') -> invokes_init (trace w))) /\
  (exists w',
     process_recv_rdma E fuel STATE_RECV_PACKET_RDMA buf w = Finished w' /\
     num_recv_drops (ni w') = num_recv_drops (ni w) + 1 /\
     (invokes_init (trace w') -> invokes_init (trace w))).
Proof.
  intros T V R Hf.
  destruct fuel as [|[|[|[|[|[|fuel]]]]]]; try lia.
  split; [apply recv_init_stale, T|]. split.
  - exists (dropped buf w). split; [|split; [|split]]; try reflexivity.
    + unfold process_recv_mem.
      rewrite mem_loop_step, recv_packet_response by assumption.
      rewrite mem_loop_init, recv_init_stale by assumption.
      apply mem_loop_drop.
    + simpl. intros [b Hb]. exists b.
      refine (sm_call_app _ _ _ _ _ Hb); reflexivity.
  - exists (after_repost E (dropped buf (rdma_entry buf w))).
    split; [|split].
    + rewrite rdma_loop_packet.
      rewrite rdma_loop_step, recv_packet_response by assumption.
      rewrite rdma_loop_init, recv_init_stale by assumption.
      apply rdma_loop_drop.
    + rewrite after_repost_ni. reflexivity.
    + intros [b Hb]. exists b.
      destruct (after_repost_trace (dropped buf (rdma_entry buf w)))
        as [Q|Q]; rewrite Q in Hb; simpl in Hb;
        rewrite <- ?app_assoc in Hb;
        refine (sm_call_app _ _ _ _ _ Hb); reflexivity.
Qed.


End RecvFacts.

Section RecvSamples.
Import Recv.
#[local] Existing Instance sample_hdr_values.

Example request_reaches_target :
  process_recv_mem sample_env 4 (sample_buf 1 1 80) sample_world
  = Finished
      {| ni := ni sample_world;
         trace :=
           [Ev_process_tgt
              {| buf_addr := 8192; type := BUF_TGT; length := 80;
                 hdr_version := 1; hdr_operation := 1; hdr_handle := 42;
                 hdr_data_in := 0; hdr_data_out := 0;
                 hdr_src_nid := 167772161; hdr_src_pid := 4660;
                 data_in := None; data_out := None;
                 tgt_state_of := Some STATE_TGT_START;
                 recv_buf := None |}] |}.
Proof. reflexivity. Qed.

Lemma protocol_error_dropped_witness :
  (exists w',
     process_recv_mem sample_env 5 (sample_buf 2 1 80) sample_world
       = Finished w' /\
     num_recv_drops (ni w') = 1 /\ trace w' = [Ev_buf_put 8192]) /\
  (exists w',
     process_recv_mem sample_env 5 (sample_buf 1 1 12) sample_world
       = Finished w' /\
     num_recv_drops (ni w') = 1 /\ trace w' = [Ev_buf_put 8192]).
Proof.
  split.
  - refine (proj1 (protocol_error_dropped sample_env (sample_buf 2 1 80)
                     sample_world 5 _ _)).
    + left. simpl. unfold PTL_HDR_VER_1. lia.
    + lia.
  - refine (proj1 (protocol_error_dropped sample_env (sample_buf 1 1 12)
                     sample_world 5 _ _)).
    + right. simpl. lia.
    + lia.
Defined.

Lemma stale_handle_dropped_witness :
  let buf :=
    {| buf_addr := 8192; type := BUF_RECV; length := 16;
       hdr_version := 1; hdr_operation := 8; hdr_handle := 99;
       hdr_data_in := 0; hdr_data_out := 0; hdr_src_nid := 167772161;
       hdr_src_pid := 4660; data_in := None; data_out := None;
       tgt_state_of := None; recv_buf := None |} in
  recv_init sample_env buf sample_world
    = (STATE_RECV_DROP_BUF, buf, sample_world) /\
  exists w',
    process_recv_mem sample_env 6 buf sample_world = Finished w' /\
    num_recv_drops (ni w') = 1 /\ trace w' = [Ev_buf_put 8192] /\
    (invokes_init (trace w') -> invokes_init (trace sample_world)).
Proof.
  intros buf.
  assert (T : to_buf sample_env (Wire.le32_to_cpu (hdr_handle buf)) = None)
    by reflexivity.
  assert (V : hdr_version buf = PTL_HDR_VER_1) by reflexivity.
  assert (R : hdr_operation buf >= OP_REPLY) by (simpl; lia).
  assert (F : (6 <= 6)%nat) by lia.
  destruct (stale_handle_dropped sample_env buf sample_world 6 T V R F)
    as (A & B & _).
  exact (conj A B).
Defined.


(** A truncated request, version 1 and operation PUT but with no room for
    a request header, is a protocol error: the packet goes to
    [STATE_RECV_DROP_BUF] and the target state machine never sees it. *)
Example truncated_request_dropped :
  hdr_version (sample_buf 1 1 12) = PTL_HDR_VER_1 /\
  hdr_operation (sample_buf 1 1 12) <= OP_SWAP /\
  recv_packet sample_env (sample_buf 1 1 12) sample_world
    = (STATE_RECV_DROP_BUF, sample_buf 1 1 12, sample_world) /\
  process_recv_mem sample_env 4 (sample_buf 1 1 12) sample_world
    = Finished (dropped (sample_buf 1 1 12) sample_world) /\
  ~ invokes_tgt (trace (dropped (sample_buf 1 1 12) sample_world)).
Proof.
  split; [reflexivity|]. split; [simpl; lia|].
  split; [reflexivity|]. split; [reflexivity|].
  intros [b Hb]. simpl in Hb.
  eapply elem_of_nil. refine (sm_call_app _ [] _ _ _ Hb); reflexivity.
Qed.

End RecvSamples.

(** ** NI tear-down and set-up in the PPE *)

Section PpeFacts.
Import Ppe PpePid.
Context {P : pid_values}.
Variable E : env.

Lemma bind_Ok {A B} (m : M A) (f : A -> M B) w a w' :
  m w = Ok a w' -> (m ≫= f) w = f a w'.
Proof. intros Hm. unfold mbind, M_bind. rewrite Hm. reflexivity. Qed.

Lemma bind_Fault {A B} (m : M A) (f : A -> M B) w w' :
  m w = Fault w' -> (m ≫= f) w = Fault w'.
Proof. intros Hm. unfold mbind, M_bind. rewrite Hm. reflexivity. Qed.

Lemma get_ni_unfold peer i w :
  get_ni peer i w =
    match index (clients (ctx w)) peer with
    | Some cl =>
        match index (nis cl) i with
        | Some n => Ok n w
        | None => Fault w
        end
    | None => Fault w
    end.
Proof.
  unfold get_ni, get_client, get_ctx, mbind, M_bind, of_option.
  destruct (index (clients (ctx w)) peer) as [cl|]; [|reflexivity].
  simpl. destruct (index (nis cl) i); reflexivity.
Qed.

Lemma index_insert {A} (l : list A) i x y :
  index l i = Some y -> index (<[Z.to_nat i := x]> l) i = Some x.
Proof.
  unfold index. destruct (i <? 0); [discriminate|].
  intros L. apply list_lookup_insert_eq. eapply lookup_lt_Some, L.
Qed.

(** What [get_ni] returns depends on the context alone. *)
Lemma get_ni_same_ctx peer i w w' n :
  ctx w' = ctx w -> get_ni peer i w = Ok n w -> get_ni peer i w' = Ok n w'.
Proof.
  intros C. rewrite !get_ni_unfold, C.
  destruct (index (clients (ctx w)) peer) as [cl|]; [|discriminate].
  destruct (index (nis cl) i); [|discriminate].
  intros [= ->]. reflexivity.
Qed.

(** A store to the NI succeeds where a load did, and is then read back. *)
Lemma put_ni_get_ni peer i w n x :
  get_ni peer i w = Ok n w ->
  exists w',
    put_ni peer i x w = Ok tt w' /\
    get_ni peer i w' = Ok x w' /\
    trace w' = trace w /\ limits_mem w' = limits_mem w.
Proof.
  rewrite get_ni_unfold.
  destruct (index (clients (ctx w)) peer) as [cl|] eqn:C; [|discriminate].
  destruct (index (nis cl) i) as [n'|] eqn:N; [|discriminate].
  intros _. eexists. split; [|split; [|split]].
  - unfold put_ni, put_client, get_client, get_ctx, put_ctx, mbind, M_bind,
      of_option. rewrite C. simpl. reflexivity.
  - rewrite get_ni_unfold. simpl.
    rewrite (index_insert _ _ _ _ C). simpl.
    rewrite (index_insert _ _ _ _ N). reflexivity.
  - reflexivity.
  - reflexivity.
Qed.

(** The loop over the triggered lists of an NI whose [ppe_ct] is NULL. *)
Lemma fini_loop_zeroed peer i n : forall k w,
  get_ni peer i w = Ok ni_zero w ->
  exists w',
    for_loop n k
      (fun j => x ← get_ni peer i; emit (Ev_list_fini (ppe_ct x) j)) w
      = Ok tt w' /\
    ctx w' = ctx w /\
    trace w' = trace w ++ (Ev_list_fini None <$> upto n k).
Proof.
  induction n as [|n IH]; intros k w G; simpl.
  - exists w. rewrite app_nil_r. auto.
  - rewrite (bind_Ok _ _ w tt
               {| ctx := ctx w; limits_mem := limits_mem w;
                  trace := trace w ++ [Ev_list_fini None k] |}).
    + destruct (IH (k + 1)
                  {| ctx := ctx w; limits_mem := limits_mem w;
                     trace := trace w ++ [Ev_list_fini None k] |})
        as (w' & R & C & T).
      { eapply get_ni_same_ctx; [|exact G]. reflexivity. }
      exists w'. split; [exact R|]. split; [exact C|].
      rewrite T. simpl. rewrite <- app_assoc. reflexivity.
    + rewrite (bind_Ok _ _ w ni_zero w G). reflexivity.
Qed.

Lemma detach_steps n w :
  (match limits_ptr n with
   | Some xl => ppe_xpmem_detach xl
   | None => mret tt
   end;;
   match client_ptr n with
   | Some xc => ppe_xpmem_detach xc
   | None => mret tt
   end) w
  = Ok tt {| ctx := ctx w;
             limits_mem :=
               match client_ptr n with
               | Some xc => delete (data xc)
               | None => id
               end (match limits_ptr n with
                    | Some xl => delete (data xl)
                    | None => id
                    end (limits_mem w));
             trace := trace w ++ detach_events n |}.
Proof.
  unfold detach_events, mbind, M_bind, ppe_xpmem_detach, mret, M_ret.
  destruct (limits_ptr n), (client_ptr n); simpl;
    rewrite <- ?app_assoc, ?app_nil_r; simpl; try reflexivity.
  destruct w; reflexivity.
Qed.

(** C8.  In [ni_fini_impl] the NI structure is zeroed before the loop that
    tears down the triggered-operation lists.  Whatever the NI held before
    the call, the loop reads [ni->limits] as NULL: where that access traps,
    the call stops there, with the NI cleared and nothing released; where it
    yields a bound, the loop hands [ptl_double_list_fini] addresses computed
    from a NULL [ni->ppe_ct], and the six [free]s that follow all receive
    NULL.  In neither case is a list or an array that the NI held before the
    call finalised or freed. *)
Theorem ni_fini_use_after_clear (cmd : ptl_cqe_nifini_t) (w : world)
    (n : ptl_ppe_ni_t) :
  0 <= ptl_cq_entry_alloc E ->
  get_ni (fini_remote_id cmd) (fini_ni_handle_ni cmd) w = Ok n w ->
  match read_null E with
  | None =>
      exists w',
        ni_fini_impl E cmd w = Fault w' /\
        get_ni (fini_remote_id cmd) (fini_ni_handle_ni cmd) w'
          = Ok ni_zero w' /\
        trace w' = trace w ++ detach_events n
  | Some bound =>
      exists r w',
        ni_fini_impl E cmd w = Ok r w' /\
        get_ni (fini_remote_id cmd) (fini_ni_handle_ni cmd) w'
          = Ok ni_zero w' /\
        trace w' =
          trace w ++ detach_events n ++
          (Ev_list_fini None <$> upto (Z.to_nat bound) 0) ++
          replicate 6 (Ev_free None) ++
          [Ev_cq_entry_send (fini_remote_id cmd)
             (ack_ok (fini_retval_ptr cmd))] ++
          (if ptl_cq_entry_send E <? 0 then [Ev_perror] else [])
  end.
Proof.
  intros Ha G. unfold ni_fini_impl. cbv zeta.
  rewrite (proj2 (Z.ltb_ge _ _) Ha).
  rewrite (bind_Ok _ _ _ _ _ G).
  set (w1 := {| ctx := ctx w;
                limits_mem :=
                  match client_ptr n with
                  | Some xc => delete (data xc)
                  | None => id
                  end (match limits_ptr n with
                       | Some xl => delete (data xl)
                       | None => id
                       end (limits_mem w));
                trace := trace w ++ detach_events n |}).
  assert (G1 : get_ni (fini_remote_id cmd) (fini_ni_handle_ni cmd) w1
               = Ok n w1)
    by (eapply get_ni_same_ctx; [|exact G]; reflexivity).
  destruct (put_ni_get_ni _ _ _ _ ni_zero G1) as (w2 & P2 & G2 & T2 & _).
  assert (S1 : forall (k : M Z),
    (match limits_ptr n with
     | Some xl => ppe_xpmem_detach xl
     | None => mret tt
     end;;
     match client_ptr n with
     | Some xc => ppe_xpmem_detach xc
     | None => mret tt
     end;; put_ni (fini_remote_id cmd) (fini_ni_handle_ni cmd) ni_zero;; k) w
    = k w2).
  { intros k.
    pose proof (detach_steps n w) as D. fold w1 in D.
    unfold mbind, M_bind in D |- *.
    destruct (match limits_ptr n with
              | Some xl => ppe_xpmem_detach xl
              | None => mret tt
              end w) as [[] wa|wa]; [|discriminate D].
    destruct (match client_ptr n with
              | Some xc => ppe_xpmem_detach xc
              | None => mret tt
              end wa) as [[] wb|wb]; [|discriminate D].
    injection D as ->. rewrite P2. reflexivity. }
  rewrite S1. clear S1.
  unfold fini_triggered_lists, read_max_cts.
  destruct (read_null E) as [bound|] eqn:RN.
  - destruct (fini_loop_zeroed (fini_remote_id cmd) (fini_ni_handle_ni cmd)
                (Z.to_nat bound) 0 w2 G2) as (w3 & L3 & C3 & T3).
    assert (G3 : get_ni (fini_remote_id cmd) (fini_ni_handle_ni cmd) w3
                 = Ok ni_zero w3)
      by (eapply get_ni_same_ctx; [|exact G2]; exact C3).
    destruct (ptl_cq_entry_send E <? 0) eqn:SD;
      (eexists _, _; split; [|split];
       [ unfold mbind at 1; unfold M_bind at 1;
         unfold mbind at 1; unfold M_bind at 1;
         rewrite (bind_Ok _ _ _ _ _ G2); simpl;
         rewrite L3, (bind_Ok _ _ _ _ _ G3); simpl;
         unfold mbind, M_bind, emit; simpl; reflexivity
       | eapply get_ni_same_ctx; [|exact G3]; reflexivity
       | simpl; rewrite T3, T2; simpl; rewrite <- !app_assoc; reflexivity ]).
  - exists w2. split; [|split].
    + unfold mbind at 1. unfold M_bind at 1.
      unfold mbind at 1. unfold M_bind at 1.
      rewrite (bind_Ok _ _ _ _ _ G2). simpl. reflexivity.
    + exact G2.
    + exact T2.
Qed.

(** *** Who sends acknowledgements *)

Lemma acks_app tr1 tr2 : acks (tr1 ++ tr2) = acks tr1 ++ acks tr2.
Proof. apply omap_app. Qed.

Lemma quiet_ret {A} (a : A) : quiet (mret a).
Proof.
  intros w. exists []. split; [reflexivity|].
  cbn. rewrite app_nil_r. reflexivity.
Qed.

Lemma quiet_fault {A} : quiet (@fault A).
Proof.
  intros w. exists []. split; [reflexivity|].
  cbn. rewrite app_nil_r. reflexivity.
Qed.

Lemma quiet_bind {A B} (m : M A) (f : A -> M B) :
  quiet m -> (forall a, quiet (f a)) -> quiet (m ≫= f).
Proof.
  intros Hm Hf w. destruct (Hm w) as (tr1 & A1 & T1).
  unfold mbind, M_bind. destruct (m w) as [a w1|w1].
  - destruct (Hf a w1) as (tr2 & A2 & T2).
    exists (tr1 ++ tr2). rewrite acks_app, A1, A2. split; [reflexivity|].
    destruct (f a w1); rewrite T2, T1, app_assoc; reflexivity.
  - exists tr1. auto.
Qed.

Lemma quiet_emit e :
  match e with Ev_cq_entry_send _ _ => False | _ => True end ->
  quiet (emit e).
Proof.
  intros He w. exists [e]. split; [|reflexivity].
  destruct e; try reflexivity. contradiction.
Qed.

Lemma quiet_get_ctx : quiet get_ctx.
Proof.
  intros w. exists []. split; [reflexivity|].
  cbn. rewrite app_nil_r. reflexivity.
Qed.

Lemma quiet_put_ctx c : quiet (put_ctx c).
Proof.
  intros w. exists []. split; [reflexivity|].
  cbn. rewrite app_nil_r. reflexivity.
Qed.

Lemma quiet_of_option {A} (o : option A) : quiet (of_option o).
Proof. destruct o; [apply quiet_ret|apply quiet_fault]. Qed.

Lemma quiet_detach p : quiet (ppe_xpmem_detach p).
Proof. intros w. exists [Ev_xpmem_detach p]. split; reflexivity. Qed.

Lemma quiet_process_limits a : quiet (process_limits a).
Proof.
  intros w. exists []. split; [reflexivity|].
  unfold process_limits.
  destruct (limits_mem w !! a); cbn; rewrite app_nil_r; reflexivity.
Qed.

Lemma quiet_read_limits a : quiet (read_limits a).
Proof.
  intros w. exists []. split; [reflexivity|].
  unfold read_limits.
  destruct (limits_mem w !! a); cbn; rewrite app_nil_r; reflexivity.
Qed.

Create HintDb quiet.
#[local] Hint Resolve quiet_ret quiet_fault quiet_get_ctx quiet_put_ctx
  quiet_of_option quiet_detach quiet_process_limits quiet_read_limits
  : quiet.

(** Take a computation apart along its binds and branches. *)
Ltac quiet_tac :=
  repeat first
    [ solve [auto with quiet]
    | apply quiet_bind; [|intros ?]
    | apply quiet_emit; exact I
    | match goal with
      | |- quiet (if ?c then _ else _) => destruct c
      | |- quiet (match ?o with _ => _ end) => destruct o
      end ].

Lemma quiet_get_client peer : quiet (get_client peer).
Proof. unfold get_client. quiet_tac. Qed.

Lemma quiet_put_client peer cl : quiet (put_client peer cl).
Proof. unfold put_client. quiet_tac. Qed.

#[local] Hint Resolve quiet_get_client quiet_put_client : quiet.

Lemma quiet_get_ni peer i : quiet (get_ni peer i).
Proof. unfold get_ni. quiet_tac. Qed.

Lemma quiet_put_ni peer i n : quiet (put_ni peer i n).
Proof. unfold put_ni. quiet_tac. Qed.

Lemma quiet_set_client_pid peer p : quiet (set_client_pid peer p).
Proof. unfold set_client_pid. quiet_tac. Qed.

Lemma quiet_read_pid i : quiet (read_pid i).
Proof. unfold read_pid. quiet_tac. Qed.

#[local] Hint Resolve quiet_get_ni quiet_put_ni quiet_set_client_pid
  quiet_read_pid : quiet.

Lemma quiet_write_pid i v : quiet (write_pid i v).
Proof. unfold write_pid. quiet_tac. Qed.

#[local] Hint Resolve quiet_write_pid : quiet.


Lemma quiet_pid_loop n peer : forall i, quiet (pid_loop n i peer).
Proof.
  induction n as [|n IH]; intros i; simpl; [apply quiet_ret|].
  apply quiet_bind; [auto with quiet|]. intros p.
  destruct (p =? -1); [quiet_tac|apply IH].
Qed.

#[local] Hint Resolve quiet_pid_loop : quiet.

Lemma quiet_reserve_pid cmd peer : quiet (reserve_pid cmd peer).
Proof. unfold reserve_pid. quiet_tac. Qed.

#[local] Hint Resolve quiet_reserve_pid : quiet.

Lemma quiet_clear_pt_status base i : quiet (clear_pt_status base i).
Proof. unfold clear_pt_status. quiet_tac. Qed.

#[local] Hint Resolve quiet_clear_pt_status : quiet.



(** [send_retval] always ends; when an entry can be allocated it sends one
    acknowledgement, whose [retval] is [PTL_OK]. *)
Lemma send_retval_acks peer rp w :
  exists r w' tr,
    send_retval E peer rp w = Ok r w' /\
    trace w' = trace w ++ tr /\
    acks tr = (if ptl_cq_entry_alloc E <? 0 then [] else [ack_ok rp]) /\
    (0 <= ptl_cq_entry_alloc E -> 0 <= ptl_cq_entry_send E -> r = 0).
Proof.
  unfold send_retval.
  destruct (Z.ltb_spec (ptl_cq_entry_alloc E) 0) as [Ha|Ha].
  - eexists _, _, [Ev_perror]. repeat split. lia.
  - destruct (Z.ltb_spec (ptl_cq_entry_send E) 0) as [Hs|Hs].
    + eexists _, _, [Ev_cq_entry_send peer (ack_ok rp); Ev_perror].
      split; [reflexivity|]. split; [cbn; rewrite <- app_assoc; reflexivity|].
      split; [reflexivity|]. lia.
    + eexists _, _, [Ev_cq_entry_send peer (ack_ok rp)].
      repeat split.
Qed.

Lemma get_client_Ok peer w client :
  index (clients (ctx w)) peer = Some client ->
  get_client peer w = Ok client w.
Proof.
  intros C. unfold get_client, get_ctx, mbind, M_bind. rewrite C. reflexivity.
Qed.

Lemma read_pid_Ok i w p :
  index (pids (ctx w)) i = Some p -> read_pid i w = Ok p w.
Proof.
  intros C. unfold read_pid, get_ctx, mbind, M_bind. rewrite C. reflexivity.
Qed.



(** [cleanup] does not stop on an NI that exists. *)
Lemma cleanup_ends peer i w n :
  get_ni peer i w = Ok n w -> exists w', cleanup peer i w = Ok tt w'.
Proof.
  intros G. unfold cleanup.
  rewrite (bind_Ok _ _ _ _ _ G).
  assert (S1 : exists n1 w1,
    (match limits_ptr n with
     | Some xl =>
         ppe_xpmem_detach xl;; put_ni peer i (set_limits_ptr n None)
     | None => mret tt
     end) w = Ok tt w1 /\ get_ni peer i w1 = Ok n1 w1).
  { destruct (limits_ptr n) as [xl|].
    - set (wd := {| ctx := ctx w;
                    limits_mem := delete (data xl) (limits_mem w);
                    trace := trace w ++ [Ev_xpmem_detach xl] |}).
      assert (Gd : get_ni peer i wd = Ok n wd)
        by (eapply get_ni_same_ctx; [|exact G]; reflexivity).
      destruct (put_ni_get_ni _ _ _ _ (set_limits_ptr n None) Gd)
        as (w1 & P1 & G1 & _).
      exists (set_limits_ptr n None), w1. split; [|exact G1].
      rewrite (bind_Ok _ _ w tt wd) by reflexivity. exact P1.
    - exists n, w. split; [reflexivity|exact G]. }
  destruct S1 as (n1 & w1 & R1 & G1).
  rewrite (bind_Ok _ _ _ _ _ R1), (bind_Ok _ _ _ _ _ G1).
  destruct (client_ptr n1) as [xc|]; [|eexists; reflexivity].
  set (wd := {| ctx := ctx w1;
                limits_mem := delete (data xc) (limits_mem w1);
                trace := trace w1 ++ [Ev_xpmem_detach xc] |}).
  assert (Gd : get_ni peer i wd = Ok n1 wd)
    by (eapply get_ni_same_ctx; [|exact G1]; reflexivity).
  destruct (put_ni_get_ni _ _ _ _ (set_client_ptr n1 None) Gd)
    as (w2 & P2 & _).
  exists w2. rewrite (bind_Ok _ _ w1 tt wd) by reflexivity. exact P2.
Qed.

(** The two stores with which a client takes a free pid. *)
Lemma take_pid peer k w cl :
  index (clients (ctx w)) peer = Some cl ->
  index (pids (ctx w)) k = Some (-1) ->
  exists wa,
    set_client_pid peer k w = Ok tt wa /\
    write_pid k peer wa = Ok tt (took_pid peer k cl w).
Proof.
  intros C Hk. eexists. split.
  - unfold set_client_pid.
    rewrite (bind_Ok _ _ _ _ _ (get_client_Ok _ _ _ C)).
    unfold put_client, get_ctx, put_ctx, mbind, M_bind. simpl. reflexivity.
  - unfold write_pid, read_pid, get_ctx, put_ctx, mbind, M_bind. simpl.
    rewrite Hk. reflexivity.
Qed.

(** *** Where [ni_init_impl] ends *)













End PpeFacts.

Section PpeSamples.
Import Ppe.
#[local] Existing Instance sample_pid_values.

Example fini_with_null_page :
  match ni_fini_impl (sample_env (Some 2)) sample_fini sample_world with
  | Ok r w' => (r, released (trace w'))
  | Fault w' => (-1, released (trace w'))
  end
  = (0, [None; None; None; None; None; None; None; None]).
Proof. vm_compute. reflexivity. Qed.

Lemma ni_fini_use_after_clear_witness :
  exists w',
    ni_fini_impl (sample_env None) sample_fini sample_world = Fault w' /\
    get_ni 0 0 w' = Ok ni_zero w' /\
    trace w' = [Ev_xpmem_detach {| data := 1000 |};
                Ev_xpmem_detach {| data := 2000 |}].
Proof.
  assert (A : 0 <= ptl_cq_entry_alloc (sample_env None)) by (simpl; lia).
  exact (ni_fini_use_after_clear (sample_env None) sample_fini sample_world
           sample_ni A eq_refl).
Defined.



End PpeSamples.

(** ** The consumer side of the ordered queue *)

Section ConsumerFacts.
Import Nemesis Consumer.

(** Writing the [next] field of an entry that is not on the chain leaves the
    chain as it is. *)
Lemma chain_insert_other h p l a x :
  a ∉ l.*1 -> chain h p l -> chain (<[a := x]> h) p l.
Proof.
  revert p. induction l as [|[b w] l IH]; simpl; intros p Hni Hc.
  - exact Hc.
  - destruct Hc as (-> & nx & Hn & Hc). split; [reflexivity|].
    exists nx. split.
    + rewrite lookup_insert_ne; [exact Hn|].
      intros ->. apply Hni. left.
    + apply IH; [|exact Hc]. intros Hin. apply Hni. right. exact Hin.
Qed.

(** The step behind every property of the consumer: from a queue that
    holds [(a, v) :: l], a dequeue whose bound admits [v] takes [a]. *)
Lemma dequeue_head fuel s a v l ub :
  repr s ((a, v) :: l) -> v <= ub ->
  exists s',
    PtlInternalOrderedNEMESISDequeue fuel s ub = Taken (Some a) s' /\
    repr s' l /\
    (l <> [] -> tail (queue s') = tail (queue s)) /\
    (l = [] -> tail (queue s') = nil) /\
    (exists nx, next_of s' !! a = Some nx /\ ptr nx = None) /\
    (forall b, b <> a -> next_of s' !! b = next_of s !! b).
Proof.
  intros (Hc & Hnd & Ht) Hub. simpl in Hc.
  destruct Hc as (Hh & nx & Hn & Hc).
  unfold PtlInternalOrderedNEMESISDequeue. rewrite Hh. simpl.
  assert (B : (v >? ub) = false) by (rewrite Z.gtb_ltb; apply Z.ltb_ge; lia).
  rewrite B, Hn.
  destruct l as [|[b w] l].
  - simpl in Hc. rewrite Hc. simpl in Ht. rewrite Ht.
    unfold PtlInternalAtomicCas128. simpl. rewrite !same_refl. simpl.
    eexists. split; [reflexivity|].
    split; [|split; [|split; [|split]]]; simpl.
    + split; [reflexivity|]. split; [apply NoDup_nil_2|reflexivity].
    + intros C. congruence.
    + reflexivity.
    + exists nx. split; assumption.
    + reflexivity.
  - simpl in Hc. destruct Hc as (-> & nx' & Hn' & Hc). simpl.
    eexists. split; [reflexivity|].
    simpl in Hnd. apply NoDup_cons in Hnd as [Hni Hnd].
    split; [|split; [|split; [|split]]]; simpl.
    + split; [|split].
      * unfold clear_next_ptr. split; [reflexivity|].
        exists nx'. cbn [next_of]. split.
        -- rewrite lookup_insert_ne; [exact Hn'|].
           intros ->. apply Hni. left.
        -- apply chain_insert_other; [|exact Hc].
           intros Hin. apply Hni. right. exact Hin.
      * exact Hnd.
      * exact Ht.
    + reflexivity.
    + intros C. discriminate.
    + eexists. unfold clear_next_ptr. rewrite lookup_insert_eq.
      split; reflexivity.
    + intros b' Hb. unfold clear_next_ptr.
      rewrite lookup_insert_ne; [reflexivity|]. congruence.
Qed.

(** An enqueue that runs alone on a queue holding [l] and whose value the
    tail admits appends the entry. *)
Lemma enqueue_alone_appends fuel s a v l nx :
  repr s l ->
  next_of s !! a = Some nx -> ptr nx = None -> a ∉ l.*1 ->
  val (tail (queue s)) <= v ->
  exists s',
    PtlInternalOrderedNEMESISEnqueue fuel [] s (Some a) v = Done 1 s' /\
    repr s' (l ++ [(a, v)]).
Proof.
  intros (Hc & Hnd & Ht) Ha Hnx Hfresh G.
  unfold PtlInternalOrderedNEMESISEnqueue.
  rewrite Ha, Hnx. simpl. rewrite swap128_alone. simpl.
  assert (B : (val (tail (queue s)) >? v) = false)
    by (rewrite Z.gtb_ltb; apply Z.ltb_ge; lia).
  rewrite B. simpl. rewrite B.
  destruct (last l) as [[a0 v0]|] eqn:L.
  - apply last_Some in L as [l0 ->].
    rewrite Ht. simpl.
    destruct (chain_last _ _ _ _ _ Hc) as (n0 & Hn0 & _).
    rewrite Hn0. eexists. split; [reflexivity|].
    split; [|split]; simpl.
    + eapply chain_snoc; eauto.
    + rewrite fmap_app. apply NoDup_app. split; [exact Hnd|].
      split; [|apply NoDup_singleton].
      intros x Hx Hx'. simpl in Hx'. apply list_elem_of_singleton in Hx'.
      subst x. exact (Hfresh Hx).
    + rewrite last_snoc. reflexivity.
  - apply last_None in L. subst l. rewrite Ht.
    eexists. split; [reflexivity|].
    split; [|split]; simpl.
    + split; [reflexivity|]. exists nx. split; assumption.
    + apply NoDup_singleton.
    + reflexivity.
Qed.

(** A run of dequeues empties a queue whose values the bound admits, in the
    order of the queue. *)
Lemma drain_all fuel ub : forall l s,
  repr s l -> Forall (fun e => e.2 <= ub) l ->
  exists s',
    drain fuel (List.length l) s ub = Some (l.*1, s') /\
    repr s' [] /\
    (l <> [] -> tail (queue s') = nil) /\
    (forall b, b ∉ l.*1 -> next_of s' !! b = next_of s !! b).
Proof.
  induction l as [|[a v] l IH]; intros s R F.
  - exists s. simpl. split; [reflexivity|]. split; [exact R|].
    split; [congruence|reflexivity].
  - apply Forall_cons in F as [Hv F]. simpl in Hv.
    destruct (dequeue_head fuel s a v l ub R Hv)
      as (s1 & E & R1 & Tne & Te & _ & Hoth).
    destruct (IH s1 R1 F) as (s2 & D & R2 & T2 & Hoth2).
    exists s2. simpl. rewrite E, D. simpl.
    split; [reflexivity|]. split; [exact R2|]. split.
    + intros _. destruct l as [|e l].
      * simpl in D. injection D as <-. apply Te. reflexivity.
      * apply T2. discriminate.
    + intros b Hb. rewrite Hoth2, Hoth; [reflexivity| |].
      * intros ->. apply Hb. left.
      * intros Hin. apply Hb. right. exact Hin.
Qed.

(** X1.  First in, first out: from a queue that holds the entry [a] with
    value [v] at its head, followed by [l], a dequeue whose bound is at
    least [v] returns [a] and leaves a queue that holds [l]; the [next]
    pointer of the entry it returns is NULL. *)
Theorem dequeue_fifo (fuel : nat) (s : shmem) (a v : Z) (l : list (Z * Z))
    (ub : Z) :
  repr s ((a, v) :: l) -> v <= ub ->
  exists s',
    PtlInternalOrderedNEMESISDequeue fuel s ub = Taken (Some a) s' /\
    repr s' l /\
    (exists nx, next_of s' !! a = Some nx /\ ptr nx = None).
Proof.
  intros R Hub.
  destruct (dequeue_head fuel s a v l ub R Hub) as (s' & E & R' & _ & _ & N & _).
  exists s'. auto.
Qed.

(** X2.  A dequeue returns NULL and leaves the segment as it was exactly
    when the queue is empty or the value at its head exceeds the bound. *)
Theorem dequeue_refuses (fuel : nat) (s : shmem) (l : list (Z * Z)) (ub : Z) :
  repr s l ->
  (PtlInternalOrderedNEMESISDequeue fuel s ub = Taken None s <->
   match l with
   | [] => True
   | (a, v) :: _ => v > ub
   end).
Proof.
  intros R. destruct l as [|[a v] l].
  - split; [trivial|]. intros _.
    destruct R as (Hc & _). simpl in Hc.
    unfold PtlInternalOrderedNEMESISDequeue. rewrite Hc. reflexivity.
  - split.
    + intros E. destruct (Z_le_gt_dec v ub) as [Hle|Hgt]; [|exact Hgt].
      destruct (dequeue_head fuel s a v l ub R Hle) as (s' & E' & _).
      rewrite E in E'. discriminate.
    + intros Hgt. destruct R as (Hc & _). simpl in Hc.
      destruct Hc as (Hh & _).
      unfold PtlInternalOrderedNEMESISDequeue. rewrite Hh. simpl.
      assert (B : (v >? ub) = true)
        by (rewrite Z.gtb_ltb; apply Z.ltb_lt; lia).
      rewrite B. reflexivity.
Qed.

(** X3.  Enqueue and dequeue compose to a queue: an entry that an enqueue
    appends to a queue holding [l] comes out after the entries of [l], in
    their order, and the queue is empty once it has. *)
Theorem enqueue_then_drain (fuel : nat) (s : shmem) (b v : Z)
    (l : list (Z * Z)) (nx : ordered_NEMESIS_ptr) (ub : Z) :
  repr s l ->
  next_of s !! b = Some nx -> ptr nx = None -> b ∉ l.*1 ->
  val (tail (queue s)) <= v ->
  Forall (fun e => e.2 <= ub) l -> v <= ub ->
  exists s1 s2,
    PtlInternalOrderedNEMESISEnqueue fuel [] s (Some b) v = Done 1 s1 /\
    drain fuel (S (List.length l)) s1 ub = Some (l.*1 ++ [b], s2) /\
    repr s2 [].
Proof.
  intros R Hb Hnx Hfresh Ht F Hv.
  destruct (enqueue_alone_appends fuel s b v l nx R Hb Hnx Hfresh Ht)
    as (s1 & E & R1).
  assert (F1 : Forall (fun e : Z * Z => e.2 <= ub) (l ++ [(b, v)])).
  { apply Forall_app. split; [exact F|]. apply Forall_singleton. exact Hv. }
  destruct (drain_all fuel ub _ s1 R1 F1) as (s2 & D & R2 & _).
  exists s1, s2. split; [exact E|]. split; [|exact R2].
  rewrite length_app, Nat.add_comm in D. simpl in D.
  rewrite fmap_app in D. exact D.
Qed.

(** X4.  The order restarts when the queue runs empty: the dequeue that
    takes the last entry resets the tail to (NULL, 0), so that the next
    enqueue is accepted with any sequence value from zero, also one below
    the values that went through the queue before. *)
Theorem order_restarts_when_empty (fuel : nat) (s : shmem)
    (l : list (Z * Z)) (b v : Z) (nx : ordered_NEMESIS_ptr) (ub : Z) :
  repr s l -> l <> [] ->
  Forall (fun e => e.2 <= ub) l ->
  next_of s !! b = Some nx -> ptr nx = None -> b ∉ l.*1 ->
  0 <= v ->
  exists s1 s2,
    drain fuel (List.length l) s ub = Some (l.*1, s1) /\
    tail (queue s1) = nil /\
    PtlInternalOrderedNEMESISEnqueue fuel [] s1 (Some b) v = Done 1 s2 /\
    repr s2 [(b, v)].
Proof.
  intros R Hne F Hb Hnx Hfresh Hv.
  destruct (drain_all fuel ub l s R F) as (s1 & D & R1 & T1 & Hoth).
  specialize (T1 Hne).
  assert (Hb1 : next_of s1 !! b = Some nx) by (rewrite Hoth; assumption).
  destruct (enqueue_alone_appends fuel s1 b v [] nx R1 Hb1 Hnx)
    as (s2 & E & R2).
  { apply not_elem_of_nil. }
  { rewrite T1. simpl. exact Hv. }
  exists s1, s2. auto.
Qed.

End ConsumerFacts.

Section ConsumerSamples.
Import Nemesis Consumer.

Lemma sample_pair_repr : repr sample_pair [(64, 5); (128, 7)].
Proof.
  split; [|split].
  - simpl. split; [reflexivity|]. eexists. split; [reflexivity|].
    split; [reflexivity|]. eexists. split; reflexivity.
  - apply (bool_decide_unpack _). vm_compute. reflexivity.
  - reflexivity.
Qed.

Lemma sample_pair_bounded : Forall (fun e : Z * Z => e.2 <= 10) [(64, 5); (128, 7)].
Proof. repeat constructor; simpl; lia. Qed.

Lemma sample_pair_fresh : 192 ∉ [(64, 5); (128, 7)].*1.
Proof. apply (bool_decide_unpack _). vm_compute. reflexivity. Qed.

Lemma dequeue_fifo_witness :
  exists s',
    PtlInternalOrderedNEMESISDequeue 0 sample_pair 10 = Taken (Some 64) s' /\
    repr s' [(128, 7)] /\
    (exists nx, next_of s' !! 64 = Some nx /\ ptr nx = None).
Proof.
  apply (dequeue_fifo 0 sample_pair 64 5 [(128, 7)] 10 sample_pair_repr).
  lia.
Defined.

Lemma dequeue_refuses_witness :
  PtlInternalOrderedNEMESISDequeue 0 sample_pair 4 = Taken None sample_pair
  <-> 5 > 4.
Proof.
  exact (dequeue_refuses 0 sample_pair [(64, 5); (128, 7)] 4 sample_pair_repr).
Defined.

Lemma enqueue_then_drain_witness :
  exists s1 s2,
    PtlInternalOrderedNEMESISEnqueue 0 [] sample_pair (Some 192) 9
      = Done 1 s1 /\
    drain 0 3 s1 10 = Some ([64; 128; 192], s2) /\
    repr s2 [].
Proof.
  apply (enqueue_then_drain 0 sample_pair 192 9 [(64, 5); (128, 7)] nil 10
           sample_pair_repr eq_refl eq_refl sample_pair_fresh).
  - simpl. lia.
  - exact sample_pair_bounded.
  - lia.
Defined.

Lemma order_restarts_when_empty_witness :
  exists s1 s2,
    drain 0 2 sample_pair 10 = Some ([64; 128], s1) /\
    tail (queue s1) = nil /\
    PtlInternalOrderedNEMESISEnqueue 0 [] s1 (Some 192) 1 = Done 1 s2 /\
    repr s2 [(192, 1)].
Proof.
  apply (order_restarts_when_empty 0 sample_pair [(64, 5); (128, 7)] 192 1
           nil 10 sample_pair_repr).
  - discriminate.
  - exact sample_pair_bounded.
  - reflexivity.
  - reflexivity.
  - exact sample_pair_fresh.
  - lia.
Defined.

End ConsumerSamples.

(** ** Identifiers *)

Section IdentFacts.
Import Wire Ident.
Context {P : Ppe.pid_values}.

(** X5.  A NID survives the trip to a socket address and back, and a socket
    address the trip to a NID and back. *)
Theorem nid_addr_roundtrip (x : Z) :
  in_u32 x ->
  addr_to_nid (nid_to_addr x) = x /\ nid_to_addr (addr_to_nid x) = x.
Proof.
  intros Hx. unfold addr_to_nid, nid_to_addr, ntohl.
  rewrite htonl_htonl, u32_small by exact Hx. split; reflexivity.
Qed.

(** X6.  A PID survives the trip to a port and back, but for [PTL_PID_ANY],
    which travels as port 0 and comes back as PID 0: the port of
    [PTL_PID_ANY] is the port of PID 0. *)
Theorem pid_port_roundtrip (pid : Z) :
  in_u16 pid ->
  port_to_pid (pid_to_port pid)
    = (if pid =? Ppe.PTL_PID_ANY then 0 else pid) /\
  pid_to_port Ppe.PTL_PID_ANY = pid_to_port 0.
Proof.
  intros Hp. unfold port_to_pid, pid_to_port, ntohs.
  rewrite Z.eqb_refl. split.
  - destruct (pid =? Ppe.PTL_PID_ANY); [reflexivity|].
    rewrite htons_htons, u16_small by exact Hp. reflexivity.
  - destruct (0 =? Ppe.PTL_PID_ANY); reflexivity.
Qed.

End IdentFacts.

Section IdentSamples.
Import Wire Ident.
#[local] Existing Instance Ppe.sample_pid_values.

Lemma nid_addr_roundtrip_witness :
  addr_to_nid (nid_to_addr 0x0a000001) = 0x0a000001 /\
  nid_to_addr (addr_to_nid 0x0a000001) = 0x0a000001.
Proof. apply nid_addr_roundtrip. unfold in_u32. lia. Defined.

Lemma pid_port_roundtrip_witness :
  port_to_pid (pid_to_port 4660) = 4660 /\
  pid_to_port 65535 = pid_to_port 0.
Proof.
  assert (R : in_u16 4660) by (unfold in_u16; lia).
  exact (pid_port_roundtrip 4660 R).
Defined.

Example pid_any_travels_as_zero : port_to_pid (pid_to_port 65535) = 0.
Proof. reflexivity. Qed.

End IdentSamples.

(** ** The other immediate operations *)

(** Case analysis on an integer known to lie in a short interval. *)
Ltac cases_Z x lo hi :=
  let rec go k n :=
    lazymatch n with
    | O => exfalso; lia
    | S ?n' =>
        let H := fresh "E" in
        destruct (Z.eq_dec x k) as [H|H];
        [ subst x | let k' := eval compute in (k + 1) in go k' n' ]
    end in
  let n := eval compute in (Z.to_nat (hi - lo)) in
  go lo n.

Section SubmitFacts.
Import Move Submit.
Context {ack : ack_req_values}.

Lemma index_out_of_range {A} (a : list A) i :
  i < 0 \/ Z.of_nat (List.length a) <= i -> index a i = None.
Proof.
  intros H. unfold index. destruct (Z.ltb_spec i 0); [reflexivity|].
  apply lookup_ge_None. lia.
Qed.

(** With an MD and an NI at hand the checks always answer, and with one of
    two codes. *)
Lemma check_get_answers m n local_offset length :
  check_get (Some m) local_offset length (Some n) = Some PTL_OK \/
  check_get (Some m) local_offset length (Some n) = Some PTL_ARG_INVALID.
Proof.
  unfold check_get. destruct (_ >? _); [auto|]. simpl.
  destruct (_ >? _); auto.
Qed.

Lemma check_atomic_answers m n local_offset length ack_req atom_op atom_type :
  check_atomic (Some m) local_offset length (Some n) ack_req atom_op atom_type
    = Some PTL_OK \/
  check_atomic (Some m) local_offset length (Some n) ack_req atom_op atom_type
    = Some PTL_ARG_INVALID.
Proof.
  unfold check_atomic. destruct (_ >? _); [auto|]. simpl.
  destruct (_ >? _); [auto|].
  destruct (_ || _); [auto|].
  destruct (_ && _); [auto|].
  destruct (_ && _); [auto|].
  destruct ((atom_op <? PTL_MIN) || (atom_op >=? PTL_OP_LAST)) eqn:R; [auto|].
  apply orb_false_iff in R as [Hlo Hhi]. apply Z.ltb_ge in Hlo.
  rewrite Z.geb_leb in Hhi. apply Z.leb_gt in Hhi.
  unfold PTL_MIN, PTL_OP_LAST in *.
  destruct (index op_info atom_op) as [info|] eqn:I.
  - simpl. repeat (destruct (_ : bool); [auto|]). auto.
  - exfalso. unfold index in I. destruct (Z.ltb_spec atom_op 0); [lia|].
    apply lookup_ge_None in I. rewrite op_info_table in I. simpl in I. lia.
Qed.

Lemma check_atomic_forbidden_on md n local_offset length ack_req atom_op
    atom_type :
  atomic_forbidden atom_op atom_type ->
  check_atomic md local_offset length (Some n) ack_req atom_op atom_type
    = Some PTL_ARG_INVALID.
Proof.
  intros F. apply atomic_forbidden_arith in F.
  unfold check_atomic. destruct md as [m|]; [|reflexivity]. simpl.
  destruct (_ >? _); [reflexivity|].
  destruct (_ >? _); [reflexivity|].
  destruct (_ || _); [reflexivity|].
  destruct (_ && _); [reflexivity|].
  destruct (_ && _); [reflexivity|].
  destruct ((atom_op <? PTL_MIN) || (atom_op >=? PTL_OP_LAST)) eqn:R;
    [reflexivity|].
  apply orb_false_iff in R as [Hlo Hhi]. apply Z.ltb_ge in Hlo.
  rewrite Z.geb_leb in Hhi. apply Z.leb_gt in Hhi.
  unfold PTL_MIN, PTL_OP_LAST in *.
  clear - F Hlo Hhi.
  cases_Z atom_op 0 18; rewrite op_info_table; simpl; try reflexivity;
    repeat match goal with
    | |- (if ?c then _ else _) = _ => destruct c eqn:?; [reflexivity|]
    end;
    unfold PTL_FLOAT, PTL_DOUBLE, PTL_FLOAT_COMPLEX, PTL_DOUBLE_COMPLEX,
      PTL_CHAR, PTL_DATATYPE_LAST in *;
    repeat match goal with
    | H : (_ || _) = false |- _ => apply orb_false_iff in H; destruct H
    | H : (_ && _) = false |- _ => apply andb_false_iff in H; destruct H
    | H : (_ =? _) = false |- _ => apply Z.eqb_neq in H
    end; try discriminate; exfalso; lia.
Qed.

(** X7.  [get_operand] never fails on a datatype of the table: it answers
    [PTL_OK] with the operand cut to the width of the datatype, and with all
    64 bits set for the one 16-byte datatype, whose operand it does not
    read. *)
Theorem get_operand_reads_width (type operand size : Z) :
  index atom_type_size type = Some size ->
  get_operand type operand
    = Some (PTL_OK,
            if size =? 16 then Z.ones 64
            else Z.land operand (Z.ones (8 * size))).
Proof.
  intros Hs. pose proof (index_Some_range _ _ _ Hs) as R.
  unfold get_operand. rewrite Hs. simpl.
  rewrite atom_type_size_table in Hs, R. simpl in R.
  cases_Z type 0 12; injection Hs as <-; reflexivity.
Qed.

(** X8.  Every operation of the table belongs to one API and one only: the
    operations that [check_atomic] can admit are refused by [check_swap]
    whatever the other arguments, and the other way round. *)
Theorem op_classes_disjoint (atom_op : Z) :
  PTL_MIN <= atom_op < PTL_OP_LAST ->
  exists info,
    index op_info atom_op = Some info /\
    ((atomic_ok info = 1 /\ swap_ok info = 0 /\
      forall md lo len ni ty,
        check_swap md lo len ni atom_op ty <> Some PTL_OK) \/
     (atomic_ok info = 0 /\ swap_ok info = 1 /\
      forall md lo len ni ack_req ty,
        check_atomic md lo len ni ack_req atom_op ty <> Some PTL_OK)).
Proof.
  unfold PTL_MIN, PTL_OP_LAST. intros R.
  cases_Z atom_op 0 18; (eexists; split; [reflexivity|]); simpl;
    first
      [ left; split; [reflexivity|]; split; [reflexivity|];
        intros md lo len ni ty; unfold check_swap;
        destruct md as [m|]; [|discriminate];
        destruct (_ >? _); [discriminate|];
        destruct ni as [n|]; simpl; [|discriminate];
        destruct (_ >? _); discriminate
      | right; split; [reflexivity|]; split; [reflexivity|];
        intros md lo len ni ack_req ty; unfold check_atomic;
        destruct md as [m|]; [|discriminate];
        destruct (_ >? _); [discriminate|];
        destruct ni as [n|]; simpl; [|discriminate];
        destruct (_ >? _); [discriminate|];
        destruct (_ || _); [discriminate|];
        destruct (_ && _); [discriminate|];
        destruct (_ && _); discriminate ].
Qed.

(** X9.  In a build with [PTL_CHECK_BUILD], once the library is initialised
    and the handle names an MD, [PtlGet] refuses with [PTL_ARG_INVALID],
    giving back the MD and the library, exactly when the 64-bit sum of
    offset and length exceeds the length of the MD or the length exceeds
    [max_msg_size]; otherwise it returns the error of [xi_alloc], or starts
    one XI of operation [OP_GET] on that MD. *)
Theorem PtlGet_checks (E : env)
    (md_handle local_offset length target_id pt_index match_bits
     remote_offset user_ptr : Z) (m : md_t) :
  PTL_CHECK_BUILD E = true ->
  get_gbl E = PTL_OK ->
  md_get E md_handle = (PTL_OK, Some m) ->
  let call := PtlGet E md_handle local_offset length target_id pt_index
                match_bits remote_offset user_ptr in
  let refused := u64 (local_offset + length) > md_length m \/
                 length > max_msg_size (limits (md_ni m)) in
  (refused -> call = Returns PTL_ARG_INVALID [Ev_md_put (Some m); Ev_gbl_put]) /\
  (~ refused ->
   if is_err (xi_alloc E (md_ni m)).1
   then call = Returns (xi_alloc E (md_ni m)).1
                 [Ev_md_put (Some m); Ev_gbl_put]
   else exists xi,
     call = Returns PTL_OK
              [Ev_xi_alloc (md_ni m); Ev_process_init xi; Ev_gbl_put] /\
     xi_operation xi = Some OP_GET /\ xi_get_md xi = Some m /\
     xi_rlength xi = length /\ xi_get_offset xi = local_offset /\
     xi_get_resid xi = length /\ xi_roffset xi = remote_offset /\
     xi_state xi = Some STATE_INIT_START /\
     xi_put_md xi = xi_put_md (xi_alloc E (md_ni m)).2).
Proof.
  intros Hb Hg Hm call refused. subst call refused.
  unfold PtlGet. rewrite Hg, Hm, Hb. simpl.
  destruct (u64 (local_offset + length) >? md_length m) eqn:C1.
  - split; [reflexivity|]. intros N. exfalso. apply N. left.
    rewrite Z.gtb_ltb in C1. apply Z.ltb_lt in C1. lia.
  - simpl.
    destruct (length >? max_msg_size (limits (md_ni m))) eqn:C2.
    + split; [reflexivity|]. intros N. exfalso. apply N. right.
      rewrite Z.gtb_ltb in C2. apply Z.ltb_lt in C2. lia.
    + rewrite Z.gtb_ltb in C1, C2. apply Z.ltb_ge in C1, C2. simpl. split.
      * intros [?|?]; lia.
      * intros _. destruct (xi_alloc E (md_ni m)) as [err xi0]. simpl.
        destruct (is_err err); [reflexivity|].
        eexists. split; [reflexivity|]. simpl. repeat split; reflexivity.
Qed.

(** X10.  [PtlPut], [PtlGet] and [PtlAtomic] keep the reference discipline
    in every build and for every argument: a call that returns an error has
    given back the MD if it had got it, and the library if it had got it, and
    has started nothing; a call that returns [PTL_OK] has started one XI and
    given back the library only, the MD staying with the XI. *)
Theorem one_md_submissions_disciplined (E : env)
    (h lo len ack_req target pt mb ro up hd op ty : Z) :
  disciplined E (held1 E h) (PtlPut E h lo len ack_req target pt mb ro up hd) /\
  disciplined E (held1 E h) (PtlGet E h lo len target pt mb ro up) /\
  disciplined E (held1 E h)
    (PtlAtomic E h lo len ack_req target pt mb ro up hd op ty).
Proof.
  unfold PtlPut, PtlGet, PtlAtomic, held1, disciplined.
  destruct (is_err (get_gbl E)) eqn:G.
  { rewrite G. simpl. auto. }
  destruct (md_get E h) as [err md]. simpl.
  destruct (is_err err) eqn:Er.
  { rewrite Er. simpl. auto. }
  repeat split;
    match goal with
    | |- context [if PTL_CHECK_BUILD E then ?c else _] =>
        destruct (if PTL_CHECK_BUILD E then c else Some PTL_OK) as [e|];
        [|exact I];
        destruct (is_err e) eqn:Ee; [rewrite Ee; simpl; auto|];
        destruct (to_ni md) as [n|]; [|exact I];
        destruct (xi_alloc E n) as [e' xi];
        destruct (is_err e') eqn:Ee'; [rewrite Ee'; simpl; auto|];
        simpl; repeat split; eexists; split; reflexivity
    end.
Qed.

(** X11.  So do [PtlFetchAtomic] and [PtlSwap], which hold two MDs: on an
    error they give back the put MD first and the get MD next, or the get MD
    alone when the put handle did not resolve. *)
Theorem two_md_submissions_disciplined (E : env)
    (hg lgo hp lpo len target pt mb ro up hd operand op ty : Z) :
  disciplined E (held2 E hg hp)
    (PtlFetchAtomic E hg lgo hp lpo len target pt mb ro up hd op ty) /\
  disciplined E (held2 E hg hp)
    (PtlSwap E hg lgo hp lpo len target pt mb ro up hd operand op ty).
Proof.
  unfold PtlFetchAtomic, PtlSwap, held2, disciplined.
  destruct (is_err (get_gbl E)) eqn:G.
  { rewrite G. simpl. auto. }
  destruct (md_get E hg) as [err gmd]. simpl.
  destruct (is_err err) eqn:Er.
  { rewrite Er. simpl. auto. }
  destruct (md_get E hp) as [err' pmd]. simpl.
  destruct (is_err err') eqn:Er'.
  { rewrite Er'. simpl. auto. }
  split.
  - destruct (if PTL_CHECK_BUILD E then _ else _) as [e|]; [|exact I].
    destruct (is_err e) eqn:Ee; [rewrite Ee; simpl; auto|].
    destruct (to_ni gmd) as [n|]; [|exact I].
    destruct (xi_alloc E n) as [e' xi].
    destruct (is_err e') eqn:Ee'; [rewrite Ee'; simpl; auto|].
    simpl. repeat split. eexists. split; reflexivity.
  - destruct (if PTL_CHECK_BUILD E then _ else _) as [e|]; [|exact I].
    destruct (is_err e) eqn:Ee; [rewrite Ee; simpl; auto|].
    destruct (index op_info op) as [info|]; [|exact I].
    destruct (if use_operand info =? 0 then _ else _) as [[e1 opval]|];
      [|exact I].
    destruct (is_err e1) eqn:Ee1; [rewrite Ee1; simpl; auto|].
    destruct (to_ni gmd) as [n|]; [|exact I].
    destruct (xi_alloc E n) as [e' xi].
    destruct (is_err e') eqn:Ee'; [rewrite Ee'; simpl; auto|].
    simpl. repeat split. eexists. split; reflexivity.
Qed.

(** X12.  In a build with [PTL_CHECK_BUILD], once the library is initialised
    and both handles name MDs, [PtlFetchAtomic] refuses with
    [PTL_ARG_INVALID], giving back both MDs and the library, every
    combination that the atomic op matrix forbids, and every pair of MDs that
    are not on the same NI. *)
Theorem PtlFetchAtomic_checks (E : env)
    (hg lgo hp lpo len target pt mb ro up hd op ty : Z) (gm pm : md_t) :
  PTL_CHECK_BUILD E = true ->
  get_gbl E = PTL_OK ->
  md_get E hg = (PTL_OK, Some gm) ->
  md_get E hp = (PTL_OK, Some pm) ->
  atomic_forbidden op ty \/ ni_addr (md_ni pm) <> ni_addr (md_ni gm) ->
  PtlFetchAtomic E hg lgo hp lpo len target pt mb ro up hd op ty
    = Returns PTL_ARG_INVALID
        [Ev_md_put (Some pm); Ev_md_put (Some gm); Ev_gbl_put].
Proof.
  intros Hb Hg Hgm Hpm Hbad.
  unfold PtlFetchAtomic. rewrite Hg, Hgm. simpl. rewrite Hpm, Hb. simpl.
  unfold fetch_checks.
  destruct (check_get_answers gm (md_ni gm) lgo len) as [-> | ->];
    cbn -[check_atomic]; [|reflexivity].
  destruct Hbad as [F|Hni].
  - rewrite check_atomic_forbidden_on by exact F. reflexivity.
  - destruct (check_atomic_answers pm (md_ni gm) lpo len PTL_NO_ACK_REQ op ty)
      as [-> | ->]; simpl; [|reflexivity].
    apply Z.eqb_neq in Hni. rewrite Hni. reflexivity.
Qed.

(** X13.  Without [PTL_CHECK_BUILD] nothing bounds [atom_op] before
    [PtlSwap] reads [op_info[atom_op].use_operand]: with an operation
    outside the table the call reads outside the array.  With
    [PTL_CHECK_BUILD] and two MDs the same call is refused with
    [PTL_ARG_INVALID]. *)
Theorem PtlSwap_op_outside_table (E : env)
    (hg lgo hp lpo len target pt mb ro up hd operand op ty : Z)
    (gm pm : md_t) :
  get_gbl E = PTL_OK ->
  md_get E hg = (PTL_OK, Some gm) ->
  md_get E hp = (PTL_OK, Some pm) ->
  op < PTL_MIN \/ op >= PTL_OP_LAST ->
  PtlSwap E hg lgo hp lpo len target pt mb ro up hd operand op ty
    = if PTL_CHECK_BUILD E
      then Returns PTL_ARG_INVALID
             [Ev_md_put (Some pm); Ev_md_put (Some gm); Ev_gbl_put]
      else Undefined.
Proof.
  intros Hg Hgm Hpm Hop. unfold PTL_MIN, PTL_OP_LAST in Hop.
  unfold PtlSwap. rewrite Hg, Hgm. simpl. rewrite Hpm.
  destruct (PTL_CHECK_BUILD E); simpl.
  - unfold swap_checks.
    destruct (check_get_answers gm (md_ni gm) lgo len) as [-> | ->];
      cbn -[check_swap]; [|reflexivity].
    unfold check_swap. destruct (_ >? _); [reflexivity|]. simpl.
    destruct (_ >? _); [reflexivity|].
    assert (R : (op <? PTL_MIN) || (op >=? PTL_OP_LAST) = true).
    { unfold PTL_MIN, PTL_OP_LAST. apply orb_true_iff.
      rewrite Z.geb_leb, Z.ltb_lt, Z.leb_le. lia. }
    rewrite R. reflexivity.
  - rewrite index_out_of_range; [reflexivity|].
    rewrite op_info_table. simpl. lia.
Qed.

End SubmitFacts.

Section SubmitSamples.
Import Move Submit.
#[local] Existing Instance sample_ack.

Lemma get_operand_reads_width_witness :
  get_operand PTL_DOUBLE_COMPLEX 5 = Some (PTL_OK, Z.ones 64).
Proof. exact (get_operand_reads_width PTL_DOUBLE_COMPLEX 5 16 eq_refl). Defined.

Example get_operand_short : get_operand PTL_SHORT 0x12345678 = Some (PTL_OK, 0x5678).
Proof. reflexivity. Qed.

Lemma op_classes_disjoint_witness :
  exists info,
    index op_info PTL_CSWAP = Some info /\
    ((atomic_ok info = 1 /\ swap_ok info = 0 /\
      forall md lo len ni ty,
        check_swap md lo len ni PTL_CSWAP ty <> Some PTL_OK) \/
     (atomic_ok info = 0 /\ swap_ok info = 1 /\
      forall md lo len ni ack_req ty,
        check_atomic md lo len ni ack_req PTL_CSWAP ty <> Some PTL_OK)).
Proof.
  apply (op_classes_disjoint PTL_CSWAP).
  unfold PTL_MIN, PTL_CSWAP, PTL_OP_LAST. lia.
Defined.

Lemma PtlGet_checks_witness :
  PtlGet (sample_env true) 1 0 100 0 0 0 0 0
    = Returns PTL_ARG_INVALID [Ev_md_put (Some sample_md); Ev_gbl_put].
Proof.
  apply (proj1 (PtlGet_checks (sample_env true) 1 0 100 0 0 0 0 0 sample_md
                  eq_refl eq_refl eq_refl)).
  left. vm_compute. reflexivity.
Defined.

Example get_runs :
  ret_of (PtlGet (sample_env true) 1 8 16 0 0 0 0 0) = Some PTL_OK.
Proof. reflexivity. Qed.

Lemma PtlFetchAtomic_checks_witness :
  PtlFetchAtomic two_ni_env 1 0 2 0 8 0 0 0 0 0 0 PTL_SUM PTL_INT
    = Returns PTL_ARG_INVALID
        [Ev_md_put (Some other_md); Ev_md_put (Some sample_md); Ev_gbl_put].
Proof.
  apply (PtlFetchAtomic_checks two_ni_env 1 0 2 0 8 0 0 0 0 0 0 PTL_SUM
           PTL_INT sample_md other_md eq_refl eq_refl eq_refl eq_refl).
  right. simpl. lia.
Defined.

Example fetch_atomic_runs :
  ret_of (PtlFetchAtomic two_ni_env 1 0 1 0 8 0 0 0 0 0 0 PTL_SUM PTL_INT)
    = Some PTL_OK.
Proof. reflexivity. Qed.

Lemma PtlSwap_op_outside_table_witness :
  PtlSwap (sample_env false) 1 0 1 0 8 0 0 0 0 0 0 0 PTL_OP_LAST PTL_INT
    = Undefined.
Proof.
  apply (PtlSwap_op_outside_table (sample_env false) 1 0 1 0 8 0 0 0 0 0 0 0
           PTL_OP_LAST PTL_INT sample_md sample_md eq_refl eq_refl eq_refl).
  right. unfold PTL_OP_LAST. lia.
Defined.

End SubmitSamples.

(** ** The triggered operations *)

Section TriggeredFacts.
Import Move Triggered.
Context {ack : ack_req_values}.

(** [get_operand] has one return code. *)
Lemma get_operand_code type operand err opval :
  get_operand type operand = Some (err, opval) -> err = PTL_OK.
Proof.
  unfold get_operand. destruct (index atom_type_size type); simpl;
    [|discriminate].
  intros [= <- _]. reflexivity.
Qed.

(** X14.  With the library initialised, the MD handle resolved and a trigger
    counter at hand, [PtlTriggeredPut] does what [PtlPut] does with the same
    arguments, with two differences: it gives the counter back, first of all
    on an error; and instead of starting the XI it posts it on the counter,
    with the threshold stored in it. *)
Theorem PtlTriggeredPut_defers (E : env)
    (md_handle local_offset length ack_req target_id pt_index match_bits
     remote_offset user_ptr hdr_data trig_ct_handle threshold : Z)
    (md : option md_t) (ct : ct_t) :
  get_gbl (base E) = PTL_OK ->
  md_get (base E) md_handle = (PTL_OK, md) ->
  ct_get E trig_ct_handle = (PTL_OK, Some ct) ->
  deferred ct threshold
    (PtlPut (base E) md_handle local_offset length ack_req target_id pt_index
       match_bits remote_offset user_ptr hdr_data)
  = Some (PtlTriggeredPut E md_handle local_offset length ack_req target_id
            pt_index match_bits remote_offset user_ptr hdr_data
            trig_ct_handle threshold).
Proof.
  intros Hg Hm Hc. unfold PtlPut, PtlTriggeredPut.
  rewrite Hg, Hm. simpl. rewrite Hc. simpl. rewrite andb_false_r.
  destruct (if PTL_CHECK_BUILD (base E) then _ else _) as [e|];
    [|reflexivity].
  destruct (is_err e) eqn:Ee.
  { simpl. rewrite Ee. reflexivity. }
  destruct (to_ni md) as [n|]; [|reflexivity].
  destruct (xi_alloc (base E) n) as [e' xi].
  destruct (is_err e') eqn:Ee'.
  { simpl. rewrite Ee'. reflexivity. }
  reflexivity.
Qed.

(** X15.  The same holds of [PtlTriggeredSwap] and [PtlSwap].  The one
    return of [PtlTriggeredSwap] that would give back the library but
    neither the MDs nor the counter, after a failure of [get_operand], is
    never taken. *)
Theorem PtlTriggeredSwap_defers (E : env)
    (hg lgo hp lpo len target pt mb ro up hd operand op ty trig threshold : Z)
    (get_md put_md : option md_t) (ct : ct_t) :
  get_gbl (base E) = PTL_OK ->
  md_get (base E) hg = (PTL_OK, get_md) ->
  md_get (base E) hp = (PTL_OK, put_md) ->
  ct_get E trig = (PTL_OK, Some ct) ->
  deferred ct threshold
    (PtlSwap (base E) hg lgo hp lpo len target pt mb ro up hd operand op ty)
  = Some (PtlTriggeredSwap E hg lgo hp lpo len target pt mb ro up hd operand
            op ty trig threshold).
Proof.
  intros Hg Hgm Hpm Hc. unfold PtlSwap, PtlTriggeredSwap.
  rewrite Hg, Hgm. simpl. rewrite Hpm. simpl. rewrite Hc. simpl.
  rewrite andb_false_r.
  destruct (if PTL_CHECK_BUILD (base E) then _ else _) as [e|];
    [|reflexivity].
  destruct (is_err e) eqn:Ee.
  { simpl. rewrite Ee. reflexivity. }
  destruct (index op_info op) as [info|]; [|reflexivity].
  destruct (if use_operand info =? 0 then _ else _) as [[e1 opval]|] eqn:Op;
    [|reflexivity].
  assert (e1 = PTL_OK) as ->.
  { destruct (use_operand info =? 0).
    - injection Op as <- _. reflexivity.
    - eapply get_operand_code, Op. }
  simpl.
  destruct (to_ni get_md) as [n|]; [|reflexivity].
  destruct (xi_alloc (base E) n) as [e' xi].
  destruct (is_err e') eqn:Ee'.
  { simpl. rewrite Ee'. reflexivity. }
  reflexivity.
Qed.

(** X16.  The trigger counter of [PtlTriggeredPut]: when [ct_get] fails the
    call returns its code, having given back the MD and the library; with
    [PTL_CHECK_BUILD] a NULL counter is refused with [PTL_ARG_INVALID] in
    the same way, no counter being given back; without it the NULL counter
    is passed on, to [post_ct] and to [ct_put], whenever the put itself
    goes through. *)
Theorem PtlTriggeredPut_trigger_counter (E : env)
    (md_handle local_offset length ack_req target_id pt_index match_bits
     remote_offset user_ptr hdr_data trig_ct_handle threshold : Z)
    (md : option md_t) :
  get_gbl (base E) = PTL_OK ->
  md_get (base E) md_handle = (PTL_OK, md) ->
  let call := PtlTriggeredPut E md_handle local_offset length ack_req
                target_id pt_index match_bits remote_offset user_ptr hdr_data
                trig_ct_handle threshold in
  (is_err (ct_get E trig_ct_handle).1 = true ->
   call = Returns (ct_get E trig_ct_handle).1
            [Ev (Ev_md_put md); Ev Ev_gbl_put]) /\
  (ct_get E trig_ct_handle = (PTL_OK, None) ->
   if PTL_CHECK_BUILD (base E)
   then call = Returns PTL_ARG_INVALID [Ev (Ev_md_put md); Ev Ev_gbl_put]
   else forall n xi,
     PtlPut (base E) md_handle local_offset length ack_req target_id pt_index
       match_bits remote_offset user_ptr hdr_data
     = Move.Returns PTL_OK [Ev_xi_alloc n; Ev_process_init xi; Move.Ev_gbl_put] ->
     call = Returns PTL_OK
              [Ev (Ev_xi_alloc n);
               Ev_post_ct (with_threshold xi threshold) None;
               Ev_ct_put None; Ev Ev_gbl_put]).
Proof.
  intros Hg Hm call. subst call. unfold PtlTriggeredPut, PtlPut.
  rewrite Hg, Hm. simpl. split.
  - destruct (ct_get E trig_ct_handle) as [e c]. simpl. intros ->.
    reflexivity.
  - intros ->. simpl. destruct (PTL_CHECK_BUILD (base E)); simpl;
      [reflexivity|].
    intros n xi. destruct (to_ni md) as [n'|]; [|discriminate].
    destruct (xi_alloc (base E) n') as [e' xi'].
    destruct (is_err e'); [discriminate|].
    intros [= <- <-]. reflexivity.
Qed.

End TriggeredFacts.

Section CtOpsFacts.
Import Triggered CtOps.

Lemma u64_add_l x y : u64 (u64 x + y) = u64 (x + y).
Proof.
  unfold u64. rewrite !Z.land_ones by lia.
  apply Zplus_mod_idemp_l.
Qed.

Lemma ct_set_step (E : env) h a new_ct t th c w :
  get_gbl E = PTL_OK -> ct_get E h = (PTL_OK, Some a) ->
  cts w !! a = Some c ->
  exists w',
    PtlTriggeredCTSet E h new_ct t th w = Returns PTL_OK w' /\
    cts w' = <[a := {| ct_addr := ct_addr c; ct_event := new_ct;
                       ct_ni := ct_ni c |}]> (cts w).
Proof.
  intros Hg Hc Ha. unfold PtlTriggeredCTSet. rewrite Hg, Hc, Ha. simpl.
  eexists. split; [reflexivity|].
  unfold wake. destruct (_ =? _); reflexivity.
Qed.

Lemma ct_inc_step (E : env) h a inc t th c w :
  get_gbl E = PTL_OK -> ct_get E h = (PTL_OK, Some a) ->
  cts w !! a = Some c ->
  exists w',
    PtlTriggeredCTInc E h inc t th w = Returns PTL_OK w' /\
    cts w' = <[a := {| ct_addr := ct_addr c;
                       ct_event :=
                         {| success := u64 (success (ct_event c) + success inc);
                            failure := u64 (failure (ct_event c) + failure inc)
                         |};
                       ct_ni := ct_ni c |}]> (cts w).
Proof.
  intros Hg Hc Ha. unfold PtlTriggeredCTInc. rewrite Hg, Hc, Ha. simpl.
  eexists. split; [reflexivity|].
  unfold wake. destruct (_ =? _); reflexivity.
Qed.

(** X17.  The triggered counter operations act at once: [PtlTriggeredCTSet]
    overwrites the counters and [PtlTriggeredCTInc] adds to them, modulo
    2^64, before the call returns, whatever the trigger counter and the
    threshold.  Both return [PTL_OK]; a set followed by two increments
    leaves the sum. *)
Theorem triggered_ct_ops_immediate (E : env) (h a : Z)
    (new_ct i1 i2 : ptl_ct_event_t) (t0 t1 t2 th0 th1 th2 : Z)
    (c : ct_t) (w : world) :
  get_gbl E = PTL_OK ->
  ct_get E h = (PTL_OK, Some a) ->
  cts w !! a = Some c ->
  exists w0 w1 w2,
    PtlTriggeredCTSet E h new_ct t0 th0 w = Returns PTL_OK w0 /\
    PtlTriggeredCTInc E h i1 t1 th1 w0 = Returns PTL_OK w1 /\
    PtlTriggeredCTInc E h i2 t2 th2 w1 = Returns PTL_OK w2 /\
    ct_event <$> cts w0 !! a = Some new_ct /\
    ct_event <$> cts w2 !! a
      = Some {| success := u64 (success new_ct + success i1 + success i2);
                failure := u64 (failure new_ct + failure i1 + failure i2) |}.
Proof.
  intros Hg Hc Ha.
  destruct (ct_set_step E h a new_ct t0 th0 c w Hg Hc Ha) as (w0 & E0 & C0).
  assert (A0 : cts w0 !! a = Some {| ct_addr := ct_addr c; ct_event := new_ct;
                                     ct_ni := ct_ni c |})
    by (rewrite C0; apply lookup_insert_eq).
  destruct (ct_inc_step E h a i1 t1 th1 _ w0 Hg Hc A0) as (w1 & E1 & C1).
  pose proof (f_equal (fun m => m !! a) C1) as A1. simpl in A1.
  rewrite lookup_insert_eq in A1.
  destruct (ct_inc_step E h a i2 t2 th2 _ w1 Hg Hc A1) as (w2 & E2 & C2).
  exists w0, w1, w2. repeat (split; [assumption|]).
  split; [rewrite A0; reflexivity|].
  rewrite C2, lookup_insert_eq. simpl. rewrite !u64_add_l. reflexivity.
Qed.

End CtOpsFacts.

Section TriggeredSamples.
Import Move Triggered.
#[local] Existing Instance sample_ack.

Lemma PtlTriggeredPut_defers_witness :
  deferred sample_ct 5 (PtlPut (Move.sample_env true) 1 0 16 1 0 0 0 0 0 0)
  = Some (PtlTriggeredPut (sample_env true) 1 0 16 1 0 0 0 0 0 0 9 5).
Proof.
  exact (PtlTriggeredPut_defers (sample_env true) 1 0 16 1 0 0 0 0 0 0 9 5
           (Some sample_md) sample_ct eq_refl eq_refl eq_refl).
Defined.

Example triggered_put_posts :
  posted (match PtlTriggeredPut (sample_env true) 1 0 16 1 0 0 0 0 0 0 9 5 with
          | Returns _ tr => tr
          | Undefined => []
          end)
  = [({| xi_operation := Some OP_PUT; xi_target := 0; xi_uid := 1000;
         xi_jid := 7; xi_pt_index := 0; xi_match_bits := 0; xi_ack_req := 1;
         xi_put_md := Some sample_md; xi_get_md := None; xi_hdr_data := 0;
         xi_operand := 0; xi_user_ptr := 0; xi_threshold := 5;
         xi_atom_op := 0; xi_atom_type := 0; xi_rlength := 16;
         xi_put_offset := 0; xi_put_resid := 16; xi_get_offset := 0;
         xi_get_resid := 0; xi_roffset := 0; xi_pkt_len := 80;
         xi_state := Some STATE_INIT_START |}, Some sample_ct)].
Proof. reflexivity. Qed.

Lemma PtlTriggeredSwap_defers_witness :
  deferred sample_ct 5
    (PtlSwap (Move.sample_env true) 1 0 1 0 4 0 0 0 0 0 0 77 PTL_CSWAP PTL_INT)
  = Some (PtlTriggeredSwap (sample_env true) 1 0 1 0 4 0 0 0 0 0 0 77
            PTL_CSWAP PTL_INT 9 5).
Proof.
  exact (PtlTriggeredSwap_defers (sample_env true) 1 0 1 0 4 0 0 0 0 0 0 77
           PTL_CSWAP PTL_INT 9 5 (Some sample_md) (Some sample_md) sample_ct
           eq_refl eq_refl eq_refl eq_refl).
Defined.

Lemma PtlTriggeredPut_trigger_counter_witness :
  PtlTriggeredPut
    {| base := Move.sample_env true; ct_get := fun _ => (PTL_OK, None) |}
    1 0 16 1 0 0 0 0 0 0 9 5
  = Returns PTL_ARG_INVALID [Ev (Ev_md_put (Some sample_md)); Ev Move.Ev_gbl_put].
Proof.
  exact (proj2 (PtlTriggeredPut_trigger_counter
                  {| base := Move.sample_env true;
                     ct_get := fun _ => (PTL_OK, None) |}
                  1 0 16 1 0 0 0 0 0 0 9 5 (Some sample_md) eq_refl eq_refl)
               eq_refl).
Defined.

End TriggeredSamples.

Section CtOpsSamples.
Import Triggered CtOps.

Lemma triggered_ct_ops_immediate_witness :
  exists w0 w1 w2,
    PtlTriggeredCTSet sample_env 7 {| success := 10; failure := 0 |} 0 100
      sample_world = Returns PTL_OK w0 /\
    PtlTriggeredCTInc sample_env 7 {| success := 1; failure := 2 |} 0 100 w0
      = Returns PTL_OK w1 /\
    PtlTriggeredCTInc sample_env 7 {| success := 3; failure := 4 |} 0 100 w1
      = Returns PTL_OK w2 /\
    ct_event <$> cts w0 !! 12288 = Some {| success := 10; failure := 0 |} /\
    ct_event <$> cts w2 !! 12288 = Some {| success := 14; failure := 6 |}.
Proof.
  exact (triggered_ct_ops_immediate sample_env 7 12288
           {| success := 10; failure := 0 |} {| success := 1; failure := 2 |}
           {| success := 3; failure := 4 |} 0 0 0 100 100 100 sample_ct
           sample_world eq_refl eq_refl eq_refl).
Defined.

Example ct_inc_wraps :
  counters sample_env 7
    (PtlTriggeredCTInc sample_env 7
       {| success := 2 ^ 64 - 1; failure := 0 |} 0 0 sample_world)
  = Some {| success := 1; failure := 0 |}.
Proof. reflexivity. Qed.

Example ct_unknown_handle :
  PtlTriggeredCTInc sample_env 8 {| success := 1; failure := 0 |} 0 0
    sample_world
  = Returns PTL_ARG_INVALID (emit Ev_gbl_put sample_world).
Proof. reflexivity. Qed.

End CtOpsSamples.

(** ** The communication pad *)

Section InitFacts.
Import Init.

Lemma u32_id x : 0 <= x < 2 ^ 32 -> u32 x = x.
Proof. intros H. apply u32_small. exact H. Qed.

Ltac flag H := rewrite H; clear H.

(** The first caller maps the pad. *)
Lemma PtlInit_first NDEBUG Sy s a :
  init_ref_count s = 0 -> comm_pad s = NULL ->
  0 <= shm_open Sy -> ftruncate Sy = 0 -> mmap Sy = Mapped a ->
  PtlInit NDEBUG Sy s
  = Ret (Some PTL_OK)
      {| init_ref_count := 1; comm_pad := Mapped a; done_initializing := 1;
         failure := failure s;
         trace := trace s ++ [Ev_shm_open] ++ [Ev_ftruncate (shm_open Sy)]
                    ++ [Ev_mmap (shm_open Sy)] ++ [Ev_close (shm_open Sy)] |}.
Proof.
  intros Hc Hp Ho Hf Hm. unfold PtlInit, PtlInternalAtomicInc.
  rewrite Hc. simpl. rewrite Hp. simpl. rewrite andb_false_r.
  assert (B1 : (shm_open Sy <? 0) = false) by (apply Z.ltb_ge; lia).
  assert (B2 : (shm_open Sy >=? 0) = true)
    by (rewrite Z.geb_leb; apply Z.leb_le; lia).
  rewrite B1, B2, andb_false_r, Hf, Hm. simpl.
  unfold set_done, emit. simpl. rewrite <- !app_assoc. reflexivity.
Qed.

(** A later caller finds the pad and only counts itself. *)
Lemma PtlInit_again NDEBUG Sy s :
  0 < init_ref_count s < 2 ^ 32 - 1 ->
  done_initializing s = 1 -> failure s = 0 ->
  PtlInit NDEBUG Sy s
  = Ret (Some PTL_OK)
      {| init_ref_count := init_ref_count s + 1; comm_pad := comm_pad s;
         done_initializing := 1; failure := 0; trace := trace s |}.
Proof.
  intros Hc Hd Hf. unfold PtlInit, PtlInternalAtomicInc.
  assert (B : (init_ref_count s =? 0) = false) by (apply Z.eqb_neq; lia).
  rewrite B. simpl. rewrite Hd, Hf. simpl.
  rewrite u32_id by lia. reflexivity.
Qed.

Lemma PtlFini_not_last NDEBUG Sy s :
  1 < init_ref_count s < 2 ^ 32 ->
  PtlFini NDEBUG Sy s
  = Ret None
      {| init_ref_count := init_ref_count s - 1; comm_pad := comm_pad s;
         done_initializing := done_initializing s; failure := failure s;
         trace := trace s |}.
Proof.
  intros Hc. unfold PtlFini, PtlInternalAtomicInc.
  assert (B1 : (init_ref_count s >? 0) = true)
    by (rewrite Z.gtb_ltb; apply Z.ltb_lt; lia).
  assert (B2 : (init_ref_count s =? 0) = false) by (apply Z.eqb_neq; lia).
  assert (B3 : (init_ref_count s =? 1) = false) by (apply Z.eqb_neq; lia).
  rewrite B1, B2, B3, andb_false_r.
  rewrite u32_id by lia. reflexivity.
Qed.

Lemma PtlFini_last NDEBUG Sy s :
  init_ref_count s = 1 -> munmap Sy = 0 -> shm_unlink Sy = 0 ->
  PtlFini NDEBUG Sy s
  = Ret None
      {| init_ref_count := 0; comm_pad := comm_pad s;
         done_initializing := done_initializing s; failure := failure s;
         trace := trace s ++
                  (if NDEBUG then []
                   else [Ev_munmap (comm_pad s); Ev_shm_unlink]) |}.
Proof.
  intros Hc Hm Hu. unfold PtlFini, PtlInternalAtomicInc.
  rewrite Hc. simpl. rewrite andb_false_r.
  destruct NDEBUG; simpl.
  - rewrite app_nil_r. reflexivity.
  - rewrite Hm, Hu. simpl. unfold emit. simpl.
    rewrite <- app_assoc. reflexivity.
Qed.

(** Built with [NDEBUG], the first caller maps the pad whatever
    [comm_pad] holds. *)
Lemma PtlInit_first_unchecked Sy s a :
  init_ref_count s = 0 ->
  0 <= shm_open Sy -> ftruncate Sy = 0 -> mmap Sy = Mapped a ->
  PtlInit true Sy s
  = Ret (Some PTL_OK)
      {| init_ref_count := 1; comm_pad := Mapped a; done_initializing := 1;
         failure := failure s;
         trace := trace s ++ [Ev_shm_open] ++ [Ev_ftruncate (shm_open Sy)]
                    ++ [Ev_mmap (shm_open Sy)] ++ [Ev_close (shm_open Sy)] |}.
Proof.
  intros Hc Ho Hf Hm. unfold PtlInit, PtlInternalAtomicInc.
  rewrite Hc. simpl.
  assert (B2 : (shm_open Sy >=? 0) = true)
    by (rewrite Z.geb_leb; apply Z.leb_le; lia).
  rewrite B2, Hf, Hm. simpl.
  unfold set_done, emit. simpl. rewrite <- !app_assoc. reflexivity.
Qed.

(** Once [failure] is set, a later caller counts itself in and out again
    and is refused. *)
Lemma PtlInit_refused NDEBUG Sy s :
  0 < init_ref_count s < 2 ^ 32 - 1 ->
  done_initializing s = 1 -> failure s = 1 ->
  PtlInit NDEBUG Sy s = Ret (Some PTL_FAIL) s.
Proof.
  intros Hc Hd Hf. unfold PtlInit, PtlInternalAtomicInc.
  assert (B : (init_ref_count s =? 0) = false) by (apply Z.eqb_neq; lia).
  rewrite B. simpl. rewrite Hd, Hf. simpl.
  unfold exit_fail_fast, PtlInternalAtomicInc. simpl.
  rewrite (u32_id (init_ref_count s + 1)) by lia.
  rewrite u32_id by lia.
  replace (init_ref_count s + 1 + -1) with (init_ref_count s) by lia.
  destruct s. simpl in *. subst. reflexivity.
Qed.

Lemma repeat_PtlInit_refused NDEBUG Sy s : forall n,
  0 < init_ref_count s < 2 ^ 32 - 1 ->
  done_initializing s = 1 -> failure s = 1 ->
  repeat_call (PtlInit NDEBUG Sy) n s
  = Some (replicate n (Some PTL_FAIL), s).
Proof.
  intros n Hc Hd Hf. induction n as [|n IH]; [reflexivity|].
  cbn [repeat_call]. rewrite PtlInit_refused by assumption.
  rewrite IH. reflexivity.
Qed.

(** X18.  A failure of the first [PtlInit] is never forgotten.  The call
    fails at [shm_open] (in a build without assertions), at [ftruncate] or
    at [mmap] (in a build with assertions the [shm_unlink] that follows
    must succeed); it returns [PTL_FAIL] and leaves the count at zero and
    [failure] set.  After a failure at [mmap], [comm_pad] holds
    [MAP_FAILED], and in a build with assertions the next [PtlInit] stops
    at [assert(comm_pad == NULL)].
    Otherwise the next caller initialises the library again, and may
    succeed; but [failure] stays set, and each of the callers after that
    one, however many, is refused with [PTL_FAIL], although the pad is
    mapped; the count stays at one. *)
Theorem PtlInit_failure_latched (NDEBUG : bool) (S1 S2 S3 : sys) (a : Z)
    (n : nat) :
  (shm_open S1 < 0 /\ NDEBUG = true) \/
  (0 <= shm_open S1 /\
   (ftruncate S1 <> 0 \/ mmap S1 = MAP_FAILED) /\
   (NDEBUG = true \/ shm_unlink S1 = 0)) ->
  0 <= shm_open S2 -> ftruncate S2 = 0 -> mmap S2 = Mapped a ->
  exists s1,
    PtlInit NDEBUG S1 initial = Ret (Some PTL_FAIL) s1 /\
    init_ref_count s1 = 0 /\ failure s1 = 1 /\
    comm_pad s1
      = (if (0 <=? shm_open S1) && (ftruncate S1 =? 0)
         then MAP_FAILED else NULL) /\
    if negb NDEBUG && negb (is_NULL (comm_pad s1))
    then exists s2, PtlInit NDEBUG S2 s1 = Assert_failed s2
    else exists s2 s3,
      PtlInit NDEBUG S2 s1 = Ret (Some PTL_OK) s2 /\
      comm_pad s2 = Mapped a /\ init_ref_count s2 = 1 /\
      repeat_call (PtlInit NDEBUG S3) n s2
        = Some (replicate n (Some PTL_FAIL), s3) /\
      comm_pad s3 = Mapped a /\ init_ref_count s3 = 1.
Proof.
  intros H1 Ho2 Hf2 Hm2.
  set (pad1 := if (0 <=? shm_open S1) && (ftruncate S1 =? 0)
               then MAP_FAILED else NULL).
  assert (F1 : exists tr,
    PtlInit NDEBUG S1 initial
    = Ret (Some PTL_FAIL)
        {| init_ref_count := 0; comm_pad := pad1; done_initializing := 1;
           failure := 1; trace := tr |}).
  { unfold PtlInit, PtlInternalAtomicInc, pad1. simpl.
    rewrite andb_false_r.
    destruct H1 as [[Ho ->] | (Ho & Hfm & Hu)].
    - assert (B2 : (shm_open S1 >=? 0) = false)
        by (rewrite Z.geb_leb; apply Z.leb_gt; lia).
      assert (B3 : (0 <=? shm_open S1) = false) by (apply Z.leb_gt; lia).
      rewrite B2, B3. simpl. eexists. reflexivity.
    - assert (B1 : (shm_open S1 <? 0) = false) by (apply Z.ltb_ge; lia).
      assert (B2 : (shm_open S1 >=? 0) = true)
        by (rewrite Z.geb_leb; apply Z.leb_le; lia).
      assert (B3 : (0 <=? shm_open S1) = true) by (apply Z.leb_le; lia).
      rewrite B1, B2, B3, andb_false_r. simpl.
      assert (U : forall s0, exists tr,
        exit_fail_mmap NDEBUG S1 s0
        = Ret (Some PTL_FAIL)
            {| init_ref_count := u32 (init_ref_count s0 + -1);
               comm_pad := comm_pad s0; done_initializing := 1;
               failure := 1; trace := tr |}).
      { intros s0. unfold exit_fail_mmap. destruct Hu as [-> | Hu].
        - eexists. reflexivity.
        - destruct NDEBUG; [eexists; reflexivity|].
          rewrite Hu. simpl. eexists. reflexivity. }
      destruct (Z.eqb_spec (ftruncate S1) 0) as [Hf|Hf]; simpl.
      + destruct Hfm as [?|Hm]; [contradiction|]. rewrite Hm. simpl.
        match goal with
        | |- exists tr, exit_fail_mmap _ _ ?s0 = _ =>
            destruct (U s0) as (tr & ->)
        end.
        eexists. reflexivity.
      + match goal with
        | |- exists tr, exit_fail_mmap _ _ ?s0 = _ =>
            destruct (U s0) as (tr & ->)
        end.
        eexists. reflexivity. }
  destruct F1 as (tr & F1). rewrite F1.
  eexists. split; [reflexivity|]. cbn [init_ref_count failure comm_pad].
  split; [reflexivity|]. split; [reflexivity|]. split; [reflexivity|].
  assert (Later : forall s2,
    comm_pad s2 = Mapped a -> init_ref_count s2 = 1 ->
    done_initializing s2 = 1 -> failure s2 = 1 ->
    exists s3,
      repeat_call (PtlInit NDEBUG S3) n s2
        = Some (replicate n (Some PTL_FAIL), s3) /\
      comm_pad s3 = Mapped a /\ init_ref_count s3 = 1).
  { intros s2 Hp Hc Hd Hf. exists s2.
    rewrite repeat_PtlInit_refused by (auto; lia). auto. }
  destruct NDEBUG.
  - cbn [negb andb].
    rewrite PtlInit_first_unchecked with (a := a) by (simpl; auto).
    eexists. 
    match goal with
    | |- exists s3, Ret _ ?s2 = _ /\ _ =>
        destruct (Later s2) as (s3 & L & Lp & Lc); try reflexivity;
        exists s3
    end.
    split; [reflexivity|]. split; [reflexivity|]. split; [reflexivity|].
    auto.
  - destruct pad1 eqn:Hpad; cbn [negb andb is_NULL].
    + rewrite (PtlInit_first false S2 _ a) by (simpl; auto).
      eexists.
      match goal with
      | |- exists s3, Ret _ ?s2 = _ /\ _ =>
          destruct (Later s2) as (s3 & L & Lp & Lc); try reflexivity;
          exists s3
      end.
      split; [reflexivity|]. split; [reflexivity|]. split; [reflexivity|].
      auto.
    + unfold PtlInit, PtlInternalAtomicInc. simpl.
      eexists. reflexivity.
    + unfold pad1 in Hpad.
      destruct ((0 <=? shm_open S1) && (ftruncate S1 =? 0)); discriminate.
Qed.

(** X19.  [PtlFini] does not reset [comm_pad].  Built with assertions, the
    last [PtlFini] unmaps the pad and unlinks its name, and a [PtlInit]
    after it stops at [assert(comm_pad == NULL)].  Built with [NDEBUG] the
    two calls are compiled away with their assertions: the last [PtlFini]
    unmaps nothing, and a [PtlInit] after it maps the pad a second time. *)
Theorem PtlInit_after_PtlFini (NDEBUG : bool) (Sy : sys) (a : Z) :
  0 <= shm_open Sy -> ftruncate Sy = 0 -> mmap Sy = Mapped a ->
  munmap Sy = 0 -> shm_unlink Sy = 0 ->
  exists s1 s2,
    PtlInit NDEBUG Sy initial = Ret (Some PTL_OK) s1 /\
    PtlFini NDEBUG Sy s1 = Ret None s2 /\
    init_ref_count s2 = 0 /\ comm_pad s2 = Mapped a /\
    if NDEBUG
    then unmaps (trace s2) = [] /\
         exists s3, PtlInit NDEBUG Sy s2 = Ret (Some PTL_OK) s3 /\
                    maps (trace s3) = [shm_open Sy; shm_open Sy] /\
                    unmaps (trace s3) = []
    else unmaps (trace s2) = [Mapped a] /\
         exists s3, PtlInit NDEBUG Sy s2 = Assert_failed s3.
Proof.
  intros Ho Hf Hm Hu Hl.
  rewrite (PtlInit_first NDEBUG Sy initial a) by (simpl; auto).
  eexists _, _. split; [reflexivity|].
  rewrite PtlFini_last by (simpl; auto).
  split; [reflexivity|]. split; [reflexivity|]. split; [reflexivity|].
  destruct NDEBUG.
  - split; [reflexivity|].
    assert (B1 : (shm_open Sy <? 0) = false) by (apply Z.ltb_ge; lia).
    assert (B2 : (shm_open Sy >=? 0) = true)
      by (rewrite Z.geb_leb; apply Z.leb_le; lia).
    unfold PtlInit, PtlInternalAtomicInc. simpl.
    rewrite B2, Hf, Hm. simpl.
    eexists. split; [reflexivity|]. split; reflexivity.
  - split; [reflexivity|].
    unfold PtlInit, PtlInternalAtomicInc. simpl.
    eexists. reflexivity.
Qed.

Lemma repeat_PtlInit_again NDEBUG Sy : forall n s,
  0 < init_ref_count s -> init_ref_count s + Z.of_nat n < 2 ^ 32 ->
  done_initializing s = 1 -> failure s = 0 ->
  repeat_call (PtlInit NDEBUG Sy) n s
  = Some (replicate n (Some PTL_OK),
          {| init_ref_count := init_ref_count s + Z.of_nat n;
             comm_pad := comm_pad s; done_initializing := 1; failure := 0;
             trace := trace s |}).
Proof.
  induction n as [|n IH]; intros s Hc Hn Hd Hf.
  - simpl. rewrite Z.add_0_r. destruct s. simpl in *. subst. reflexivity.
  - cbn [repeat_call]. rewrite PtlInit_again by (auto; lia).
    rewrite IH by (simpl; auto; lia). simpl. do 3 f_equal. lia.
Qed.

Lemma repeat_PtlFini_not_last NDEBUG Sy : forall n s,
  Z.of_nat n < init_ref_count s < 2 ^ 32 ->
  repeat_call (PtlFini NDEBUG Sy) n s
  = Some (replicate n None,
          {| init_ref_count := init_ref_count s - Z.of_nat n;
             comm_pad := comm_pad s;
             done_initializing := done_initializing s;
             failure := failure s; trace := trace s |}).
Proof.
  induction n as [|n IH]; intros s Hc.
  - simpl. rewrite Z.sub_0_r. destruct s. reflexivity.
  - cbn [repeat_call]. rewrite PtlFini_not_last by lia.
    rewrite IH by (simpl; lia). simpl. do 3 f_equal. lia.
Qed.

Lemma repeat_call_app call : forall n m s,
  repeat_call call (n + m) s
  = match repeat_call call n s with
    | Some (rs, s') =>
        match repeat_call call m s' with
        | Some (rs', s'') => Some (rs ++ rs', s'')
        | None => None
        end
    | None => None
    end.
Proof.
  induction n as [|n IH]; intros m s; simpl.
  - destruct (repeat_call call m s) as [[rs' s'']|]; reflexivity.
  - destruct (call s) as [r s1| |]; auto.
    rewrite IH.
    destruct (repeat_call call n s1) as [[rs s']|]; [|reflexivity].
    destruct (repeat_call call m s') as [[rs' s'']|]; reflexivity.
Qed.

Lemma repeat_call_last call n s :
  repeat_call call (S n) s
  = match repeat_call call n s with
    | Some (rs, s') =>
        match repeat_call call 1 s' with
        | Some (rs', s'') => Some (rs ++ rs', s'')
        | None => None
        end
    | None => None
    end.
Proof.
  replace (S n) with (n + 1)%nat by lia. apply repeat_call_app.
Qed.

Lemma repeat_PtlFini_all NDEBUG Sy n s :
  init_ref_count s = Z.of_nat (S n) -> Z.of_nat (S n) < 2 ^ 32 ->
  munmap Sy = 0 -> shm_unlink Sy = 0 ->
  repeat_call (PtlFini NDEBUG Sy) (S n) s
  = Some (replicate (S n) None,
          {| init_ref_count := 0; comm_pad := comm_pad s;
             done_initializing := done_initializing s;
             failure := failure s;
             trace := trace s ++
                      (if NDEBUG then []
                       else [Ev_munmap (comm_pad s); Ev_shm_unlink]) |}).
Proof.
  intros Hc Hlt Hu Hl. rewrite repeat_call_last.
  rewrite repeat_PtlFini_not_last by lia.
  cbn [repeat_call]. rewrite PtlFini_last by (simpl; auto; lia).
  cbn [init_ref_count comm_pad done_initializing failure trace].
  rewrite <- replicate_cons_app. reflexivity.
Qed.

Lemma repeat_PtlInit_all NDEBUG Sy a n :
  0 <= shm_open Sy -> ftruncate Sy = 0 -> mmap Sy = Mapped a ->
  Z.of_nat (S n) < 2 ^ 32 ->
  repeat_call (PtlInit NDEBUG Sy) (S n) initial
  = Some (replicate (S n) (Some PTL_OK),
          {| init_ref_count := Z.of_nat (S n); comm_pad := Mapped a;
             done_initializing := 1; failure := 0;
             trace := [Ev_shm_open; Ev_ftruncate (shm_open Sy);
                       Ev_mmap (shm_open Sy); Ev_close (shm_open Sy)] |}).
Proof.
  intros Ho Hf Hm Hlt. cbn [repeat_call].
  rewrite (PtlInit_first NDEBUG Sy initial a) by (simpl; auto).
  rewrite repeat_PtlInit_again by (simpl; auto; lia).
  simpl. do 3 f_equal. lia.
Qed.

(** X20.  The count of [PtlInit] and [PtlFini] balances: [n] calls of
    [PtlInit] all return [PTL_OK], only the first maps the pad and the
    others count themselves; the [n] calls of [PtlFini] that follow all
    return, only the last unmaps the pad (in a build with assertions), and
    the count is back at zero.  The first [m] of the calls of [PtlInit]
    leave the count at [m] and the pad mapped once; the first [m] of the
    calls of [PtlFini], the last not among them, leave the count at
    [n - m] and the pad mapped. *)
Theorem PtlInit_PtlFini_balanced (NDEBUG : bool) (Sy : sys) (a : Z)
    (n : nat) :
  0 <= shm_open Sy -> ftruncate Sy = 0 -> mmap Sy = Mapped a ->
  munmap Sy = 0 -> shm_unlink Sy = 0 ->
  (0 < n)%nat -> Z.of_nat n < 2 ^ 32 ->
  exists s1 s2,
    repeat_call (PtlInit NDEBUG Sy) n initial
      = Some (replicate n (Some PTL_OK), s1) /\
    init_ref_count s1 = Z.of_nat n /\
    maps (trace s1) = [shm_open Sy] /\ unmaps (trace s1) = [] /\
    repeat_call (PtlFini NDEBUG Sy) n s1 = Some (replicate n None, s2) /\
    init_ref_count s2 = 0 /\
    maps (trace s2) = [shm_open Sy] /\
    (unmaps (trace s2) = if NDEBUG then [] else [Mapped a]) /\
    (forall m, (0 < m <= n)%nat ->
       exists s,
         repeat_call (PtlInit NDEBUG Sy) m initial
           = Some (replicate m (Some PTL_OK), s) /\
         init_ref_count s = Z.of_nat m /\
         maps (trace s) = [shm_open Sy]) /\
    (forall m, (m < n)%nat ->
       exists s,
         repeat_call (PtlFini NDEBUG Sy) m s1 = Some (replicate m None, s) /\
         init_ref_count s = Z.of_nat n - Z.of_nat m /\
         comm_pad s = Mapped a /\
         unmaps (trace s) = []).
Proof.
  intros Ho Hf Hm Hu Hl Hn Hlt.
  destruct n as [|n]; [lia|].
  rewrite (repeat_PtlInit_all NDEBUG Sy a n) by assumption.
  eexists _, _. split; [reflexivity|].
  split; [reflexivity|]. split; [reflexivity|]. split; [reflexivity|].
  rewrite repeat_PtlFini_all by (try reflexivity; assumption).
  split; [reflexivity|]. split; [reflexivity|].
  split; [destruct NDEBUG; reflexivity|].
  split; [destruct NDEBUG; reflexivity|].
  split.
  - intros m Hm'. destruct m as [|m]; [lia|].
    rewrite (repeat_PtlInit_all NDEBUG Sy a m) by (try assumption; lia).
    eexists. split; [reflexivity|]. split; reflexivity.
  - intros m Hm'.
    rewrite repeat_PtlFini_not_last
      by (cbn [init_ref_count]; lia).
    eexists. split; [reflexivity|]. split; [reflexivity|].
    split; reflexivity.
Qed.

End InitFacts.

Section InitSamples.
Import Init.

Lemma PtlInit_failure_latched_witness :
  (exists s1,
     PtlInit false sys_no_space initial = Ret (Some PTL_FAIL) s1 /\
     init_ref_count s1 = 0 /\ failure s1 = 1 /\
     comm_pad s1 = NULL /\
     if negb false && negb (is_NULL (comm_pad s1))
     then exists s2, PtlInit false sys_ok s1 = Assert_failed s2
     else exists s2 s3,
       PtlInit false sys_ok s1 = Ret (Some PTL_OK) s2 /\
       comm_pad s2 = Mapped 65536 /\ init_ref_count s2 = 1 /\
       repeat_call (PtlInit false sys_ok) 3 s2
         = Some (replicate 3 (Some PTL_FAIL), s3) /\
       comm_pad s3 = Mapped 65536 /\ init_ref_count s3 = 1) /\
  (exists s1,
     PtlInit false sys_no_map initial = Ret (Some PTL_FAIL) s1 /\
     init_ref_count s1 = 0 /\ failure s1 = 1 /\
     comm_pad s1 = MAP_FAILED /\
     if negb false && negb (is_NULL (comm_pad s1))
     then exists s2, PtlInit false sys_ok s1 = Assert_failed s2
     else exists s2 s3,
       PtlInit false sys_ok s1 = Ret (Some PTL_OK) s2 /\
       comm_pad s2 = Mapped 65536 /\ init_ref_count s2 = 1 /\
       repeat_call (PtlInit false sys_ok) 3 s2
         = Some (replicate 3 (Some PTL_FAIL), s3) /\
       comm_pad s3 = Mapped 65536 /\ init_ref_count s3 = 1) /\
  (exists s1,
     PtlInit true sys_no_map initial = Ret (Some PTL_FAIL) s1 /\
     init_ref_count s1 = 0 /\ failure s1 = 1 /\
     comm_pad s1 = MAP_FAILED /\
     if negb true && negb (is_NULL (comm_pad s1))
     then exists s2, PtlInit true sys_ok s1 = Assert_failed s2
     else exists s2 s3,
       PtlInit true sys_ok s1 = Ret (Some PTL_OK) s2 /\
       comm_pad s2 = Mapped 65536 /\ init_ref_count s2 = 1 /\
       repeat_call (PtlInit true sys_ok) 3 s2
         = Some (replicate 3 (Some PTL_FAIL), s3) /\
       comm_pad s3 = Mapped 65536 /\ init_ref_count s3 = 1).
Proof.
  split; [|split].
  - apply (PtlInit_failure_latched false sys_no_space sys_ok sys_ok 65536 3).
    + right. split; [simpl; lia|]. split; [left; simpl; lia|].
      right. reflexivity.
    + simpl. lia.
    + reflexivity.
    + reflexivity.
  - apply (PtlInit_failure_latched false sys_no_map sys_ok sys_ok 65536 3).
    + right. split; [simpl; lia|]. split; [right; reflexivity|].
      right. reflexivity.
    + simpl. lia.
    + reflexivity.
    + reflexivity.
  - apply (PtlInit_failure_latched true sys_no_map sys_ok sys_ok 65536 3).
    + right. split; [simpl; lia|]. split; [right; reflexivity|].
      left. reflexivity.
    + simpl. lia.
    + reflexivity.
    + reflexivity.
Defined.

Lemma PtlInit_after_PtlFini_witness :
  exists s1 s2,
    PtlInit false sys_ok initial = Ret (Some PTL_OK) s1 /\
    PtlFini false sys_ok s1 = Ret None s2 /\
    init_ref_count s2 = 0 /\ comm_pad s2 = Mapped 65536 /\
    unmaps (trace s2) = [Mapped 65536] /\
    exists s3, PtlInit false sys_ok s2 = Assert_failed s3.
Proof.
  apply (PtlInit_after_PtlFini false sys_ok 65536).
  - simpl. lia.
  - reflexivity.
  - reflexivity.
  - reflexivity.
  - reflexivity.
Defined.

Lemma PtlInit_PtlFini_balanced_witness :
  exists s1 s2,
    repeat_call (PtlInit false sys_ok) 3 initial
      = Some (replicate 3 (Some PTL_OK), s1) /\
    init_ref_count s1 = 3 /\
    maps (trace s1) = [3] /\ unmaps (trace s1) = [] /\
    repeat_call (PtlFini false sys_ok) 3 s1 = Some (replicate 3 None, s2) /\
    init_ref_count s2 = 0 /\
    maps (trace s2) = [3] /\
    unmaps (trace s2) = [Mapped 65536] /\
    (forall m, (0 < m <= 3)%nat ->
       exists s,
         repeat_call (PtlInit false sys_ok) m initial
           = Some (replicate m (Some PTL_OK), s) /\
         init_ref_count s = Z.of_nat m /\
         maps (trace s) = [3]) /\
    (forall m, (m < 3)%nat ->
       exists s,
         repeat_call (PtlFini false sys_ok) m s1 = Some (replicate m None, s) /\
         init_ref_count s = 3 - Z.of_nat m /\
         comm_pad s = Mapped 65536 /\
         unmaps (trace s) = []).
Proof.
  apply (PtlInit_PtlFini_balanced false sys_ok 65536 3).
  - simpl. lia.
  - reflexivity.
  - reflexivity.
  - reflexivity.
  - reflexivity.
  - lia.
  - lia.
Defined.

End InitSamples.

(** ** The receive path, for every packet *)

Section RecvTotal.
Import Recv.
Context {H : hdr_values}.
Variable E : env.


End RecvTotal.

Section RecvTotalSamples.
Import Recv.
#[local] Existing Instance sample_hdr_values.


End RecvTotalSamples.

(** ** Connections *)

Section ConnFacts.
Import Conn.
Context {V : conn_values} {H : Recv.hdr_values}.

Lemma u32_mod x : u32 x = x mod 2 ^ 32.
Proof. unfold u32. apply Z.land_ones. lia. Qed.

(** The [int] that a difference of two 32-bit values becomes. *)
Lemma to_int_diff d :
  - 2 ^ 32 < d < 2 ^ 32 ->
  to_int d =
    if d <? - 2 ^ 31 then d + 2 ^ 32
    else if d <? 2 ^ 31 then d
    else d - 2 ^ 32.
Proof.
  intros Hd. unfold to_int. rewrite u32_mod.
  destruct (Z.ltb_spec d (- 2 ^ 31)).
  - replace (d mod 2 ^ 32) with (d + 2 ^ 32).
    + destruct (Z.ltb_spec (d + 2 ^ 32) (2 ^ 31)); lia.
    + apply Z.mod_unique with (q := -1); lia.
  - destruct (Z.ltb_spec d (2 ^ 31)).
    + destruct (Z_lt_le_dec d 0).
      * replace (d mod 2 ^ 32) with (d + 2 ^ 32).
        -- destruct (Z.ltb_spec (d + 2 ^ 32) (2 ^ 31)); lia.
        -- apply Z.mod_unique with (q := -1); lia.
      * rewrite Z.mod_small by lia.
        destruct (Z.ltb_spec d (2 ^ 31)); lia.
    + rewrite Z.mod_small by lia.
      destruct (Z.ltb_spec d (2 ^ 31)); lia.
Qed.

Lemma compare_id_deciding a b :
  in_u32 (nid a) -> in_u32 (nid b) -> in_u32 (pid a) -> in_u32 (pid b) ->
  compare_id a b = to_int (deciding a b) /\
  - 2 ^ 32 < deciding a b < 2 ^ 32 /\
  (deciding a b = 0 <-> a = b) /\
  deciding b a = - deciding a b.
Proof.
  unfold in_u32, compare_id, deciding. intros Ha Hb Hpa Hpb.
  rewrite (Z.eqb_sym (nid b) (nid a)).
  destruct (Z.eqb_spec (nid a) (nid b)) as [En|En]; simpl.
  - split; [reflexivity|]. split; [lia|]. split; [|lia]. split.
    + intros D. destruct a, b. simpl in *. f_equal; lia.
    + intros ->. lia.
  - split; [reflexivity|]. split; [lia|]. split; [|lia]. split.
    + intros D. lia.
    + intros ->. lia.
Qed.

(** X22.  [compare_id] answers 0 exactly on equal identifiers.  On
    different ones it compares the NIDs, and the PIDs when the NIDs are
    equal, but through a 32-bit difference: the sign of its answer is the
    sign of the difference compared only while the two values are less than
    2^31 apart.  When they are further apart the sign is turned round, and
    when they are 2^31 apart the answer is negative in both directions. *)
Theorem compare_id_sign (a b : ptl_process_t) :
  in_u32 (nid a) -> in_u32 (nid b) -> in_u32 (pid a) -> in_u32 (pid b) ->
  (compare_id a b = 0 <-> a = b) /\
  (0 < deciding a b < 2 ^ 31 -> compare_id a b > 0) /\
  (- 2 ^ 31 < deciding a b < 0 -> compare_id a b < 0) /\
  (2 ^ 31 < deciding a b -> compare_id a b < 0) /\
  (deciding a b < - 2 ^ 31 -> compare_id a b > 0) /\
  (Z.abs (deciding a b) = 2 ^ 31 -> compare_id a b < 0 /\ compare_id b a < 0).
Proof.
  intros Ha Hb Hpa Hpb.
  destruct (compare_id_deciding a b Ha Hb Hpa Hpb) as (C & R & Z0 & N).
  destruct (compare_id_deciding b a Hb Ha Hpb Hpa) as (C' & R' & _ & _).
  rewrite C, C', !to_int_diff by assumption. rewrite N in *.
  split.
  - rewrite <- Z0.
    destruct (Z.ltb_spec (deciding a b) (- 2 ^ 31));
      destruct (Z.ltb_spec (deciding a b) (2 ^ 31)); lia.
  - split; [|split; [|split; [|split]]]; intros D;
      destruct (Z.ltb_spec (deciding a b) (- 2 ^ 31));
      destruct (Z.ltb_spec (deciding a b) (2 ^ 31));
      destruct (Z.ltb_spec (- deciding a b) (- 2 ^ 31));
      destruct (Z.ltb_spec (- deciding a b) (2 ^ 31)); lia.
Qed.

Variable E : env.

(** What [process_connect_request] does with a well-formed request for a
    connection on which a connect is under way. *)
Lemma connect_request_while_connecting event priv w :
  ev_request event = Some priv ->
  sizeof_cm_priv_request <= ev_private_data_len event ->
  connecting (conn w) ->
  let c := compare_id (src_id priv) (ni_id (ni w)) in
  (c < 0 ->
   refused_connecting (ev_id event) w
     (process_connect_request E event true true w)) /\
  (c > 0 ->
   taken_up E (ev_id event) w
     (process_connect_request E event true true w)).
Proof.
  intros Hr Hl Hc c. unfold process_connect_request. rewrite Hr.
  assert (L : (ev_private_data_len event <? sizeof_cm_priv_request) = false)
    by (apply Z.ltb_ge; lia).
  rewrite L. simpl.
  assert (A : c > 0 ->
    taken_up E (ev_id event) w
      (match accept_connection_request E event (emit Ev_conn_get w) with
       | Done _ w0 => Done tt w0
       | Aborted w0 => Aborted w0
       | Fault w0 => Fault w0
       end)).
  { intros _. unfold taken_up, accept_connection_request. simpl.
    destruct (rdma_create_qp E =? 0); simpl.
    - destruct (rdma_accept E =? 0); simpl;
        destruct (cm_id (conn w)); simpl;
        eexists _, _; (split; [reflexivity|]); simpl;
        rewrite <- ?app_assoc; simpl;
        (split; [reflexivity|]); (split; [reflexivity|]);
        (split; [reflexivity|]); auto.
    - eexists _, _. split; [reflexivity|]. simpl.
      rewrite <- ?app_assoc. simpl.
      split; [reflexivity|]. split; [reflexivity|].
      split; reflexivity. }
  fold c.
  split.
  - intros Hneg.
    assert (B1 : (c >? 0) = false) by (rewrite Z.gtb_ltb; apply Z.ltb_ge; lia).
    assert (B2 : (c <? 0) = true) by (apply Z.ltb_lt; lia).
    unfold refused_connecting.
    destruct Hc as [-> | [-> | ->]]; rewrite B1, B2; unfold emit; simpl;
      rewrite <- !app_assoc; reflexivity.
  - intros Hpos.
    assert (B1 : (c >? 0) = true) by (rewrite Z.gtb_ltb; apply Z.ltb_lt; lia).
    destruct Hc as [-> | [-> | ->]]; rewrite B1; apply A; exact Hpos.
Qed.

End ConnFacts.

Section ConnProtocol.
Import Conn.
Context {V : conn_values} {H : Recv.hdr_values}.

(** X23.  Two nodes that connect to each other at the same time settle it
    with [compare_id]: each applies it to the identifier of the other and
    its own, takes the request of the other up when the answer is positive
    and refuses it with [REJECT_REASON_CONNECTING] when it is negative.
    Exactly one of the two takes the request up, unless the values compared
    are 2^31 apart: then both refuse.  The node that takes the request up
    accepts it, on the identifier of the request, when [rdma_create_qp] and
    [rdma_accept] succeed, and is left connecting; when one of them fails
    it accepts nothing and is left disconnected, the other node having
    refused all the same.  In both cases it keeps the reference that
    [get_conn] took. *)
Theorem simultaneous_connect (Ea Eb : env) (eva evb : rdma_cm_event)
    (wa wb : world) (pa pb : cm_priv_request) :
  let a := ni_id (ni wa) in
  let b := ni_id (ni wb) in
  in_u32 (nid a) -> in_u32 (nid b) -> in_u32 (pid a) -> in_u32 (pid b) ->
  a <> b ->
  ev_request eva = Some pa -> src_id pa = b ->
  sizeof_cm_priv_request <= ev_private_data_len eva ->
  ev_request evb = Some pb -> src_id pb = a ->
  sizeof_cm_priv_request <= ev_private_data_len evb ->
  connecting (conn wa) -> connecting (conn wb) ->
  let ra := process_connect_request Ea eva true true wa in
  let rb := process_connect_request Eb evb true true wb in
  (Z.abs (deciding a b) <> 2 ^ 31 ->
   (taken_up Ea (ev_id eva) wa ra /\
    refused_connecting (ev_id evb) wb rb) \/
   (refused_connecting (ev_id eva) wa ra /\
    taken_up Eb (ev_id evb) wb rb)) /\
  (Z.abs (deciding a b) = 2 ^ 31 ->
   refused_connecting (ev_id eva) wa ra /\
   refused_connecting (ev_id evb) wb rb).
Proof.
  intros a b Ha Hb Hpa Hpb Hab Hra Hsa Hla Hrb Hsb Hlb Hca Hcb ra rb.
  destruct (connect_request_while_connecting Ea eva pa wa Hra Hla Hca)
    as [RA AA].
  destruct (connect_request_while_connecting Eb evb pb wb Hrb Hlb Hcb)
    as [RB AB].
  rewrite Hsa in RA, AA. rewrite Hsb in RB, AB.
  fold a b in RA, AA, RB, AB. fold ra in RA, AA. fold rb in RB, AB.
  destruct (compare_id_deciding a b Ha Hb Hpa Hpb) as (C & R & Z0 & N).
  destruct (compare_id_deciding b a Hb Ha Hpb Hpa) as (C' & R' & _ & _).
  assert (D0 : deciding a b <> 0) by (intros D; apply Hab, Z0, D).
  rewrite C in RB, AB. rewrite C' in RA, AA.
  rewrite to_int_diff in RA, AA, RB, AB by assumption.
  rewrite N in *.
  split; intros D.
  - destruct (Z_lt_le_dec 0 (deciding a b)).
    + destruct (Z_lt_le_dec (deciding a b) (2 ^ 31)).
      * right. split; [apply RA|apply AB];
          destruct (Z.ltb_spec (deciding a b) (- 2 ^ 31));
          destruct (Z.ltb_spec (deciding a b) (2 ^ 31));
          destruct (Z.ltb_spec (- deciding a b) (- 2 ^ 31));
          destruct (Z.ltb_spec (- deciding a b) (2 ^ 31)); lia.
      * left. split; [apply AA|apply RB];
          destruct (Z.ltb_spec (deciding a b) (- 2 ^ 31));
          destruct (Z.ltb_spec (deciding a b) (2 ^ 31));
          destruct (Z.ltb_spec (- deciding a b) (- 2 ^ 31));
          destruct (Z.ltb_spec (- deciding a b) (2 ^ 31)); lia.
    + destruct (Z_lt_le_dec (- 2 ^ 31) (deciding a b)).
      * left. split; [apply AA|apply RB];
          destruct (Z.ltb_spec (deciding a b) (- 2 ^ 31));
          destruct (Z.ltb_spec (deciding a b) (2 ^ 31));
          destruct (Z.ltb_spec (- deciding a b) (- 2 ^ 31));
          destruct (Z.ltb_spec (- deciding a b) (2 ^ 31)); lia.
      * right. split; [apply RA|apply AB];
          destruct (Z.ltb_spec (deciding a b) (- 2 ^ 31));
          destruct (Z.ltb_spec (deciding a b) (2 ^ 31));
          destruct (Z.ltb_spec (- deciding a b) (- 2 ^ 31));
          destruct (Z.ltb_spec (- deciding a b) (2 ^ 31)); lia.
  - split; [apply RA|apply RB];
      destruct (Z.ltb_spec (deciding a b) (- 2 ^ 31));
      destruct (Z.ltb_spec (deciding a b) (2 ^ 31));
      destruct (Z.ltb_spec (- deciding a b) (- 2 ^ 31));
      destruct (Z.ltb_spec (- deciding a b) (2 ^ 31)); lia.
Qed.


Variable E : env.




End ConnProtocol.

Section ConnAttempts.
Import Conn.
Context {V : conn_values} {H : Recv.hdr_values}.
Variable E : env.

Lemma gets_app tr1 tr2 : gets (tr1 ++ tr2) = (gets tr1 + gets tr2)%nat.
Proof. unfold gets. rewrite omap_app, length_app. reflexivity. Qed.

Lemma puts_app tr1 tr2 : puts (tr1 ++ tr2) = (puts tr1 + puts tr2)%nat.
Proof. unfold puts. rewrite omap_app, length_app. reflexivity. Qed.

Lemma flushed_app tr1 tr2 : flushed (tr1 ++ tr2) = flushed tr1 ++ flushed tr2.
Proof. apply omap_app. Qed.

Ltac count_events :=
  unfold emit, upd_conn, set_conn; simpl;
  rewrite ?gets_app, ?puts_app;
  repeat match goal with
  | |- context [gets (?e :: ?l)] =>
      let v := eval cbv in (gets (e :: l)) in
      change (gets (e :: l)) with v
  | |- context [puts (?e :: ?l)] =>
      let v := eval cbv in (puts (e :: l)) in
      change (puts (e :: l)) with v
  end;
  try lia.

(** X25.  The failures of a connect attempt that the code handles leave
    the connection disconnected and give back the reference that
    [init_connect] took: at [init_connect] itself, when the identifier
    cannot be created or the address resolution cannot be started; and at a
    later CM event, when the route resolution, the queue pair or the
    connect fails, when the request is rejected for another reason than a
    connect from the other side, and on a connect error.  After the last
    two the connection keeps its identifier, and a new [init_connect] stops
    at [assert(conn->rdma.cm_id == NULL)] in a build with assertions.  A
    failure that the CM reports with an event of another type, which goes
    to [default:], is not handled: the event is acknowledged, and the
    connection stays as it was, in the state of the attempt and with the
    reference held. *)
Theorem failed_connect_attempt (w : world) (event : rdma_cm_event)
    (nf cf : bool) :
  WITH_TRANSPORT_IB E = true ->
  transport_type (conn w) = CONN_TYPE_RDMA ->
  shutting_down (ni w) = 0 ->
  (state (conn w) = CONN_STATE_DISCONNECTED -> cm_id (conn w) = None ->
   (rdma_create_id E).1 <> 0 \/ rdma_resolve_addr E <> 0 ->
   exists w',
     init_connect E w = Done PTL_FAIL w' /\
     state (conn w') = CONN_STATE_DISCONNECTED /\ cm_id (conn w') = None /\
     gets (trace w') = S (gets (trace w)) /\
     puts (trace w') = S (puts (trace w))) /\
  (ev_context event = Ctx_conn -> cm_id (conn w) = Some (ev_id event) ->
   (ev_event event = RDMA_CM_EVENT_ADDR_RESOLVED /\
    state (conn w) = CONN_STATE_RESOLVING_ADDR /\
    rdma_resolve_route E <> 0) \/
   (ev_event event = RDMA_CM_EVENT_ROUTE_RESOLVED /\
    state (conn w) = CONN_STATE_RESOLVING_ROUTE /\
    (rdma_create_qp E <> 0 \/ rdma_connect E <> 0)) ->
   exists w',
     process_cm_event E event nf cf w = Done tt w' /\
     state (conn w') = CONN_STATE_DISCONNECTED /\ cm_id (conn w') = None /\
     gets (trace w') = gets (trace w) /\
     puts (trace w') = S (puts (trace w))) /\
  (ev_context event = Ctx_conn -> cm_id (conn w) = Some (ev_id event) ->
   (ev_event event = RDMA_CM_EVENT_REJECTED /\
    (ev_status event <> 28 \/
     exists r, ev_reject event = Some r /\
               r <> REJECT_REASON_CONNECTED /\
               r <> REJECT_REASON_CONNECTING)) \/
   (ev_event event = RDMA_CM_EVENT_CONNECT_ERROR /\
    state (conn w) <> CONN_STATE_DISCONNECTED) ->
   exists w',
     process_cm_event E event nf cf w = Done tt w' /\
     state (conn w') = CONN_STATE_DISCONNECTED /\
     cm_id (conn w') = Some (ev_id event) /\
     gets (trace w') = gets (trace w) /\
     puts (trace w') = S (puts (trace w)) /\
     (NDEBUG E = false -> exists w'', init_connect E w' = Aborted w'')) /\
  (ev_event event = RDMA_CM_EVENT_OTHER ->
   exists w',
     process_cm_event E event nf cf w = Done tt w' /\
     conn w' = conn w /\ ni w' = ni w /\
     trace w' = trace w ++ [Ev_rdma_ack_cm_event] /\
     gets (trace w') = gets (trace w) /\
     puts (trace w') = puts (trace w)).
Proof.
  intros Hib Ht Hsd. split; [|split; [|split] ].
  - intros Hst Hid Hbad. unfold init_connect.
    rewrite Hib, Ht, Hsd. simpl. rewrite andb_false_r. simpl.
    rewrite Hst, Hid. simpl. rewrite andb_false_r.
    destruct (rdma_create_id E) as [rc new_id]. simpl in Hbad.
    destruct (Z.eqb_spec rc 0) as [->|Hrc]; simpl.
    + destruct Hbad as [?|Hra]; [congruence|].
      apply Z.eqb_neq in Hra. rewrite Hra. simpl.
      eexists. split; [reflexivity|]. simpl.
      split; [reflexivity|]. split; [reflexivity|]. split; count_events.
    + eexists. split; [reflexivity|]. simpl.
      split; [exact Hst|]. split; [exact Hid|]. split; count_events.
  - intros Hc Hid Hbad. unfold process_cm_event. rewrite Hc. simpl.
    assert (Sid : same_id event w = true).
    { unfold same_id. rewrite Hid. apply Z.eqb_refl. }
    destruct Hbad as [(-> & Hst & Hrr) | (-> & Hst & Hq)]; rewrite Hst.
    + rewrite Sid, andb_false_r. apply Z.eqb_neq in Hrr. rewrite Hrr. simpl.
      eexists. split; [reflexivity|]. simpl.
      split; [reflexivity|]. split; [reflexivity|]. split; count_events.
    + rewrite Sid, andb_false_r.
      destruct (Z.eqb_spec (rdma_create_qp E) 0) as [Hq0|Hq0]; simpl.
      * destruct Hq as [?|Hcn]; [congruence|].
        apply Z.eqb_neq in Hcn. rewrite Hcn. simpl.
        eexists. split; [reflexivity|]. simpl.
        split; [reflexivity|]. split; [reflexivity|]. split; count_events.
      * eexists. split; [reflexivity|]. simpl.
        split; [reflexivity|]. split; [reflexivity|]. split; count_events.
  - intros Hc Hid Hbad. unfold process_cm_event. rewrite Hc. simpl.
    assert (Ab : forall w1,
      transport_type (conn w1) = CONN_TYPE_RDMA ->
      shutting_down (ni w1) = 0 ->
      cm_id (conn w1) = Some (ev_id event) ->
      NDEBUG E = false -> exists w'', init_connect E w1 = Aborted w'').
    { intros w1 Ht1 Hs1 Hi1 Hnd. unfold init_connect.
      rewrite Hib, Ht1, Hs1, Hnd. simpl. rewrite Hi1.
      destruct (state (conn w1)); eexists; reflexivity. }
    destruct Hbad as [(-> & Hrej) | (-> & Hst)].
    + unfold process_connect_reject.
      assert (Bad : exists w',
        Done tt
          (emit Ev_rdma_ack_cm_event
             (emit Ev_conn_put
                (emit (Ev_rdma_destroy_qp
                         (cm_id (conn (upd_conn
                                         (set_state CONN_STATE_DISCONNECTED)
                                         w))))
                   (upd_conn (set_state CONN_STATE_DISCONNECTED) w))))
        = Done tt w' /\
        state (conn w') = CONN_STATE_DISCONNECTED /\
        cm_id (conn w') = Some (ev_id event) /\
        gets (trace w') = gets (trace w) /\
        puts (trace w') = S (puts (trace w)) /\
        (NDEBUG E = false -> exists w'', init_connect E w' = Aborted w'')).
      { eexists. split; [reflexivity|]. simpl.
        split; [reflexivity|]. split; [exact Hid|].
        split; [count_events|]. split; [count_events|].
        intros Hnd. apply Ab; auto. }
      destruct Bad as (w' & Ew & Props).
      exists w'. split; [|exact Props]. rewrite <- Ew.
      destruct Hrej as [Hs|(r & Hr & N1 & N2)].
      * apply Z.eqb_neq in Hs. rewrite Hs. reflexivity.
      * rewrite Hr. destruct (ev_status event =? 28); [|reflexivity].
        destruct r; try reflexivity; congruence.
    + rewrite Hid.
      assert (R : exists w',
        match state (conn w) with
        | CONN_STATE_DISCONNECTED => Done tt (emit Ev_rdma_ack_cm_event w)
        | _ =>
            Done tt
              (emit Ev_rdma_ack_cm_event
                 (emit Ev_conn_put
                    (emit (Ev_rdma_destroy_qp (Some (ev_id event)))
                       (emit (Ev_set_context (ev_id event) Ctx_NULL)
                          (upd_conn (set_state CONN_STATE_DISCONNECTED) w)))))
        end = Done tt w' /\
        state (conn w') = CONN_STATE_DISCONNECTED /\
        cm_id (conn w') = Some (ev_id event) /\
        gets (trace w') = gets (trace w) /\
        puts (trace w') = S (puts (trace w)) /\
        transport_type (conn w') = CONN_TYPE_RDMA /\
        shutting_down (ni w') = 0).
      { destruct (state (conn w)) eqn:S0; try congruence;
          (eexists; split; [reflexivity|]; simpl;
           split; [reflexivity|]; split; [exact Hid|];
           split; [count_events|]; split; [count_events|]; auto). }
      destruct R as (w' & R & S1 & S2 & S3 & S4 & S5 & S6).
      exists w'. split.
      * rewrite <- R. destruct (state (conn w)); try reflexivity.
      * split; [exact S1|]. split; [exact S2|]. split; [exact S3|].
        split; [exact S4|]. intros Hnd. apply Ab; auto.
  - intros He. unfold process_cm_event. rewrite He.
    eexists. split; [reflexivity|]. simpl.
    split; [reflexivity|]. split; [reflexivity|]. split; [reflexivity|].
    split; count_events.
Qed.

End ConnAttempts.

Section ConnEstablished.
Import Conn.
Context {V : conn_values} {H : Recv.hdr_values}.
Variable E : env.

Lemma flush_loop_runs : forall l w,
  Forall (fun b => b.2 = Recv.BUF_TGT \/ b.2 = Recv.BUF_INIT) l ->
  flush_loop E l w
  = Done tt {| conn := set_buf_list [] (conn w); ni := ni w;
               trace := trace w ++ map flush_event l |}.
Proof.
  induction l as [|[b ty] l IH]; intros w F.
  - simpl. rewrite app_nil_r. reflexivity.
  - apply Forall_cons in F as [Hty F]. simpl in Hty.
    destruct Hty as [-> | ->]; simpl; rewrite IH by exact F;
      unfold emit, upd_conn, set_conn, flush_event; simpl;
      rewrite <- app_assoc; reflexivity.
Qed.

Lemma flushed_flush_events l :
  flushed (map flush_event l)
  = map (fun b : Z * Recv.buf_type =>
           (b.1, match b.2 with Recv.BUF_TGT => true | _ => false end)) l.
Proof.
  induction l as [|[b ty] l IH]; [reflexivity|].
  simpl. unfold flush_event at 1. simpl.
  destruct ty; simpl; rewrite <- IH; reflexivity.
Qed.

(** X26.  A connect that meets no failure: [init_connect] and the three CM
    events that follow it take the connection through
    [RESOLVING_ADDR], [RESOLVING_ROUTE] and [CONNECTING] to [CONNECTED].
    The connection then holds the identifier that [rdma_create_id] gave and
    one reference more than before; the count of connections of the NI has
    gone up by one; a quarter of the send work requests of the queue pair
    are open to requests; and the buffers that waited for the connection
    have been handed, in the order of the list and each once, to the target
    state machine ([BUF_TGT]) or to the initiator state machine, the list
    being left empty. *)
Theorem connection_established (w : world) (i inline send_wr : Z)
    (nf cf : bool) :
  WITH_TRANSPORT_IB E = true ->
  transport_type (conn w) = CONN_TYPE_RDMA ->
  state (conn w) = CONN_STATE_DISCONNECTED -> cm_id (conn w) = None ->
  shutting_down (ni w) = 0 ->
  rdma_create_id E = (0, i) -> rdma_resolve_addr E = 0 ->
  rdma_resolve_route E = 0 -> rdma_create_qp E = 0 -> rdma_connect E = 0 ->
  ibv_query_qp E = (0, (inline, send_wr)) ->
  Forall (fun b => b.2 = Recv.BUF_TGT \/ b.2 = Recv.BUF_INIT)
    (buf_list (conn w)) ->
  exists w1 w2 w3 w4,
    init_connect E w = Done PTL_OK w1 /\
    process_cm_event E (cm_event RDMA_CM_EVENT_ADDR_RESOLVED i) nf cf w1
      = Done tt w2 /\
    process_cm_event E (cm_event RDMA_CM_EVENT_ROUTE_RESOLVED i) nf cf w2
      = Done tt w3 /\
    process_cm_event E (cm_event RDMA_CM_EVENT_ESTABLISHED i) nf cf w3
      = Done tt w4 /\
    state (conn w1) = CONN_STATE_RESOLVING_ADDR /\
    state (conn w2) = CONN_STATE_RESOLVING_ROUTE /\
    state (conn w3) = CONN_STATE_CONNECTING /\
    state (conn w4) = CONN_STATE_CONNECTED /\
    cm_id (conn w4) = Some i /\ buf_list (conn w4) = [] /\
    max_inline_data (conn w4) = inline /\
    max_req_avail (conn w4) = send_wr / 4 /\
    num_conn (ni w4) = num_conn (ni w) + 1 /\
    flushed (trace w4)
      = flushed (trace w) ++
        map (fun b : Z * Recv.buf_type =>
               (b.1, match b.2 with Recv.BUF_TGT => true | _ => false end))
          (buf_list (conn w)) /\
    gets (trace w4) = S (gets (trace w)) /\
    puts (trace w4) = puts (trace w).
Proof.
  intros Hib Ht Hst Hid Hsd Hci Hra Hrr Hqp Hcn Hq F.
  destruct w as [c n tr]. destruct c. destruct n. simpl in *. subst.
  unfold init_connect. cbn. rewrite Hib, Hci, Hra. cbn.
  rewrite !andb_false_r. cbn.
  eexists. eexists. eexists. eexists.
  split; [reflexivity|].
  unfold process_cm_event, cm_event, same_id. cbn.
  rewrite !Z.eqb_refl, !andb_false_r, Hrr. cbn.
  split; [reflexivity|].
  cbn. rewrite !Z.eqb_refl, !andb_false_r, Hqp, Hcn. cbn.
  split; [reflexivity|].
  unfold get_qp_param, flush_pending_xi_xt. cbn.
  rewrite !Z.eqb_refl, !andb_false_r, Hq. cbn. rewrite andb_false_r.
  rewrite flush_loop_runs by exact F. cbn.
  split; [reflexivity|]. cbn.
  repeat (split; [reflexivity|]).
  rewrite !flushed_app, flushed_flush_events. cbn.
  rewrite !app_nil_r.
  split; [reflexivity|].
  assert (G : forall l, gets (map flush_event l) = 0%nat).
  { induction l as [|[b ty] l IH]; [reflexivity|].
    unfold gets in *. simpl. unfold flush_event at 1. simpl.
    destruct ty; simpl; exact IH. }
  assert (P : forall l, puts (map flush_event l) = 0%nat).
  { induction l as [|[b ty] l IH]; [reflexivity|].
    unfold puts in *. simpl. unfold flush_event at 1. simpl.
    destruct ty; simpl; exact IH. }
  unfold gets, puts in *. rewrite !omap_app, !length_app, G, P. cbn.
  split; lia.
Qed.

End ConnEstablished.

Section ConnSamples.
Import Conn.
#[local] Existing Instance sample_values.
#[local] Existing Instance Recv.sample_hdr_values.

Lemma compare_id_sign_witness :
  let a := ni_id (ni (sample_world CONN_STATE_CONNECTED None)) in
  let b := ni_id (ni (sample_peer CONN_STATE_CONNECTED None)) in
  (compare_id a b = 0 <-> a = b) /\
  (0 < deciding a b < 2 ^ 31 -> compare_id a b > 0) /\
  (- 2 ^ 31 < deciding a b < 0 -> compare_id a b < 0) /\
  (2 ^ 31 < deciding a b -> compare_id a b < 0) /\
  (deciding a b < - 2 ^ 31 -> compare_id a b > 0) /\
  (Z.abs (deciding a b) = 2 ^ 31 -> compare_id a b < 0 /\ compare_id b a < 0).
Proof.
  intros a b.
  apply (compare_id_sign a b); unfold in_u32; simpl; lia.
Defined.

Lemma simultaneous_connect_witness :
  let wa := sample_world CONN_STATE_RESOLVING_ADDR (Some 501) in
  let wb := sample_peer CONN_STATE_CONNECTING (Some 502) in
  let a := ni_id (ni wa) in
  let b := ni_id (ni wb) in
  let eva := sample_request 601 b in
  let evb := sample_request 602 a in
  (let ra := process_connect_request sample_env eva true true wa in
   let rb := process_connect_request sample_env evb true true wb in
   (Z.abs (deciding a b) <> 2 ^ 31 ->
    (taken_up sample_env 601 wa ra /\ refused_connecting 602 wb rb) \/
    (refused_connecting 601 wa ra /\ taken_up sample_env 602 wb rb)) /\
   (Z.abs (deciding a b) = 2 ^ 31 ->
    refused_connecting 601 wa ra /\ refused_connecting 602 wb rb)) /\
  (let ra := process_connect_request sample_env_failing eva true true wa in
   let rb := process_connect_request sample_env_failing evb true true wb in
   (Z.abs (deciding a b) <> 2 ^ 31 ->
    (taken_up sample_env_failing 601 wa ra /\
     refused_connecting 602 wb rb) \/
    (refused_connecting 601 wa ra /\
     taken_up sample_env_failing 602 wb rb)) /\
   (Z.abs (deciding a b) = 2 ^ 31 ->
    refused_connecting 601 wa ra /\ refused_connecting 602 wb rb)).
Proof.
  intros wa wb a b eva evb.
  split.
  - apply (simultaneous_connect sample_env sample_env eva evb wa wb
             {| priv_options := 0; src_id := b |}
             {| priv_options := 0; src_id := a |}).
    + unfold in_u32. simpl. lia.
    + unfold in_u32. simpl. lia.
    + unfold in_u32. simpl. lia.
    + unfold in_u32. simpl. lia.
    + discriminate.
    + reflexivity.
    + reflexivity.
    + simpl. lia.
    + reflexivity.
    + reflexivity.
    + simpl. lia.
    + left. reflexivity.
    + right. right. reflexivity.
  - apply (simultaneous_connect sample_env_failing sample_env_failing
             eva evb wa wb
             {| priv_options := 0; src_id := b |}
             {| priv_options := 0; src_id := a |}).
    + unfold in_u32. simpl. lia.
    + unfold in_u32. simpl. lia.
    + unfold in_u32. simpl. lia.
    + unfold in_u32. simpl. lia.
    + discriminate.
    + reflexivity.
    + reflexivity.
    + simpl. lia.
    + reflexivity.
    + reflexivity.
    + simpl. lia.
    + left. reflexivity.
    + right. right. reflexivity.
Defined.


Lemma failed_connect_attempt_witness :
  (exists w',
     init_connect sample_env_failing (sample_world CONN_STATE_DISCONNECTED None)
       = Done PTL_FAIL w' /\
     state (conn w') = CONN_STATE_DISCONNECTED /\ cm_id (conn w') = None /\
     gets (trace w') = 1%nat /\ puts (trace w') = 1%nat) /\
  (exists w',
     process_cm_event sample_env_failing
       (cm_event RDMA_CM_EVENT_ROUTE_RESOLVED 501) true true
       (sample_world CONN_STATE_RESOLVING_ROUTE (Some 501)) = Done tt w' /\
     state (conn w') = CONN_STATE_DISCONNECTED /\ cm_id (conn w') = None /\
     gets (trace w') = 0%nat /\ puts (trace w') = 1%nat) /\
  (exists w',
     process_cm_event sample_env
       (cm_event RDMA_CM_EVENT_CONNECT_ERROR 501) true true
       (sample_world CONN_STATE_CONNECTING (Some 501)) = Done tt w' /\
     state (conn w') = CONN_STATE_DISCONNECTED /\
     cm_id (conn w') = Some 501 /\
     gets (trace w') = 0%nat /\ puts (trace w') = 1%nat /\
     (NDEBUG sample_env = false ->
      exists w'', init_connect sample_env w' = Aborted w'')) /\
  (exists w',
     process_cm_event sample_env
       (cm_event RDMA_CM_EVENT_OTHER 501) true true
       (sample_world CONN_STATE_RESOLVING_ADDR (Some 501)) = Done tt w' /\
     conn w' = sample_conn CONN_STATE_RESOLVING_ADDR (Some 501) /\
     ni w' = ni (sample_world CONN_STATE_RESOLVING_ADDR (Some 501)) /\
     trace w' = [Ev_rdma_ack_cm_event] /\
     gets (trace w') = 0%nat /\ puts (trace w') = 0%nat).
Proof.
  split; [|split; [|split] ].
  - apply (failed_connect_attempt sample_env_failing
             (sample_world CONN_STATE_DISCONNECTED None)
             (cm_event RDMA_CM_EVENT_ADDR_RESOLVED 501) true true
             eq_refl eq_refl eq_refl).
    + reflexivity.
    + reflexivity.
    + right. simpl. lia.
  - apply (failed_connect_attempt sample_env_failing
             (sample_world CONN_STATE_RESOLVING_ROUTE (Some 501))
             (cm_event RDMA_CM_EVENT_ROUTE_RESOLVED 501) true true
             eq_refl eq_refl eq_refl).
    + reflexivity.
    + reflexivity.
    + right. split; [reflexivity|]. split; [reflexivity|].
      left. simpl. lia.
  - apply (failed_connect_attempt sample_env
             (sample_world CONN_STATE_CONNECTING (Some 501))
             (cm_event RDMA_CM_EVENT_CONNECT_ERROR 501) true true
             eq_refl eq_refl eq_refl).
    + reflexivity.
    + reflexivity.
    + right. split; [reflexivity|]. discriminate.
  - apply (failed_connect_attempt sample_env
             (sample_world CONN_STATE_RESOLVING_ADDR (Some 501))
             (cm_event RDMA_CM_EVENT_OTHER 501) true true
             eq_refl eq_refl eq_refl).
    reflexivity.
Defined.

Lemma connection_established_witness :
  let w := sample_world CONN_STATE_DISCONNECTED None in
  exists w1 w2 w3 w4,
    init_connect sample_env w = Done PTL_OK w1 /\
    process_cm_event sample_env (cm_event RDMA_CM_EVENT_ADDR_RESOLVED 501)
      true true w1 = Done tt w2 /\
    process_cm_event sample_env (cm_event RDMA_CM_EVENT_ROUTE_RESOLVED 501)
      true true w2 = Done tt w3 /\
    process_cm_event sample_env (cm_event RDMA_CM_EVENT_ESTABLISHED 501)
      true true w3 = Done tt w4 /\
    state (conn w1) = CONN_STATE_RESOLVING_ADDR /\
    state (conn w2) = CONN_STATE_RESOLVING_ROUTE /\
    state (conn w3) = CONN_STATE_CONNECTING /\
    state (conn w4) = CONN_STATE_CONNECTED /\
    cm_id (conn w4) = Some 501 /\ buf_list (conn w4) = [] /\
    max_inline_data (conn w4) = 64 /\
    max_req_avail (conn w4) = 128 / 4 /\
    num_conn (ni w4) = num_conn (ni w) + 1 /\
    flushed (trace w4)
      = flushed (trace w) ++
        map (fun b : Z * Recv.buf_type =>
               (b.1, match b.2 with Recv.BUF_TGT => true | _ => false end))
          (buf_list (conn w)) /\
    gets (trace w4) = S (gets (trace w)) /\
    puts (trace w4) = puts (trace w).
Proof.
  intros w.
  apply (connection_established sample_env w 501 64 128 true true).
  - reflexivity.
  - reflexivity.
  - reflexivity.
  - reflexivity.
  - reflexivity.
  - reflexivity.
  - reflexivity.
  - reflexivity.
  - reflexivity.
  - reflexivity.
  - reflexivity.
  - apply Forall_cons. split; [left; reflexivity|].
    apply Forall_cons. split; [right; reflexivity|]. apply Forall_nil_2.
Defined.

End ConnSamples.


(** ** Polling the completion queue *)

Section PollFacts.
Import Recv Poll.
Context {H : hdr_values}.
Variable E : env.

Lemma released_app tr1 tr2 :
  released (tr1 ++ tr2) = released tr1 ++ released tr2.
Proof. apply omap_app. Qed.

Lemma list_dels_app tr1 tr2 :
  list_dels (tr1 ++ tr2) = list_dels tr1 ++ list_dels tr2.
Proof. apply omap_app. Qed.

(** The run of [process_recv_rdma] from [STATE_RECV_DROP_BUF]. *)
Lemma drop_buf_run fuel buf w :
  (3 <= fuel)%nat ->
  process_recv_rdma E fuel STATE_RECV_DROP_BUF buf w
  = Finished (after_repost E (dropped buf w)).
Proof.
  intros Hf. do 3 (destruct fuel as [|fuel]; [lia|]).
  unfold process_recv_rdma, after_repost, dropped. cbn.
  unfold recv_repost. cbn.
  destruct (max_srq_wr E - num_posted_recv (ni w) >? PTL_SRQ_REPOST_SIZE E);
    reflexivity.
Qed.

(** What is left once a buffer has been dropped and [recv_repost] has
    run. *)
Lemma after_drop buf w :
  let w' := after_repost E (dropped buf w) in
  num_recv_drops (ni w') = num_recv_drops (ni w) + 1 /\
  num_recv_errs (ni w') = num_recv_errs (ni w) /\
  num_posted_recv (ni w') = num_posted_recv (ni w) /\
  released (trace w') = released (trace w) ++ [buf_addr buf] /\
  list_dels (trace w') = list_dels (trace w) /\
  filter is_sm_call (trace w') = filter is_sm_call (trace w).
Proof.
  unfold after_repost, dropped, recv_repost. cbn.
  destruct (max_srq_wr E - num_posted_recv (ni w) >? PTL_SRQ_REPOST_SIZE E);
    cbn; rewrite ?released_app, ?list_dels_app, ?filter_app; cbn;
    rewrite ?app_nil_r; auto 10.
Qed.

(** The state that [comp_poll] gives a failed receive. *)
Lemma comp_poll_failed_receive wc b :
  wr_id wc = Some b ->
  status wc <> 0 -> type b <> BUF_SEND -> type b <> BUF_RDMA ->
  comp_poll_one wc
  = Some {| p_buf := set_length b (byte_len wc); ni_fail_set := false;
            p_state := STATE_RECV_DROP_BUF |}.
Proof.
  intros Hb Hs T1 T2. unfold comp_poll_one. rewrite Hb.
  apply Z.eqb_neq in Hs. rewrite Hs. cbn.
  destruct (type b); try reflexivity; congruence.
Qed.

(** X27.  A completion in error of a receive buffer (of any buffer that is
    neither a send nor an RDMA buffer) drops the buffer without the
    accounting of a receive: [recv_packet_rdma] does not run, so the buffer
    is released while it is still on the list of posted receives, no
    [list_del] is made and [num_posted_recv] is not decremented, also not
    before [recv_repost] computes the room in the queue.  The drop is
    counted and neither state machine is invoked.  A failed completion of
    an RDMA buffer, and a successful one of a buffer that is none of send,
    RDMA and receive, only release the buffer and count an error:
    [rdma_comp] does not run. *)
Theorem completion_without_handler (wc : ibv_wc) (b : buf_t) (w : world)
    (fuel : nat) :
  wr_id wc = Some b -> (3 <= fuel)%nat ->
  let b' := set_length b (byte_len wc) in
  exists p,
    comp_poll_one wc = Some p /\ p_buf p = b' /\
    (status wc <> 0 -> type b <> BUF_SEND -> type b <> BUF_RDMA ->
     exists w',
       process_recv_rdma E fuel (p_state p) b' w = Finished w' /\
       w' = after_repost E (dropped b' w) /\
       num_recv_drops (ni w') = num_recv_drops (ni w) + 1 /\
       num_posted_recv (ni w') = num_posted_recv (ni w) /\
       released (trace w') = released (trace w) ++ [buf_addr b] /\
       list_dels (trace w') = list_dels (trace w) /\
       filter is_sm_call (trace w') = filter is_sm_call (trace w)) /\
    ((status wc <> 0 /\ type b = BUF_RDMA) \/
     (status wc = 0 /\ type b <> BUF_SEND /\ type b <> BUF_RDMA /\
      type b <> BUF_RECV) ->
     process_recv_rdma E fuel (p_state p) b' w = Finished (recv_error b' w)).
Proof.
  intros Hb Hf b'.
  destruct (comp_poll_one wc) as [p|] eqn:Hp;
    [|unfold comp_poll_one in Hp; rewrite Hb in Hp; discriminate].
  exists p. split; [reflexivity|].
  assert (Pb : p_buf p = b').
  { unfold comp_poll_one in Hp. rewrite Hb in Hp.
    injection Hp as <-.
    destruct (negb (status wc =? 0)); [|reflexivity].
    cbn. destruct (type b); reflexivity. }
  split; [exact Pb|]. split.
  - intros Hs T1 T2.
    rewrite (comp_poll_failed_receive wc b Hb Hs T1 T2) in Hp.
    injection Hp as <-. cbn.
    exists (after_repost E (dropped b' w)).
    split; [apply drop_buf_run; exact Hf|]. split; [reflexivity|].
    destruct (after_drop b' w) as (D & _ & N & R & L & S0).
    auto 10.
  - intros Hc. unfold comp_poll_one in Hp. rewrite Hb in Hp.
    injection Hp as <-. destruct fuel as [|fuel]; [lia|].
    destruct Hc as [(Hs & T)|(Hs & T1 & T2 & T3)].
    + apply Z.eqb_neq in Hs. rewrite Hs. cbn. rewrite T. reflexivity.
    + rewrite Hs. cbn. destruct (type b); try reflexivity; congruence.
Qed.

Lemma named_cons wc wcs :
  named (wc :: wcs)
  = match wr_id wc with Some b => b :: named wcs | None => named wcs end.
Proof. reflexivity. Qed.

(** The loop of [progress_thread_ib] over failed receives. *)
Lemma process_all_failed fuel : forall wcs w,
  (3 <= fuel)%nat -> Forall failed_receive wcs ->
  exists w',
    process_all E fuel (map comp_poll_one wcs) w = Finished w' /\
    num_recv_drops (ni w')
      = num_recv_drops (ni w) + Z.of_nat (List.length (named wcs)) /\
    num_recv_errs (ni w') = num_recv_errs (ni w) /\
    num_posted_recv (ni w') = num_posted_recv (ni w) /\
    released (trace w') = released (trace w) ++ map buf_addr (named wcs) /\
    list_dels (trace w') = list_dels (trace w) /\
    filter is_sm_call (trace w') = filter is_sm_call (trace w).
Proof.
  induction wcs as [|wc wcs IH]; intros w Hf F.
  - exists w. cbn. rewrite app_nil_r, Z.add_0_r. auto 10.
  - apply Forall_cons in F as [F1 F]. unfold failed_receive in F1.
    destruct (wr_id wc) as [b|] eqn:Hb.
    + destruct F1 as (Hs & T1 & T2).
      cbn [map process_all].
      rewrite (comp_poll_failed_receive wc b Hb Hs T1 T2).
      cbn [p_state p_buf]. rewrite drop_buf_run by exact Hf.
      set (b' := set_length b (byte_len wc)).
      destruct (after_drop b' w) as (D & Er & N & R & L & S0).
      destruct (IH (after_repost E (dropped b' w)) Hf F)
        as (w' & Run & D' & Er' & N' & R' & L' & S').
      exists w'. split; [exact Run|].
      rewrite named_cons, Hb. cbn [List.length map].
      rewrite D', Er', N', R', L', S', D, Er, N, R, L, S0.
      rewrite <- app_assoc. cbn.
      split; [lia|]. auto 10.
    + destruct (IH w Hf F) as (w' & Run & Props).
      exists w'. split.
      * cbn [map process_all]. unfold comp_poll_one at 1. rewrite Hb.
        exact Run.
      * rewrite named_cons, Hb. exact Props.
Qed.

(** X28.  A batch of completions that holds only failed receives and
    completions without a buffer: [progress_thread_ib] skips the
    completions without a buffer and drops the buffer of each of the others,
    in order.  The count of drops grows by their number, while the count of
    posted receives stays as it was and none of the buffers is taken off the
    list of posted receives.  When [ibv_poll_cq] returns an error or
    nothing, nothing is processed. *)
Theorem progress_thread_ib_failed_batch (ret : Z) (wcs : list ibv_wc)
    (w : world) (fuel : nat) :
  (3 <= fuel)%nat ->
  Forall failed_receive (take (Z.to_nat ret) wcs) ->
  (comp_poll ret wcs).1 = Z.max 0 ret /\
  (ret <= 0 -> progress_thread_ib E fuel ret wcs w = Finished w) /\
  exists w',
    progress_thread_ib E fuel ret wcs w = Finished w' /\
    num_recv_drops (ni w')
      = num_recv_drops (ni w)
        + Z.of_nat (List.length (named (take (Z.to_nat ret) wcs))) /\
    num_recv_errs (ni w') = num_recv_errs (ni w) /\
    num_posted_recv (ni w') = num_posted_recv (ni w) /\
    released (trace w')
      = released (trace w)
        ++ map buf_addr (named (take (Z.to_nat ret) wcs)) /\
    list_dels (trace w') = list_dels (trace w) /\
    filter is_sm_call (trace w') = filter is_sm_call (trace w).
Proof.
  intros Hf F. unfold progress_thread_ib, comp_poll.
  destruct (Z.leb_spec ret 0) as [Hr|Hr].
  - split; [cbn; lia|]. split; [reflexivity|].
    replace (Z.to_nat ret) with 0%nat by lia. cbn.
    exists w. rewrite app_nil_r, Z.add_0_r. auto 10.
  - split; [cbn; lia|]. split; [lia|].
    apply process_all_failed; assumption.
Qed.

End PollFacts.

Section PollSamples.
Import Recv Poll.
#[local] Existing Instance sample_hdr_values.

Lemma completion_without_handler_witness :
  let wc := {| wr_id := Some (sample_buf 1 1 0); status := 5;
               byte_len := 0 |} in
  let b' := set_length (sample_buf 1 1 0) 0 in
  exists p,
    comp_poll_one wc = Some p /\ p_buf p = b' /\
    (status wc <> 0 -> type (sample_buf 1 1 0) <> BUF_SEND ->
     type (sample_buf 1 1 0) <> BUF_RDMA ->
     exists w',
       process_recv_rdma sample_env 3 (p_state p) b' sample_world
         = Finished w' /\
       w' = after_repost sample_env (dropped b' sample_world) /\
       num_recv_drops (ni w') = num_recv_drops (ni sample_world) + 1 /\
       num_posted_recv (ni w') = num_posted_recv (ni sample_world) /\
       released (trace w') = released (trace sample_world) ++ [8192] /\
       list_dels (trace w') = list_dels (trace sample_world) /\
       filter is_sm_call (trace w')
         = filter is_sm_call (trace sample_world)) /\
    ((status wc <> 0 /\ type (sample_buf 1 1 0) = BUF_RDMA) \/
     (status wc = 0 /\ type (sample_buf 1 1 0) <> BUF_SEND /\
      type (sample_buf 1 1 0) <> BUF_RDMA /\
      type (sample_buf 1 1 0) <> BUF_RECV) ->
     process_recv_rdma sample_env 3 (p_state p) b' sample_world
       = Finished (recv_error b' sample_world)).
Proof.
  intros wc b'.
  apply (completion_without_handler sample_env wc (sample_buf 1 1 0)
           sample_world 3).
  - reflexivity.
  - lia.
Defined.

Lemma progress_thread_ib_failed_batch_witness :
  (comp_poll 2 sample_wcs).1 = Z.max 0 2 /\
  (2 <= 0 ->
   progress_thread_ib sample_env 3 2 sample_wcs sample_world
     = Finished sample_world) /\
  exists w',
    progress_thread_ib sample_env 3 2 sample_wcs sample_world
      = Finished w' /\
    num_recv_drops (ni w')
      = num_recv_drops (ni sample_world)
        + Z.of_nat (List.length (named (take (Z.to_nat 2) sample_wcs))) /\
    num_recv_errs (ni w') = num_recv_errs (ni sample_world) /\
    num_posted_recv (ni w') = num_posted_recv (ni sample_world) /\
    released (trace w')
      = released (trace sample_world)
        ++ map buf_addr (named (take (Z.to_nat 2) sample_wcs)) /\
    list_dels (trace w') = list_dels (trace sample_world) /\
    filter is_sm_call (trace w') = filter is_sm_call (trace sample_world).
Proof.
  apply (progress_thread_ib_failed_batch sample_env 2 sample_wcs
           sample_world 3).
  - lia.
  - apply Forall_cons. split.
    + unfold failed_receive. simpl. repeat split; [lia| |]; discriminate.
    + apply Forall_cons. split; [exact I|]. apply Forall_nil_2.
Defined.

End PollSamples.


(** ** The reservation of a pid *)

Section PpePidFacts.
Import Ppe PpePid.
Context {P : pid_values}.
Variable E : env.

Lemma index_nonneg {A} (l : list A) i x : index l i = Some x -> 0 <= i.
Proof.
  unfold index. destruct (Z.ltb_spec i 0); [discriminate|lia].
Qed.

Lemma index_insert_ne {A} (l : list A) i j x :
  0 <= i -> i <> j -> index (<[Z.to_nat i := x]> l) j = index l j.
Proof.
  intros Hi Hne. unfold index.
  destruct (Z.ltb_spec j 0); [reflexivity|].
  apply list_lookup_insert_ne. lia.
Qed.

Lemma pid_kept_refl c : pid_kept c c.
Proof.
  split; [auto|]. intros peer cl C _. exists cl. auto.
Qed.

Lemma pid_kept_trans c1 c2 c3 :
  pid_kept c1 c2 -> pid_kept c2 c3 -> pid_kept c1 c3.
Proof.
  intros [P1 C1] [P2 C2]. split.
  - intros j p Hj Hp. apply P2; [apply P1; assumption|assumption].
  - intros peer cl Hc Hp.
    destruct (C1 peer cl Hc Hp) as (cl' & Hc' & E').
    destruct (C2 peer cl' Hc') as (cl'' & Hc'' & E''); [congruence|].
    exists cl''. split; [exact Hc''|congruence].
Qed.

(** A computation that leaves the context alone keeps every pid. *)
Lemma keeps_same_ctx {A} (m : M A) :
  (forall w, match m w with Ok _ w' | Fault w' => ctx w' = ctx w end) ->
  keeps m.
Proof.
  intros Hm w. specialize (Hm w).
  destruct (m w); rewrite Hm; apply pid_kept_refl.
Qed.

Lemma keeps_ret {A} (a : A) : keeps (mret a).
Proof. apply keeps_same_ctx. reflexivity. Qed.

Lemma keeps_fault {A} : keeps (@fault A).
Proof. apply keeps_same_ctx. reflexivity. Qed.

Lemma keeps_bind {A B} (m : M A) (f : A -> M B) :
  keeps m -> (forall a, keeps (f a)) -> keeps (m ≫= f).
Proof.
  intros Hm Hf w. specialize (Hm w). unfold mbind, M_bind.
  destruct (m w) as [a w1|w1]; [|exact Hm].
  specialize (Hf a w1).
  destruct (f a w1); eapply pid_kept_trans; eassumption.
Qed.

Lemma keeps_emit e : keeps (emit e).
Proof. apply keeps_same_ctx. reflexivity. Qed.

Lemma keeps_get_ctx : keeps get_ctx.
Proof. apply keeps_same_ctx. reflexivity. Qed.

Lemma keeps_of_option {A} (o : option A) : keeps (of_option o).
Proof. destruct o; [apply keeps_ret|apply keeps_fault]. Qed.

Lemma keeps_detach p : keeps (ppe_xpmem_detach p).
Proof. apply keeps_same_ctx. reflexivity. Qed.

Lemma keeps_process_limits a : keeps (process_limits a).
Proof.
  apply keeps_same_ctx. intros w. unfold process_limits.
  destruct (limits_mem w !! a); reflexivity.
Qed.

Lemma keeps_read_limits a : keeps (read_limits a).
Proof.
  apply keeps_same_ctx. intros w. unfold read_limits.
  destruct (limits_mem w !! a); reflexivity.
Qed.

Lemma keeps_get_client peer : keeps (get_client peer).
Proof.
  unfold get_client. apply keeps_bind; [apply keeps_get_ctx|].
  intros c. apply keeps_of_option.
Qed.

Lemma keeps_get_ni peer i : keeps (get_ni peer i).
Proof.
  unfold get_ni. apply keeps_bind; [apply keeps_get_client|].
  intros c. apply keeps_of_option.
Qed.

Lemma keeps_read_pid i : keeps (read_pid i).
Proof.
  unfold read_pid. apply keeps_bind; [apply keeps_get_ctx|].
  intros c. apply keeps_of_option.
Qed.

(** A store to an NI keeps the pid of its client. *)
Lemma keeps_put_ni peer i n : keeps (put_ni peer i n).
Proof.
  intros w. unfold put_ni.
  destruct (index (clients (ctx w)) peer) as [cl|] eqn:C.
  - rewrite (bind_Ok _ _ _ _ _ (get_client_Ok _ _ _ C)).
    unfold put_client, get_ctx, put_ctx, mbind, M_bind. simpl.
    split; [auto|]. intros peer' cl0 C0 Hp. simpl.
    destruct (Z.eq_dec peer peer') as [<-|Hne].
    + rewrite (index_insert _ _ _ _ C). eexists. split; [reflexivity|].
      simpl. congruence.
    + rewrite index_insert_ne; [|eapply index_nonneg; exact C|exact Hne].
      exists cl0. auto.
  - unfold get_client, get_ctx, mbind, M_bind. rewrite C. simpl.
    apply pid_kept_refl.
Qed.

Lemma keeps_for_loop n body : forall i,
  (forall k, keeps (body k)) -> keeps (for_loop n i body).
Proof.
  induction n as [|n IH]; intros i Hb; simpl.
  - apply keeps_ret.
  - apply keeps_bind; [apply Hb|]. intros _. apply IH, Hb.
Qed.

Lemma keeps_clear_pt_status base i : keeps (clear_pt_status base i).
Proof.
  unfold clear_pt_status. destruct base; [apply keeps_emit|apply keeps_fault].
Qed.

Create HintDb keeps.
#[local] Hint Resolve keeps_ret keeps_fault keeps_emit keeps_get_ctx
  keeps_of_option keeps_detach keeps_process_limits keeps_read_limits
  keeps_get_client keeps_get_ni keeps_read_pid keeps_put_ni
  keeps_clear_pt_status : keeps.

Ltac keeps_tac :=
  repeat first
    [ solve [auto with keeps]
    | apply keeps_for_loop; intros ?
    | apply keeps_bind; [|intros ?]
    | match goal with
      | |- keeps (if ?c then _ else _) => destruct c
      | |- keeps (match ?o with _ => _ end) => destruct o
      end ].

(** Taking a free pid gives up no reservation, when the client had none. *)
Lemma took_pid_kept peer k w cl :
  index (clients (ctx w)) peer = Some cl -> client_pid cl = -1 ->
  index (pids (ctx w)) k = Some (-1) ->
  pid_kept (ctx w) (ctx (took_pid peer k cl w)).
Proof.
  intros C Hc Hk. split; simpl.
  - intros j p Hj Hp.
    rewrite index_insert_ne; [exact Hj|eapply index_nonneg; exact Hk|].
    intros <-. congruence.
  - intros peer' cl0 C0 Hp.
    rewrite index_insert_ne; [eauto|eapply index_nonneg; exact C|].
    intros <-. congruence.
Qed.

Lemma took_pid_holds peer k w cl :
  index (clients (ctx w)) peer = Some cl ->
  index (pids (ctx w)) k = Some (-1) ->
  holds_pid peer k (ctx (took_pid peer k cl w)).
Proof.
  intros C Hk. split; simpl.
  - apply (index_insert _ _ _ _ Hk).
  - eexists. split; [apply (index_insert _ _ _ _ C)|reflexivity].
Qed.

(** The search stops at the first free slot. *)
Lemma pid_loop_takes peer k cl : forall n i w,
  index (clients (ctx w)) peer = Some cl ->
  index (pids (ctx w)) k = Some (-1) ->
  i <= k < i + Z.of_nat n ->
  (forall j, i <= j < k ->
     exists p, index (pids (ctx w)) j = Some p /\ p <> -1) ->
  pid_loop n i peer w = Ok tt (took_pid peer k cl w).
Proof.
  induction n as [|n IH]; intros i w C Hk Hi Hlow; [lia|].
  simpl pid_loop.
  destruct (Z.eq_dec i k) as [->|Hne].
  - rewrite (bind_Ok _ _ _ _ _ (read_pid_Ok _ _ _ Hk)). rewrite Z.eqb_refl.
    destruct (take_pid peer k w cl C Hk) as (wa & S1 & S2).
    rewrite (bind_Ok _ _ _ _ _ S1). exact S2.
  - destruct (Hlow i) as (p & Hp & Hp1); [lia|].
    rewrite (bind_Ok _ _ _ _ _ (read_pid_Ok _ _ _ Hp)).
    rewrite (proj2 (Z.eqb_neq _ _)) by exact Hp1.
    apply IH; [exact C|exact Hk|lia|]. intros j Hj. apply Hlow. lia.
Qed.

(** The search gives up no reservation. *)
Lemma pid_loop_kept peer cl : forall n i w,
  index (clients (ctx w)) peer = Some cl -> client_pid cl = -1 ->
  match pid_loop n i peer w with
  | Ok _ w' | Fault w' => pid_kept (ctx w) (ctx w')
  end.
Proof.
  induction n as [|n IH]; intros i w C Hc; [apply pid_kept_refl|].
  simpl pid_loop.
  destruct (index (pids (ctx w)) i) as [p|] eqn:Hp.
  - rewrite (bind_Ok _ _ _ _ _ (read_pid_Ok _ _ _ Hp)).
    destruct (Z.eqb_spec p (-1)) as [->|Hne].
    + destruct (take_pid peer i w cl C Hp) as (wa & S1 & S2).
      rewrite (bind_Ok _ _ _ _ _ S1), S2.
      apply took_pid_kept; assumption.
    + apply IH; assumption.
  - rewrite (bind_Fault _ _ w w).
    + apply pid_kept_refl.
    + unfold read_pid, get_ctx, mbind, M_bind. rewrite Hp. reflexivity.
Qed.

Lemma keeps_reserve_pid cmd peer : keeps (reserve_pid cmd peer).
Proof.
  intros w. unfold reserve_pid.
  destruct (index (clients (ctx w)) peer) as [cl|] eqn:C.
  - rewrite (bind_Ok _ _ _ _ _ (get_client_Ok _ _ _ C)).
    destruct (PTL_PID_ANY =? cmd_pid cmd).
    + destruct (Z.eqb_spec (-1) (client_pid cl)) as [Hc|Hc];
        [|apply pid_kept_refl].
      pose proof (pid_loop_kept peer cl (Z.to_nat PTL_PID_MAX) 0 w C
                    (eq_sym Hc)) as K.
      unfold mbind at 1. unfold M_bind at 1.
      destruct (pid_loop (Z.to_nat PTL_PID_MAX) 0 peer w) as [[] w1|w1];
        [|exact K].
      lazymatch goal with
      | |- match ?m w1 with _ => _ end =>
          assert (Q : keeps m) by keeps_tac;
          specialize (Q w1);
          destruct (m w1); eapply pid_kept_trans; eassumption
      end.
    + destruct (Z.eqb_spec (-1) (client_pid cl)) as [Hc|Hc].
      * destruct (index (pids (ctx w)) (cmd_pid cmd)) as [p|] eqn:Hp.
        -- rewrite (bind_Ok _ _ _ _ _ (read_pid_Ok _ _ _ Hp)).
           destruct (Z.eqb_spec (-1) p) as [<-|Hne];
             [|apply pid_kept_refl].
           destruct (take_pid peer (cmd_pid cmd) w cl C Hp)
             as (wa & S1 & S2).
           rewrite (bind_Ok _ _ _ _ _ S1), (bind_Ok _ _ _ _ _ S2).
           apply took_pid_kept; auto.
        -- rewrite (bind_Fault _ _ w w).
           ++ apply pid_kept_refl.
           ++ unfold read_pid, get_ctx, mbind, M_bind. rewrite Hp.
              reflexivity.
      * destruct (negb (cmd_pid cmd =? client_pid cl)); apply pid_kept_refl.
  - unfold get_client, get_ctx, mbind, M_bind. rewrite C. simpl.
    apply pid_kept_refl.
Qed.

#[local] Hint Resolve keeps_reserve_pid : keeps.

Lemma keeps_ni_init_body cmd : keeps (ni_init_body E cmd).
Proof. unfold ni_init_body. cbv zeta. keeps_tac. Qed.

Lemma keeps_cleanup peer i : keeps (cleanup peer i).
Proof. unfold cleanup. keeps_tac. Qed.

Lemma keeps_send_retval peer rp : keeps (send_retval E peer rp).
Proof. unfold send_retval. keeps_tac. Qed.

(** [ni_init_impl] gives up no reservation, however it ends. *)
Lemma keeps_ni_init_impl cmd : keeps (ni_init_impl E cmd).
Proof.
  unfold ni_init_impl. cbv zeta.
  apply keeps_bind; [apply keeps_ni_init_body|]. intros r.
  apply keeps_bind.
  - destruct r; [apply keeps_cleanup|apply keeps_ret].
  - intros _. apply keeps_send_retval.
Qed.

(** A client that has a pid and asks for any pid keeps the one it has. *)
Lemma reserve_pid_again cmd peer w cl :
  index (clients (ctx w)) peer = Some cl ->
  cmd_pid cmd = PTL_PID_ANY -> client_pid cl <> -1 ->
  reserve_pid cmd peer w = Ok None w.
Proof.
  intros C Hany Hc. unfold reserve_pid.
  rewrite (bind_Ok _ _ _ _ _ (get_client_Ok _ _ _ C)).
  rewrite Hany, Z.eqb_refl.
  rewrite (proj2 (Z.eqb_neq _ _)) by congruence. reflexivity.
Qed.

Lemma reserve_pid_takes cmd peer w cl k :
  index (clients (ctx w)) peer = Some cl -> client_pid cl = -1 ->
  cmd_pid cmd = PTL_PID_ANY ->
  0 <= k < PTL_PID_MAX -> lowest_free (ctx w) k ->
  reserve_pid cmd peer w = Ok None (took_pid peer k cl w).
Proof.
  intros C Hc Hany Hk [Hfree Hlow]. unfold reserve_pid.
  rewrite (bind_Ok _ _ _ _ _ (get_client_Ok _ _ _ C)).
  rewrite Hany, Hc, !Z.eqb_refl.
  rewrite (bind_Ok _ _ w tt (took_pid peer k cl w)).
  - destruct (took_pid_holds peer k w cl C Hfree) as (_ & cl' & C' & Hk').
    rewrite (bind_Ok _ _ _ _ _ (get_client_Ok _ _ _ C')).
    rewrite (proj2 (Z.eqb_neq _ _)) by lia. reflexivity.
  - apply pid_loop_takes; [exact C|exact Hfree|lia|].
    intros j Hj. apply Hlow. lia.
Qed.

(** X29.  A client without a pid that asks for [PTL_PID_ANY] gets the
    lowest free pid: the first slot of [ctx->pids] that holds -1 takes the
    number of the client, the client takes the index of that slot as its
    pid, every other slot is left as it was, and no other client loses a
    reservation.  A further call for the same client finds the pid and
    changes nothing. *)
Theorem reserve_pid_any_lowest (cmd : ptl_cqe_niinit_t) (peer : Z)
    (w : world) (cl : ptl_ppe_client_t) (k : Z) :
  index (clients (ctx w)) peer = Some cl -> client_pid cl = -1 ->
  cmd_pid cmd = PTL_PID_ANY ->
  0 <= k < PTL_PID_MAX -> lowest_free (ctx w) k ->
  exists w',
    reserve_pid cmd peer w = Ok None w' /\
    holds_pid peer k (ctx w') /\
    (forall j, j <> k -> index (pids (ctx w')) j = index (pids (ctx w)) j) /\
    pid_kept (ctx w) (ctx w') /\
    limits_mem w' = limits_mem w /\ trace w' = trace w /\
    reserve_pid cmd peer w' = Ok None w'.
Proof.
  intros C Hc Hany Hk Hlow.
  exists (took_pid peer k cl w).
  split; [apply reserve_pid_takes; assumption|].
  destruct Hlow as [Hfree Hlow].
  pose proof (took_pid_holds peer k w cl C Hfree) as Hh.
  split; [exact Hh|]. split.
  - intros j Hj. simpl. apply index_insert_ne; [lia|congruence].
  - split; [apply took_pid_kept; assumption|].
    split; [reflexivity|]. split; [reflexivity|].
    destruct Hh as (_ & cl' & C' & Hk').
    apply (reserve_pid_again cmd peer _ cl' C' Hany). lia.
Qed.

(** A client that has a pid and asks for that pid keeps it. *)
Lemma reserve_pid_same cmd peer w cl :
  index (clients (ctx w)) peer = Some cl ->
  cmd_pid cmd <> PTL_PID_ANY -> client_pid cl <> -1 ->
  cmd_pid cmd = client_pid cl ->
  reserve_pid cmd peer w = Ok None w.
Proof.
  intros C Hne Hc He. unfold reserve_pid.
  rewrite (bind_Ok _ _ _ _ _ (get_client_Ok _ _ _ C)).
  rewrite (proj2 (Z.eqb_neq _ _)) by congruence.
  rewrite (proj2 (Z.eqb_neq _ _)) by congruence.
  rewrite He, Z.eqb_refl. reflexivity.
Qed.

(** A client without a pid that asks for a free pid gets it. *)
Lemma reserve_pid_asked cmd peer w cl :
  index (clients (ctx w)) peer = Some cl -> client_pid cl = -1 ->
  cmd_pid cmd <> PTL_PID_ANY ->
  index (pids (ctx w)) (cmd_pid cmd) = Some (-1) ->
  reserve_pid cmd peer w = Ok None (took_pid peer (cmd_pid cmd) cl w).
Proof.
  intros C Hc Hne Hp. unfold reserve_pid.
  rewrite (bind_Ok _ _ _ _ _ (get_client_Ok _ _ _ C)).
  rewrite (proj2 (Z.eqb_neq _ _)) by congruence.
  rewrite Hc, Z.eqb_refl.
  rewrite (bind_Ok _ _ _ _ _ (read_pid_Ok _ _ _ Hp)), Z.eqb_refl.
  destruct (take_pid peer (cmd_pid cmd) w cl C Hp) as (wa & S1 & S2).
  rewrite (bind_Ok _ _ _ _ _ S1), (bind_Ok _ _ _ _ _ S2). reflexivity.
Qed.

(** A reservation that is kept is still held. *)
Lemma pid_kept_holds (p j : Z) (c c' : ptl_ppe_t) :
  holds_pid p j c -> pid_kept c c' -> holds_pid p j c'.
Proof.
  intros (Hp & cl & C & Hk) [Kp1 Kp2].
  pose proof (index_nonneg _ _ _ Hp). pose proof (index_nonneg _ _ _ C).
  split.
  - apply Kp1; [exact Hp|lia].
  - destruct (Kp2 p cl C) as (cl' & C' & E'); [lia|].
    exists cl'. split; [exact C'|congruence].
Qed.

(** X30.  A reservation outlives the call that made it, also when that
    call fails.  When [ni_init_impl] has taken a pid for a client, the
    lowest free one for [PTL_PID_ANY] or the free one that the client asked
    for, the pid stays with the client however the call ends: [cleanup]
    detaches the mappings and gives no pid back.  In particular, when the
    limits structure cannot be attached, the call computes [PTL_FAIL],
    ends, and leaves the pid reserved.  A pid that a client holds from an
    earlier call stays with it in the same way. *)
Theorem failed_init_keeps_pid (cmd : ptl_cqe_niinit_t) (w : world)
    (cl : ptl_ppe_client_t) (k : Z) :
  let peer := remote_id cmd in
  index (clients (ctx w)) peer = Some cl -> client_pid cl = -1 ->
  reserves cmd (ctx w) k ->
  match ni_init_impl E cmd w with
  | Ok _ w' | Fault w' => holds_pid peer k (ctx w')
  end /\
  (forall n,
     index (nis cl) (ni_handle_ni cmd) = Some n ->
     ppe_xpmem_attach E (cmd_limits cmd) (sizeof_ptl_ni_limits_t E) = None ->
     exists w1 r w',
       ni_init_body E cmd w = Ok (Some PTL_FAIL) w1 /\
       ni_init_impl E cmd w = Ok r w' /\
       holds_pid peer k (ctx w')) /\
  (forall p j,
     holds_pid p j (ctx w) ->
     match ni_init_impl E cmd w with
     | Ok _ w' | Fault w' => holds_pid p j (ctx w')
     end).
Proof.
  intros peer C Hc Hres.
  assert (Old : forall p j,
     holds_pid p j (ctx w) ->
     match ni_init_impl E cmd w with
     | Ok _ w' | Fault w' => holds_pid p j (ctx w')
     end).
  { intros p j Hpj. pose proof (keeps_ni_init_impl cmd w) as Kp.
    destruct (ni_init_impl E cmd w);
      exact (pid_kept_holds _ _ _ _ Hpj Kp). }
  set (w0 := took_pid peer k cl w).
  assert (Hfree : index (pids (ctx w)) k = Some (-1)).
  { destruct Hres as [(_ & _ & Hf & _) | (_ & _ & Hf)]; exact Hf. }
  pose proof (index_nonneg _ _ _ Hfree) as Hk0.
  assert (R : reserve_pid cmd peer w = Ok None w0).
  { destruct Hres as [(Hany & Hk & Hlow) | (Hne & -> & Hp)].
    - apply reserve_pid_takes; assumption.
    - apply reserve_pid_asked; assumption. }
  pose proof (took_pid_holds peer k w cl C Hfree) as Hh.
  assert (R0 : reserve_pid cmd peer w0 = Ok None w0).
  { destruct Hh as (_ & cl' & C' & Hk').
    destruct Hres as [(Hany & _) | (Hne & Ek & _)].
    - apply (reserve_pid_again cmd peer _ cl' C' Hany). lia.
    - apply (reserve_pid_same cmd peer _ cl' C' Hne); [lia|congruence]. }
  assert (B : ni_init_body E cmd w = ni_init_body E cmd w0).
  { unfold ni_init_body. cbv zeta. fold peer.
    rewrite (bind_Ok _ _ _ _ _ R), (bind_Ok _ _ _ _ _ R0). reflexivity. }
  assert (I : ni_init_impl E cmd w = ni_init_impl E cmd w0).
  { unfold ni_init_impl. cbv zeta. unfold mbind, M_bind. rewrite B.
    reflexivity. }
  assert (K : match ni_init_impl E cmd w with
              | Ok _ w' | Fault w' => holds_pid peer k (ctx w')
              end).
  { rewrite I. pose proof (keeps_ni_init_impl cmd w0) as Kp.
    destruct (ni_init_impl E cmd w0);
      exact (pid_kept_holds _ _ _ _ Hh Kp). }
  split; [exact K|]. split; [|exact Old].
  intros n Hn Hat.
  assert (G0 : get_ni peer (ni_handle_ni cmd) w0 = Ok n w0).
  { rewrite get_ni_unfold. destruct Hh as (_ & cl' & C' & Hk').
    unfold w0 in *. simpl in *.
    rewrite (index_insert _ _ _ _ C) in *. injection C' as <-.
    simpl. rewrite Hn. reflexivity. }
  destruct (put_ni_get_ni peer (ni_handle_ni cmd) w0 n
              (set_limits_ptr n None) G0) as (w1 & P1 & G1 & _).
  assert (Body : ni_init_body E cmd w = Ok (Some PTL_FAIL) w1).
  { rewrite B. unfold ni_init_body. cbv zeta. fold peer.
    rewrite (bind_Ok _ _ _ _ _ R0), (bind_Ok _ _ _ _ _ G0), Hat.
    rewrite (bind_Ok _ _ _ _ _ P1). reflexivity. }
  destruct (cleanup_ends peer (ni_handle_ni cmd) w1 _ G1) as (w2 & Cl).
  destruct (send_retval_acks E peer (retval_ptr cmd) w2)
    as (r & w' & tr & Sr & _).
  assert (Run : ni_init_impl E cmd w = Ok r w').
  { unfold ni_init_impl. cbv zeta. fold peer.
    rewrite (bind_Ok _ _ _ _ _ Body). cbv beta iota.
    rewrite (bind_Ok _ _ _ _ _ Cl). exact Sr. }
  exists w1, r, w'. split; [exact Body|]. split; [exact Run|].
  rewrite Run in K. exact K.
Qed.

End PpePidFacts.

Section PpePidSamples.
Import Ppe PpePid.
#[local] Existing Instance sample_pid_values.

Lemma fresh_world_lowest_free : lowest_free (ctx fresh_world) 1.
Proof.
  split; [reflexivity|]. intros j Hj.
  assert (j = 0) as -> by lia. exists 7. split; [reflexivity|lia].
Qed.

Lemma reserve_pid_any_lowest_witness :
  exists w',
    reserve_pid (sample_init 65535) 0 fresh_world = Ok None w' /\
    holds_pid 0 1 (ctx w') /\
    (forall j, j <> 1 ->
       index (pids (ctx w')) j = index (pids (ctx fresh_world)) j) /\
    pid_kept (ctx fresh_world) (ctx w') /\
    limits_mem w' = limits_mem fresh_world /\
    trace w' = trace fresh_world /\
    reserve_pid (sample_init 65535) 0 w' = Ok None w'.
Proof.
  apply (reserve_pid_any_lowest (sample_init 65535) 0 fresh_world
           {| client_pid := -1; nis := [ni_zero] |} 1).
  - reflexivity.
  - reflexivity.
  - reflexivity.
  - simpl. lia.
  - exact fresh_world_lowest_free.
Defined.

Lemma failed_init_keeps_pid_witness :
  (match ni_init_impl no_attach_env (sample_init 65535) fresh_world with
   | Ok _ w' | Fault w' => holds_pid 0 1 (ctx w')
   end /\
   (forall n,
      index [ni_zero] 0 = Some n ->
      ppe_xpmem_attach no_attach_env 1000 96 = None ->
      exists w1 r w',
        ni_init_body no_attach_env (sample_init 65535) fresh_world
          = Ok (Some PTL_FAIL) w1 /\
        ni_init_impl no_attach_env (sample_init 65535) fresh_world
          = Ok r w' /\
        holds_pid 0 1 (ctx w'))) /\
  (match ni_init_impl no_attach_env (sample_init 1) fresh_world with
   | Ok _ w' | Fault w' => holds_pid 0 1 (ctx w')
   end /\
   (forall n,
      index [ni_zero] 0 = Some n ->
      ppe_xpmem_attach no_attach_env 1000 96 = None ->
      exists w1 r w',
        ni_init_body no_attach_env (sample_init 1) fresh_world
          = Ok (Some PTL_FAIL) w1 /\
        ni_init_impl no_attach_env (sample_init 1) fresh_world
          = Ok r w' /\
        holds_pid 0 1 (ctx w'))).
Proof.
  split.
  - refine (let H := failed_init_keeps_pid no_attach_env (sample_init 65535)
                       fresh_world {| client_pid := -1; nis := [ni_zero] |} 1
                       eq_refl eq_refl _ in
            conj (proj1 H) (proj1 (proj2 H))).
    left. split; [reflexivity|]. split; [simpl; lia|].
    exact fresh_world_lowest_free.
  - refine (let H := failed_init_keeps_pid no_attach_env (sample_init 1)
                       fresh_world {| client_pid := -1; nis := [ni_zero] |} 1
                       eq_refl eq_refl _ in
            conj (proj1 H) (proj1 (proj2 H))).
    right. split; [simpl; lia|]. split; reflexivity.
Defined.

End PpePidSamples.
